(** * Konnwei battery monitor: packet codec and polling session

    A shallow embedding of
    [custom_components/konnwei_battery_monitor/protocol.py],
    [const.py] and [coordinator.py], with the properties of the
    wire codec and of the polling coordinator proved over it, and of
    the entities of [sensor.py] and [binary_sensor.py] and the two
    settings steps of [config_flow.py].

    Python [bytes] are [list byte]; Python's unbounded [int] is [Z]. *)

From Stdlib Require Import ZArith List Bool Lia.
From Stdlib Require Import Strings.Byte Strings.Ascii.
From Stdlib Require Strings.String.
From Stdlib Require Import Floats.PrimFloat Numbers.Cyclic.Int63.Uint63.
From Stdlib Require Import Floats.SpecFloat Floats.FloatOps Floats.FloatAxioms.
Import ListNotations.

Local Open Scope Z_scope.

(** ** Python byte strings *)

Definition bytes := list byte.

(** The integer value of one element of a [bytes] object. *)
Definition byte_to_Z (b : byte) : Z := Z.of_N (Byte.to_N b).

(** The byte whose value is [z mod 256]. *)
Definition byte_of_Z (z : Z) : byte :=
  match Byte.of_N (Z.to_N (z mod 256)) with
  | Some b => b
  | None => x00
  end.

(** [len(data)] as a Python integer. *)
Definition len (data : bytes) : Z := Z.of_nat (List.length data).

(** Python's normalisation of one slice bound against a sequence of
    length [n]: negative bounds count from the end, and every bound is
    clamped into [0 .. n]. *)
Definition slice_bound (n i : Z) : Z :=
  if i <? 0 then Z.max 0 (i + n) else Z.min i n.

(** [data[start:stop]], where [None] is an omitted bound. *)
Definition slice (start stop : option Z) (data : bytes) : bytes :=
  let n := len data in
  let lo := match start with Some i => slice_bound n i | None => 0 end in
  let hi := match stop with Some j => slice_bound n j | None => n end in
  firstn (Z.to_nat (hi - lo)) (skipn (Z.to_nat lo) data).

(** [a == b] on byte strings. *)
Definition bytes_eqb (a b : bytes) : bool :=
  if list_eq_dec Byte.byte_eq_dec a b then true else false.

(** ** Exceptions

    A Python call either returns a value or raises.  The failures the
    coordinator reports through [UpdateFailed] are told apart by their
    message. *)

Inductive failure : Set :=
  | DeviceNotFound          (* "Device ... not found" *)
  | DeviceInfoTimeout       (* "Device info query timeout" *)
  | NoDeviceInfoResponse    (* "No device info response" *)
  | InvalidDeviceInfo       (* "Invalid device info response" *)
  | StatusPollTimeout       (* "Status poll timeout" *)
  | NoStatusResponse        (* "No status response" *)
  | InvalidStatus           (* "Invalid status response" *)
  | BleError.               (* "BLE error: ..." *)

Inductive exn : Set :=
  | StructError
  | IndexError
  | AttributeError
  | TimeoutError
  | BleakError
  | UpdateFailed (msg : failure).

Inductive py (A : Type) : Type :=
  | Return (a : A)
  | Raise (e : exn).
Arguments Return {A} a.
Arguments Raise {A} e.

Definition py_bind {A B} (c : py A) (k : A -> py B) : py B :=
  match c with
  | Return a => k a
  | Raise e => Raise e
  end.

Declare Scope py_scope.
Delimit Scope py_scope with py.
Notation "x <- c ;; k" := (py_bind c (fun x => k))
  (at level 61, c at next level, right associativity) : py_scope.

(** [data[i]] for a non-negative index. *)
Definition index (data : bytes) (i : nat) : py Z :=
  match nth_error data i with
  | Some b => Return (byte_to_Z b)
  | None => Raise IndexError
  end.

(** [struct.pack("<H", v)]: two bytes, low byte first; [struct.error]
    when [v] is not a u16. *)
Definition pack_H (v : Z) : py bytes :=
  if (0 <=? v) && (v <=? 65535)
  then Return [byte_of_Z v; byte_of_Z (Z.shiftr v 8)]
  else Raise StructError.

(** [struct.unpack("<H", b)[0]]; [struct.error] when [b] is not
    exactly two bytes long. *)
Definition unpack_H (b : bytes) : py Z :=
  match b with
  | [lo; hi] => Return (byte_to_Z lo + 256 * byte_to_Z hi)
  | _ => Raise StructError
  end.

(** [b.rstrip(chars)]: drop the longest suffix made of bytes that
    occur in [chars]. *)
Fixpoint rstrip (chars b : bytes) : bytes :=
  match b with
  | [] => []
  | x :: rest =>
      match rstrip chars rest with
      | [] => if existsb (Byte.eqb x) chars then [] else [x]
      | kept => x :: kept
      end
  end.

(** [b.decode("ascii", errors="ignore")]: bytes above 0x7F are
    dropped, every other byte is the character of that code. *)
Definition decode_ascii_ignore (b : bytes) : String.string :=
  String.string_of_list_byte (filter (fun x => byte_to_Z x <? 128) b).

(** [n / 100.0] for an integer [n]: the integer is converted to a
    binary64 float, then divided. *)
Definition div_100 (n : Z) : float :=
  PrimFloat.div (PrimFloat.of_uint63 (Uint63.of_Z n)) 100%float.

(** ** protocol.py *)

(** One pass of the inner loop of [crc16_x25]. *)
Definition crc_shift (crc : Z) : Z :=
  if negb (Z.land crc 1 =? 0)
  then Z.lxor (Z.shiftr crc 1) 0x8408
  else Z.shiftr crc 1.

(** The body of the outer loop: [crc ^= byte], then eight shifts. *)
Definition crc_update (crc : Z) (b : byte) : Z :=
  Nat.iter 8 crc_shift (Z.lxor crc (byte_to_Z b)).

Definition crc16_x25 (data : bytes) : Z :=
  Z.lxor (fold_left crc_update data 0xFFFF) 0xFFFF.

Definition validate_packet (data : bytes) : bool :=
  if len data <? 10 then false
  else if negb (bytes_eqb (slice (Some (-2)) None data) [x0d; x0a]) then false
  else
    let residue := crc16_x25 (slice None (Some (-2)) data) in
    residue =? 0x0F47.

Definition build_packet (command data : bytes) : py bytes :=
  let header := [x40; x40] in
  let footer := [x0d; x0a] in
  let length := 10 + len data in
  (length_bytes <- pack_H length ;;
   let payload := header ++ length_bytes ++ command ++ data in
   let crc := crc16_x25 payload in
   crc_bytes <- pack_H crc ;;
   Return (payload ++ crc_bytes ++ footer))%py.

(** The dict returned by [parse_status_response]. *)
Record status : Set := {
  voltage : float;
  battery_ok : bool;
  charging : bool
}.

Definition parse_status_response (data : bytes) : py (option status) :=
  if len data <? 14 then Return None
  else if negb (bytes_eqb (slice (Some 0) (Some 2) data) [x24; x24])
  then Return None
  else if negb (bytes_eqb (slice (Some 4) (Some 6) data) [x4b; x0b])
  then Return None
  else if negb (validate_packet data) then Return None
  else
    (voltage_raw <- unpack_H (slice (Some 6) (Some 8) data) ;;
     let voltage := div_100 voltage_raw in
     battery_status <- index data 8 ;;
     let battery_ok := battery_status =? 0x02 in
     charging_byte <- index data 9 ;;
     let charging := charging_byte =? 0x01 in
     Return (Some {| voltage := voltage;
                     battery_ok := battery_ok;
                     charging := charging |}))%py.

(** The dict returned by [parse_device_info_response]. *)
Record device_info : Set := {
  model : String.string;
  hw_version : String.string;
  fw_version : String.string
}.

Definition parse_device_info_response (data : bytes)
  : py (option device_info) :=
  if len data <? 54 then Return None
  else if negb (bytes_eqb (slice (Some 0) (Some 2) data) [x24; x24])
  then Return None
  else if negb (bytes_eqb (slice (Some 4) (Some 6) data) [x43; x01])
  then Return None
  else if negb (validate_packet data) then Return None
  else
    let model :=
      decode_ascii_ignore (rstrip [x00] (slice (Some 6) (Some 16) data)) in
    let hw_version :=
      decode_ascii_ignore (rstrip [x00] (slice (Some 16) (Some 26) data)) in
    let fw_version :=
      decode_ascii_ignore (rstrip [x00] (slice (Some 26) (Some 36) data)) in
    Return (Some {| model := model;
                    hw_version := hw_version;
                    fw_version := fw_version |}).

(** ** const.py *)

Definition CMD_STATUS_POLL : bytes :=
  [x40; x40; x0a; x00; x0b; x0b; xa9; xb2; x0d; x0a].

Definition CMD_DEVICE_INFO : bytes :=
  [x40; x40; x0a; x00; x03; x01; x33; xd3; x0d; x0a].

(** ** coordinator.py

    The coordinator runs on an event loop.  At every [await] the loop
    may run the notification callback, so each awaited transport call
    is given the notifications that arrive while it is pending and the
    way the call ends.  An [asyncio.Event] is its flag.  [not x] on an
    [Optional[bytes]] holds for [None] and for [b""]. *)

Record coordinator : Set := {
  _device_info : option device_info;
  _response_data : option bytes;
  _response_event : option bool
}.

Definition set_device_info (v : option device_info) (self : coordinator) :=
  {| _device_info := v;
     _response_data := _response_data self;
     _response_event := _response_event self |}.

Definition set_response_data (v : option bytes) (self : coordinator) :=
  {| _device_info := _device_info self;
     _response_data := v;
     _response_event := _response_event self |}.

Definition set_response_event (v : option bool) (self : coordinator) :=
  {| _device_info := _device_info self;
     _response_data := _response_data self;
     _response_event := v |}.

(** [KonnweiCoordinator.__init__] *)
Definition init : coordinator :=
  {| _device_info := None; _response_data := None; _response_event := None |}.

(** What the coordinator does that can be seen from outside: bytes
    handed to [client.write_gatt_char], and calls of the two parsers. *)
Inductive event : Set :=
  | Write (data : bytes)
  | ParseDeviceInfo (data : bytes)
  | ParseStatus (data : bytes).

(** A step of the coordinator: the result, the coordinator after it
    and the events of the step.  A raised exception keeps the state
    reached so far. *)
Definition task (A : Type) : Type :=
  coordinator -> py A * coordinator * list event.

Definition ret {A} (a : A) : task A := fun self => (Return a, self, []).

Definition raise {A} (e : exn) : task A := fun self => (Raise e, self, []).

Definition bind {A B} (c : task A) (k : A -> task B) : task B :=
  fun self =>
    match c self with
    | (Return a, self1, t1) =>
        let '(r, self2, t2) := k a self1 in (r, self2, t1 ++ t2)
    | (Raise e, self1, t1) => (Raise e, self1, t1)
    end.

(** [try: c  except exc: h], where [handles] picks the exceptions
    the clause catches. *)
Definition try_except {A} (c : task A) (handles : exn -> bool)
  (h : exn -> task A) : task A :=
  fun self =>
    match c self with
    | (Raise e, self1, t1) =>
        if handles e
        then let '(r, self2, t2) := h e self1 in (r, self2, t1 ++ t2)
        else (Raise e, self1, t1)
    | done => done
    end.

(** [try: c  finally: f] *)
Definition try_finally {A} (c : task A) (f : task unit) : task A :=
  fun self =>
    let '(r, self1, t1) := c self in
    match f self1 with
    | (Return _, self2, t2) => (r, self2, t1 ++ t2)
    | (Raise e, self2, t2) => (Raise e, self2, t1 ++ t2)
    end.

Definition update (f : coordinator -> coordinator) : task unit :=
  fun self => (Return tt, f self, []).

Definition read {A} (field : coordinator -> A) : task A :=
  fun self => (Return (field self), self, []).

Definition emit (e : event) : task unit :=
  fun self => (Return tt, self, [e]).

Definition lift {A} (c : py A) : task A := fun self => (c, self, []).

Declare Scope task_scope.
Delimit Scope task_scope with task.
Notation "x <- c ;; k" := (bind c (fun x => k))
  (at level 61, c at next level, right associativity) : task_scope.
Notation "c ;; k" := (bind c (fun _ => k))
  (at level 61, right associativity) : task_scope.

Definition is_timeout (e : exn) : bool :=
  match e with TimeoutError => true | _ => false end.

Definition is_bleak_error (e : exn) : bool :=
  match e with BleakError => true | _ => false end.

(** Truth value of an optional dict that, when present, has the
    three keys of a parser result. *)
Definition dict_truthy {A} (o : option A) : bool :=
  match o with
  | Some _ => true
  | None => false
  end.

Definition _notification_handler (data : bytes) (self : coordinator)
  : coordinator :=
  let self := set_response_data (Some data) self in
  match _response_event self with
  | Some _ => set_response_event (Some true) self
  | None => self
  end.

(** The callback run on each of a series of notifications. *)
Definition notify_all (arrivals : list bytes) (self : coordinator)
  : coordinator :=
  fold_left (fun s d => _notification_handler d s) arrivals self.

(** The callbacks the loop runs while one call is pending. *)
Definition deliver (arrivals : list bytes) : task unit :=
  update (notify_all arrivals).

(** An awaited call on the BLE client. *)
Record pending : Set := {
  arrivals : list bytes;     (* notifications delivered meanwhile *)
  fails : bool               (* the call raises [BleakError], the one
                                failure of the client the coordinator
                                provides for *)
}.

Definition finish (p : pending) : task unit :=
  (deliver (arrivals p) ;;
   if fails p then raise BleakError else ret tt)%task.

(** [await client.write_gatt_char(CHAR_WRITE_UUID, data)] *)
Definition write_gatt_char (data : bytes) (p : pending) : task unit :=
  (emit (Write data) ;; finish p)%task.

(** [await asyncio.wait_for(self._response_event.wait(),
    timeout=BLE_RESPONSE_TIMEOUT)].  A flag already set returns at
    once; otherwise the task sleeps until a notification sets the flag,
    and with none before the deadline the wait times out. *)
Definition wait_for_response (during : list bytes) : task unit :=
  fun self =>
    match _response_event self with
    | None => raise AttributeError self
    | Some true => ret tt self
    | Some false =>
        match during with
        | [] => raise TimeoutError self
        | _ => deliver during self
        end
    end.

(** The transport's side of one device-info exchange. *)
Record exchange : Set := {
  on_write : pending;
  on_wait : list bytes
}.

Definition _fetch_device_info (x : exchange) : task unit :=
  (cached <- read _device_info ;;
   if dict_truthy cached then ret tt
   else
     update (set_response_data None) ;;
     update (set_response_event (Some false)) ;;
     write_gatt_char CMD_DEVICE_INFO (on_write x) ;;
     try_except (wait_for_response (on_wait x)) is_timeout
       (fun _ => raise (UpdateFailed DeviceInfoTimeout)) ;;
     response <- read _response_data ;;
     match response with
     | None | Some [] => raise (UpdateFailed NoDeviceInfoResponse)
     | Some data =>
         emit (ParseDeviceInfo data) ;;
         info <- lift (parse_device_info_response data) ;;
         if negb (dict_truthy info)
         then raise (UpdateFailed InvalidDeviceInfo)
         else update (set_device_info info)
     end)%task.

(** The transport's side of one poll cycle. *)
Record cycle : Set := {
  device_found : bool;        (* [async_ble_device_from_address] *)
  connect_fails : bool;       (* entering [BleakClient] raises *)
  on_start_notify : pending;
  info_exchange : exchange;
  status_exchange : exchange;
  on_disconnect : pending     (* leaving [BleakClient] *)
}.

(** [async with BleakClient(ble_device) as client: body] *)
Definition with_client {A} (connect_fails : bool) (leave : pending)
  (body : task A) : task A :=
  if connect_fails then raise BleakError
  else fun self =>
    let '(r, self1, t1) := body self in
    match finish leave self1 with
    | (Return _, self2, t2) => (r, self2, t1 ++ t2)
    | (Raise e, self2, t2) => (Raise e, self2, t1 ++ t2)
    end.

(** The body of the [async with] block of [_async_update_data]. *)
Definition poll (c : cycle) : task status :=
  (finish (on_start_notify c) ;;
   _fetch_device_info (info_exchange c) ;;
   update (set_response_data None) ;;
   update (set_response_event (Some false)) ;;
   write_gatt_char CMD_STATUS_POLL (on_write (status_exchange c)) ;;
   try_except (wait_for_response (on_wait (status_exchange c))) is_timeout
     (fun _ => raise (UpdateFailed StatusPollTimeout)) ;;
   response <- read _response_data ;;
   match response with
   | None | Some [] => raise (UpdateFailed NoStatusResponse)
   | Some data =>
       emit (ParseStatus data) ;;
       reading <- lift (parse_status_response data) ;;
       match reading with
       | None => raise (UpdateFailed InvalidStatus)
       | Some st => ret st
       end
   end)%task.

Definition _async_update_data (c : cycle) : task status :=
  if negb (device_found c) then raise (UpdateFailed DeviceNotFound)
  else
    try_finally
      (try_except
         (with_client (connect_fails c) (on_disconnect c) (poll c))
         is_bleak_error
         (fun _ => raise (UpdateFailed BleError)))
      (update (set_response_event None)).

(** The byte strings written by a run, in order. *)
Fixpoint writes (t : list event) : list bytes :=
  match t with
  | [] => []
  | Write d :: rest => d :: writes rest
  | _ :: rest => writes rest
  end.

(** ** Reading a run *)

Definition outcome {A} (run : py A * coordinator * list event) : py A :=
  fst (fst run).

Definition final {A} (run : py A * coordinator * list event) : coordinator :=
  snd (fst run).

Definition trace {A} (run : py A * coordinator * list event) : list event :=
  snd run.

(** The coordinator once a request is armed: no response recorded,
    a fresh event. *)
Definition armed (self : coordinator) : coordinator :=
  set_response_event (Some false) (set_response_data None self).

(** The notifications the callback sees during one exchange: those
    that arrive during the write, and otherwise those that end the wait. *)
Definition delivered (x : exchange) : list bytes :=
  match arrivals (on_write x) with
  | [] => on_wait x
  | early => early
  end.

(** The coordinator when [_fetch_device_info] is called in a cycle. *)
Definition connected (c : cycle) (self : coordinator) : coordinator :=
  notify_all (arrivals (on_start_notify c)) self.

(** What [_async_update_data] makes of the body of its [async with]
    block: [BleakError] becomes [UpdateFailed], also when it is raised
    on leaving the block, and the event is dropped at the end. *)
Definition cycle_outcome (c : cycle) (body : py status) : py status :=
  if fails (on_disconnect c) then Raise (UpdateFailed BleError)
  else match body with
       | Raise BleakError => Raise (UpdateFailed BleError)
       | other => other
       end.

(** ** Sample traffic

    The responses used by the repository's tests, and transports built
    from them. *)

(** A status response: 12.62 V, battery OK, charging. *)
Definition STATUS_RESPONSE : bytes :=
  [x24; x24; x0e; x00; x4b; x0b; xee; x04; x02; x01;
   x08; xb4; x0d; x0a].

(** The device-info response of a BK300. *)
Definition DEVICE_INFO_RESPONSE : bytes :=
  [x24; x24; x36; x00; x43; x01; x42; x4b; x33; x30;
   x30; x00; x00; x00; x00; x00; x31; x2e; x31; x00;
   x00; x00; x00; x00; x00; x00; x31; x2e; x30; x2e;
   x33; x00; x00; x00; x00; x00; x39; x2e; x39; x2e;
   x39; x00; x00; x00; x00; x00; x00; x04; x00; x04;
   x33; xe6; x0d; x0a].

(** The two responses with the length field zeroed and the CRC
    recomputed. *)
Definition STATUS_RESPONSE_LEN0 : bytes :=
  [x24; x24; x00; x00; x4b; x0b; xee; x04; x02; x01;
   x05; x84; x0d; x0a].

Definition DEVICE_INFO_RESPONSE_LEN0 : bytes :=
  [x24; x24; x00; x00; x43; x01; x42; x4b; x33; x30;
   x30; x00; x00; x00; x00; x00; x31; x2e; x31; x00;
   x00; x00; x00; x00; x00; x00; x31; x2e; x30; x2e;
   x33; x00; x00; x00; x00; x00; x39; x2e; x39; x2e;
   x39; x00; x00; x00; x00; x00; x00; x04; x00; x04;
   x03; x51; x0d; x0a].

(** A device-info response with bytes above 0x7F in the model field
    and a hardware-version field of null bytes. *)
Definition DEVICE_INFO_RESPONSE_LATIN1 : bytes :=
  [x24; x24; x36; x00; x43; x01; x42; x4b; xe9; x33;
   x30; xff; x00; x00; x00; x00; x00; x00; x00; x00;
   x00; x00; x00; x00; x00; x00; x31; x2e; x30; x2e;
   x33; x00; x00; x00; x00; x00; x39; x2e; x39; x2e;
   x39; x00; x00; x00; x00; x00; x00; x04; x00; x04;
   x35; x4e; x0d; x0a].

(** A call that completes with no notification meanwhile. *)
Definition quiet : pending := {| arrivals := []; fails := false |}.

(** An exchange whose write completes and whose wait sees [replies]. *)
Definition answered (replies : list bytes) : exchange :=
  {| on_write := quiet; on_wait := replies |}.

(** A cycle on a reachable device that answers with [info] and [st]. *)
Definition cycle_with (info st : list bytes) : cycle :=
  {| device_found := true;
     connect_fails := false;
     on_start_notify := quiet;
     info_exchange := answered info;
     status_exchange := answered st;
     on_disconnect := quiet |}.

(** ** Exhaustive checks over the integers of a given width

    [all_bits k p acc] tests [p] on every integer whose bits above the
    lowest [k] are those of [acc]. *)

Fixpoint all_bits (k : nat) (p : Z -> bool) (acc : Z) : bool :=
  match k with
  | O => p acc
  | S k' => all_bits k' p (2 * acc) && all_bits k' p (2 * acc + 1)
  end.

(** What a text field of the device-info packet denotes: the field is
    [kept] followed by null bytes only, [kept] does not end with a null
    byte, and the text consists of the ASCII bytes of [kept], in order. *)
Definition field_text (field : bytes) (text : String.string) : Prop :=
  exists kept n,
    field = kept ++ repeat x00 n /\
    (forall front, kept <> front ++ [x00]) /\
    String.list_byte_of_string text
    = filter (fun x => byte_to_Z x <? 128) kept.

(** ** Undoing a CRC shift

    The bit shifted out by [crc_shift] shows in bit 15 of the result,
    which only the XOR with [0x8408] can set. *)
Definition crc_unshift (s : Z) : Z :=
  if Z.testbit s 15
  then Z.lor (Z.shiftl (Z.lxor s 0x8408) 1) 1
  else Z.shiftl s 1.

(** ** const.py: battery presets *)

(** One value of [BATTERY_PRESETS]: the keys ["min"], ["max"] and
    ["name"]. *)
Record preset : Set := {
  preset_min : option float;
  preset_max : option float;
  preset_name : String.string
}.

(** A [dict[str, str]], in insertion order, and [d.get(key)]. *)
Definition str_dict : Set := list (String.string * String.string).

Definition dict_get (key : String.string) (d : str_dict)
  : option String.string :=
  match find (fun entry => String.eqb (fst entry) key) d with
  | Some entry => Some (snd entry)
  | None => None
  end.

Section Constants.
Import String.
Local Open Scope string_scope.
Local Set Warnings "-inexact-float".

Definition BATTERY_PRESETS : list (string * preset) :=
  [("12v_lead_acid",
    {| preset_min := Some 10.5%float; preset_max := Some 12.8%float;
       preset_name := "12V Lead Acid" |});
   ("12v_agm",
    {| preset_min := Some 10.5%float; preset_max := Some 12.9%float;
       preset_name := "12V AGM" |});
   ("12v_lifepo4",
    {| preset_min := Some 10.0%float; preset_max := Some 14.6%float;
       preset_name := "12V LiFePO4 (4S)" |});
   ("12v_lithium",
    {| preset_min := Some 9.0%float; preset_max := Some 12.6%float;
       preset_name := "12V Li-Ion (3S)" |});
   ("24v_lead_acid",
    {| preset_min := Some 21.0%float; preset_max := Some 25.6%float;
       preset_name := "24V Lead Acid" |});
   ("24v_lifepo4",
    {| preset_min := Some 20.0%float; preset_max := Some 29.2%float;
       preset_name := "24V LiFePO4 (8S)" |});
   ("6v_lead_acid",
    {| preset_min := Some 5.25%float; preset_max := Some 6.4%float;
       preset_name := "6V Lead Acid" |});
   ("custom",
    {| preset_min := None; preset_max := None; preset_name := "Custom" |})].

Definition MAX_VOLTAGE_LIMIT : float := 60.0%float.
Definition MIN_VOLTAGE_LIMIT : float := 1.0%float.

(** The keys of the dict a parsed device identity is. *)
Definition KEY_MODEL : string := "model".
Definition KEY_HW_VERSION : string := "hw_version".
Definition KEY_FW_VERSION : string := "fw_version".

End Constants.

(** The dict returned by [parse_device_info_response], as a dict. *)
Definition as_dict (info : device_info) : str_dict :=
  [(KEY_MODEL, model info);
   (KEY_HW_VERSION, hw_version info);
   (KEY_FW_VERSION, fw_version info)].

(** ** coordinator.py: the [device_info] property *)

Module KonnweiCoordinator.

(** [return self._device_info or {}] *)
Definition device_info (self : coordinator) : str_dict :=
  match _device_info self with
  | Some info => as_dict info
  | None => []
  end.

End KonnweiCoordinator.

(** ** Float arithmetic as Python performs it

    Division by zero raises, and so does the conversion of a NaN or of
    an infinity to [int]. *)

Inductive arith_error : Set :=
  | ZeroDivisionError
  | ValueError
  | OverflowError.

Inductive computed (A : Type) : Type :=
  | Value (a : A)
  | Fault (e : arith_error).
Arguments Value {A} a.
Arguments Fault {A} e.

(** [a / b] on floats *)
Definition float_truediv (a b : float) : computed float :=
  if PrimFloat.eqb b 0 then Fault ZeroDivisionError
  else Value (PrimFloat.div a b).

(** [int(x)] on a float: truncation towards zero. *)
Definition int_of_float (x : float) : computed Z :=
  match Prim2SF x with
  | S754_zero _ => Value 0
  | S754_infinity _ => Fault OverflowError
  | S754_nan => Fault ValueError
  | S754_finite negative m e =>
      let magnitude := Z.shiftl (Zpos m) e in
      Value (if negative then - magnitude else magnitude)
  end.

(** ** sensor.py

    [coordinator.data] is [None] or the dict of the last reading;
    [entry.options.get] gives [None] for an option that is not set. *)

Module VoltageSensor.

Definition native_value (data : option status) : option float :=
  match data with
  | None => None
  | Some reading => Some (voltage reading)
  end.

End VoltageSensor.

Module BatterySoCSensor.

Definition native_value (data : option status)
  (voltage_min voltage_max : option float) : computed (option Z) :=
  match data with
  | None => Value None
  | Some reading =>
      let voltage := voltage reading in
      match voltage_min, voltage_max with
      | Some voltage_min, Some voltage_max =>
          if PrimFloat.leb voltage_max voltage_min then Value None
          else
            match float_truediv (PrimFloat.sub voltage voltage_min)
                    (PrimFloat.sub voltage_max voltage_min) with
            | Fault e => Fault e
            | Value ratio =>
                let soc := PrimFloat.mul ratio 100 in
                match int_of_float soc with
                | Fault e => Fault e
                | Value whole => Value (Some (Z.max 0 (Z.min 100 whole)))
                end
            end
      | _, _ => Value None
      end
  end.

End BatterySoCSensor.

Module ModelSensor.

Definition native_value (self : coordinator) : option String.string :=
  dict_get KEY_MODEL (KonnweiCoordinator.device_info self).

End ModelSensor.

Module FirmwareSensor.

Definition native_value (self : coordinator) : option String.string :=
  dict_get KEY_FW_VERSION (KonnweiCoordinator.device_info self).

End FirmwareSensor.

(** ** binary_sensor.py *)

Module BatteryStatusSensor.

Definition is_on (data : option status) : option bool :=
  match data with
  | None => None
  | Some reading => Some (negb (battery_ok reading))
  end.

End BatteryStatusSensor.

Module ChargingSensor.

Definition is_on (data : option status) : option bool :=
  match data with
  | None => None
  | Some reading => Some (negb (charging reading))
  end.

End ChargingSensor.

(** ** config_flow.py

    The two steps that take the battery settings.  A form is its step
    and its errors; the schema it shows is left out. *)

(** The [user_input] dict: a key that is absent is [None]. *)
Record user_input : Set := {
  ui_battery_type : option String.string;
  ui_voltage_min : option float;
  ui_voltage_max : option float;
  ui_poll_interval : option Z
}.

(** The options of a created entry. *)
Record entry_options : Set := {
  opt_battery_type : String.string;
  opt_voltage_min : option float;
  opt_voltage_max : option float;
  opt_poll_interval : Z
}.

(** The values of [errors["base"]]. *)
Inductive flow_error : Set :=
  | custom_voltage_required
  | invalid_voltage_range
  | voltage_out_of_range.

Inductive flow_result : Set :=
  | CreateEntry (title : String.string)
      (data : list (String.string * String.string))
      (options : entry_options)
  | ShowForm (step_id : String.string) (errors : option flow_error).

(** A subscript on a dict either finds the key or raises [KeyError]. *)
Inductive looked_up (A : Type) : Type :=
  | Found (a : A)
  | KeyError.
Arguments Found {A} a.
Arguments KeyError {A}.

(** [BATTERY_PRESETS[battery_type]] *)
Definition preset_of (battery_type : String.string) : looked_up preset :=
  match find (fun entry => String.eqb (fst entry) battery_type)
          BATTERY_PRESETS with
  | Some entry => Found (snd entry)
  | None => KeyError
  end.

Section Flows.
Import String.
Local Open Scope string_scope.

Definition DEFAULT_POLL_INTERVAL : Z := 600.

(** The block both steps run on a submitted form: the error, if any,
    and the range to store. *)
Definition check_range (input : user_input)
  : looked_up (string * option flow_error * option float * option float) :=
  match ui_battery_type input with
  | None => KeyError
  | Some battery_type =>
      if String.eqb battery_type "custom" then
        let voltage_min := ui_voltage_min input in
        let voltage_max := ui_voltage_max input in
        match voltage_min, voltage_max with
        | Some lo, Some hi =>
            if PrimFloat.leb hi lo
            then Found (battery_type, Some invalid_voltage_range,
                        voltage_min, voltage_max)
            else if PrimFloat.ltb MAX_VOLTAGE_LIMIT hi
                    || PrimFloat.ltb lo MIN_VOLTAGE_LIMIT
            then Found (battery_type, Some voltage_out_of_range,
                        voltage_min, voltage_max)
            else Found (battery_type, None, voltage_min, voltage_max)
        | _, _ => Found (battery_type, Some custom_voltage_required,
                         voltage_min, voltage_max)
        end
      else
        match preset_of battery_type with
        | KeyError => KeyError
        | Found p => Found (battery_type, None, preset_min p, preset_max p)
        end
  end.

End Flows.

Module KonnweiConfigFlow.
Import String.
Local Open Scope string_scope.

(** [async_step_confirm], given [self.unique_id] and the name of the
    discovered device, if the flow started from a discovery. *)
Definition async_step_confirm (unique_id : string)
  (discovery_name : option string) (input : option user_input)
  : looked_up flow_result :=
  let name := match discovery_name with
              | Some n => n
              | None => "Battery Monitor " ++ unique_id
              end in
  match input with
  | None => Found (ShowForm "confirm" None)
  | Some ui =>
      match check_range ui with
      | KeyError => KeyError
      | Found (_, Some e, _, _) => Found (ShowForm "confirm" (Some e))
      | Found (battery_type, None, voltage_min, voltage_max) =>
          let poll_interval :=
            match ui_poll_interval ui with
            | Some p => p
            | None => DEFAULT_POLL_INTERVAL
            end in
          Found (CreateEntry name
                   [("address", unique_id); ("name", name)]
                   {| opt_battery_type := battery_type;
                      opt_voltage_min := voltage_min;
                      opt_voltage_max := voltage_max;
                      opt_poll_interval := poll_interval |})
      end
  end.

End KonnweiConfigFlow.

Module KonnweiOptionsFlow.
Import String.
Local Open Scope string_scope.

(** [async_step_init]; the entry it creates holds the new options. *)
Definition async_step_init (input : option user_input)
  : looked_up flow_result :=
  match input with
  | None => Found (ShowForm "init" None)
  | Some ui =>
      match check_range ui with
      | KeyError => KeyError
      | Found (_, Some e, _, _) => Found (ShowForm "init" (Some e))
      | Found (battery_type, None, voltage_min, voltage_max) =>
          match ui_poll_interval ui with
          | None => KeyError
          | Some poll_interval =>
              Found (CreateEntry "" []
                       {| opt_battery_type := battery_type;
                          opt_voltage_min := voltage_min;
                          opt_voltage_max := voltage_max;
                          opt_poll_interval := poll_interval |})
          end
      end
  end.

End KonnweiOptionsFlow.

(** ** Checking the state of charge over every raw voltage *)

(** The state of charge for a raw voltage under a range, [-1] standing
    for anything but a number. *)
Definition soc_of_raw (lo hi : float) (raw : Z) : Z :=
  match BatterySoCSensor.native_value
          (Some {| voltage := div_100 raw;
                   battery_ok := true; charging := false |})
          (Some lo) (Some hi) with
  | Value (Some n) => n
  | _ => -1
  end.

(** What is checked at one raw voltage, of the state of charge [n]
    there: a number from 0 to 100, 0 up to the lower end and 100 from
    the upper end of the range. *)
Definition soc_ok (lo hi : float) (raw n : Z) : bool :=
  (0 <=? n) && (n <=? 100)
  && (if PrimFloat.leb (div_100 raw) lo then n =? 0 else true)
  && (if PrimFloat.leb hi (div_100 raw) then n =? 100 else true).

Definition soc_check (lo hi : float) (raw : Z) : bool :=
  soc_ok lo hi raw (soc_of_raw lo hi raw).

(** [rising_bits k f ok acc] goes once through the integers whose bits
    above the lowest [k] are those of [acc]: it gives the first and the
    last value of [f] there when [ok] holds of every integer and its
    value and the values never decrease. *)
Fixpoint rising_bits (k : nat) (f : Z -> Z) (ok : Z -> Z -> bool) (acc : Z)
  : option (Z * Z) :=
  match k with
  | O => let n := f acc in if ok acc n then Some (n, n) else None
  | S k' =>
      match rising_bits k' f ok (2 * acc),
            rising_bits k' f ok (2 * acc + 1) with
      | Some (a, b), Some (c, d) => if b <=? c then Some (a, d) else None
      | _, _ => None
      end
  end.

Definition rising_u16 (f : Z -> Z) (ok : Z -> Z -> bool) : bool :=
  match rising_bits 16 f ok 0 with
  | Some _ => true
  | None => false
  end.

(** The ranges of the presets that have one. *)
Definition preset_ranges : list (float * float) :=
  flat_map (fun entry =>
              match preset_min (snd entry), preset_max (snd entry) with
              | Some lo, Some hi => [(lo, hi)]
              | _, _ => []
              end) BATTERY_PRESETS.

(** The reading of the sample status response. *)
Definition reading_known : status :=
  {| voltage := div_100 1262; battery_ok := true; charging := true |}.

(** The name of the preset that asks for a range. *)
Definition CUSTOM : String.string :=
  String.String "c" (String.String "u" (String.String "s"
    (String.String "t" (String.String "o" (String.String "m"
       String.EmptyString))))).

(** What both flows and the sensor ask of a range. *)
Definition usable_range (lo hi : float) : Prop :=
  PrimFloat.leb hi lo = false /\
  PrimFloat.ltb MAX_VOLTAGE_LIMIT hi = false /\
  PrimFloat.ltb lo MIN_VOLTAGE_LIMIT = false.

(** ** More sample data *)

(** A status response: 12.00 V, battery low, not charging. *)
Definition STATUS_RESPONSE_LOW : bytes :=
  [x24; x24; x0e; x00; x4b; x0b; xb0; x04; x00; x00; x65; xed; x0d; x0a].

Definition reading_low : status :=
  {| voltage := div_100 1200; battery_ok := false; charging := false |}.

Section SampleForms.
Import String.
Local Open Scope string_scope.
Local Set Warnings "-inexact-float".

(** The first preset of the table and its range. *)
Definition LEAD_ACID : string := "12v_lead_acid".
Definition LEAD_ACID_MIN : float := 10.5%float.
Definition LEAD_ACID_MAX : float := 12.8%float.
Definition LEAD_ACID_PRESET : preset :=
  {| preset_min := Some LEAD_ACID_MIN; preset_max := Some LEAD_ACID_MAX;
     preset_name := "12V Lead Acid" |}.

(** A form that picks that preset and still carries voltages. *)
Definition FORM_LEAD_ACID : user_input :=
  {| ui_battery_type := Some LEAD_ACID;
     ui_voltage_min := Some 1.0%float;
     ui_voltage_max := Some 2.0%float;
     ui_poll_interval := Some 600 |}.

(** A form with a custom range from 10 V to 14 V. *)
Definition FORM_CUSTOM : user_input :=
  {| ui_battery_type := Some CUSTOM;
     ui_voltage_min := Some 10.0%float;
     ui_voltage_max := Some 14.0%float;
     ui_poll_interval := Some 60 |}.

End SampleForms.

(** * Properties of the codec *)

Lemma all_bits_spec k p : forall acc,
  all_bits k p acc = true ->
  forall z, acc * 2 ^ Z.of_nat k <= z < (acc + 1) * 2 ^ Z.of_nat k ->
  p z = true.
Proof.
  induction k as [|k IH]; intros acc H z Hz.
  - cbn in H. replace z with acc by (cbn in Hz; lia). exact H.
  - cbn [all_bits] in H. apply andb_true_iff in H. destruct H as [H0 H1].
    rewrite Nat2Z.inj_succ, Z.pow_succ_r in Hz by lia.
    assert (Hp : 0 < 2 ^ Z.of_nat k) by (apply Z.pow_pos_nonneg; lia).
    destruct (Z_lt_le_dec z ((2 * acc + 1) * 2 ^ Z.of_nat k)).
    + apply (IH _ H0). nia.
    + apply (IH _ H1). nia.
Qed.

Lemma all_u16 p :
  all_bits 16 p 0 = true -> forall z, 0 <= z < 65536 -> p z = true.
Proof.
  intros H z Hz. apply (all_bits_spec 16 p 0 H).
  change (2 ^ Z.of_nat 16) with 65536. lia.
Qed.

Lemma byte_to_Z_range b : 0 <= byte_to_Z b < 256.
Proof.
  unfold byte_to_Z. pose proof (Byte.to_N_bounded b). lia.
Qed.

Lemma byte_to_of_Z z : byte_to_Z (byte_of_Z z) = z mod 256.
Proof.
  unfold byte_to_Z, byte_of_Z.
  assert (Hr : 0 <= z mod 256 < 256) by (apply Z.mod_pos_bound; lia).
  destruct (Byte.of_N (Z.to_N (z mod 256))) as [b|] eqn:E.
  - apply Byte.to_of_N in E. rewrite E. lia.
  - apply Byte.of_N_None_iff in E. lia.
Qed.

Lemma byte_of_to_Z b : byte_of_Z (byte_to_Z b) = b.
Proof.
  unfold byte_of_Z. pose proof (byte_to_Z_range b) as Hr.
  rewrite Z.mod_small by lia. unfold byte_to_Z.
  rewrite N2Z.id, Byte.of_to_N. reflexivity.
Qed.

Lemma bytes_eqb_eq a b : bytes_eqb a b = true <-> a = b.
Proof.
  unfold bytes_eqb. destruct (list_eq_dec Byte.byte_eq_dec a b); split;
    congruence.
Qed.

Lemma len_app a b : len (a ++ b) = len a + len b.
Proof. unfold len. rewrite length_app. lia. Qed.

Lemma len_nonneg a : 0 <= len a.
Proof. unfold len. lia. Qed.

(** *** Slices *)

Lemma slice_last2 body x y :
  slice (Some (-2)) None (body ++ [x; y]) = [x; y].
Proof.
  unfold slice, slice_bound. rewrite len_app. change (len [x; y]) with 2.
  pose proof (len_nonneg body).
  change (-2 <? 0) with true. cbv iota.
  rewrite Z.max_r by lia.
  replace (Z.to_nat (-2 + (len body + 2))) with (length body + 0)%nat
    by (unfold len; lia).
  rewrite skipn_app, Nat.add_0_r, skipn_all.
  replace (length body - length body)%nat with 0%nat by lia.
  cbn [skipn app].
  replace (Z.to_nat _) with 2%nat by (unfold len; lia).
  reflexivity.
Qed.

Lemma slice_but_last2 body x y :
  slice None (Some (-2)) (body ++ [x; y]) = body.
Proof.
  unfold slice, slice_bound. rewrite len_app. change (len [x; y]) with 2.
  pose proof (len_nonneg body).
  change (-2 <? 0) with true. cbv iota.
  rewrite Z.max_r by lia. cbn [Z.to_nat skipn].
  replace (Z.to_nat _) with (length body) by (unfold len; lia).
  rewrite firstn_app, firstn_all, Nat.sub_diag. cbn [firstn].
  apply app_nil_r.
Qed.

(** A sequence of at least two elements splits off its last two. *)
Lemma split_last2 (data : bytes) :
  2 <= len data ->
  data = slice None (Some (-2)) data ++ slice (Some (-2)) None data.
Proof.
  intros H. unfold slice, slice_bound.
  change (-2 <? 0) with true. cbv iota.
  rewrite Z.max_r by lia. cbn [Z.to_nat skipn].
  replace (Z.to_nat (len data - (-2 + len data))) with 2%nat by lia.
  replace (Z.to_nat (-2 + len data - 0)) with (Z.to_nat (-2 + len data)) by lia.
  rewrite (firstn_all2 (n := 2)).
  - symmetry. apply firstn_skipn.
  - rewrite length_skipn. unfold len in *. lia.
Qed.

(** *** The CRC register stays a 16-bit value *)

Lemma lxor_u16 a b :
  0 <= a < 65536 -> 0 <= b < 65536 -> 0 <= Z.lxor a b < 65536.
Proof.
  intros Ha Hb.
  assert (Hn : 0 <= Z.lxor a b) by (apply Z.lxor_nonneg; lia).
  split; [exact Hn|].
  destruct (Z.eq_dec (Z.lxor a b) 0) as [E|E]; [lia|].
  change 65536 with (2 ^ 16).
  apply Z.log2_lt_pow2; [lia|].
  pose proof (Z.log2_lxor a b ltac:(lia) ltac:(lia)) as Hl.
  assert (La : Z.log2 a < 16).
  { destruct (Z.eq_dec a 0) as [->|]; [cbn; lia|].
    apply Z.log2_lt_pow2; [lia|]. change (2 ^ 16) with 65536. lia. }
  assert (Lb : Z.log2 b < 16).
  { destruct (Z.eq_dec b 0) as [->|]; [cbn; lia|].
    apply Z.log2_lt_pow2; [lia|]. change (2 ^ 16) with 65536. lia. }
  lia.
Qed.

Lemma crc_shift_u16 r : 0 <= r < 65536 -> 0 <= crc_shift r < 65536.
Proof.
  intros Hr.
  assert (H : all_bits 16
                (fun r => (0 <=? crc_shift r) && (crc_shift r <? 65536)) 0 = true)
    by (vm_compute; reflexivity).
  pose proof (all_u16 _ H r Hr) as Hp. cbv beta in Hp.
  apply andb_true_iff in Hp. lia.
Qed.

Lemma iter_crc_shift_u16 n r :
  0 <= r < 65536 -> 0 <= Nat.iter n crc_shift r < 65536.
Proof.
  intros Hr. induction n as [|n IH]; cbn [Nat.iter]; [exact Hr|].
  apply crc_shift_u16, IH.
Qed.

Lemma crc_update_u16 r b : 0 <= r < 65536 -> 0 <= crc_update r b < 65536.
Proof.
  intros Hr. unfold crc_update. apply iter_crc_shift_u16.
  apply lxor_u16; [exact Hr|]. pose proof (byte_to_Z_range b). lia.
Qed.

Lemma fold_crc_update_u16 data r :
  0 <= r < 65536 -> 0 <= fold_left crc_update data r < 65536.
Proof.
  revert r. induction data as [|b data IH]; intros r Hr; cbn [fold_left].
  - exact Hr.
  - apply IH, crc_update_u16, Hr.
Qed.

Lemma crc16_x25_u16 data : 0 <= crc16_x25 data < 65536.
Proof.
  unfold crc16_x25. apply lxor_u16; [apply fold_crc_update_u16 | ]; lia.
Qed.

(** *** The residue

    Feeding the register its own complement, low byte first, drives it
    to [0xF0B8] whatever it held: the first byte leaves the high byte of
    the register XORed with a constant, and the second cancels it.  The
    register has 65536 values, and the lemma is checked on each. *)

Lemma fold_left_cons {A B} (f : A -> B -> A) x l a :
  fold_left f (x :: l) a = fold_left f l (f a x).
Proof. reflexivity. Qed.

Lemma feed_own_crc_const r :
  0 <= r < 65536 ->
  crc_update (crc_update r (byte_of_Z (Z.lxor r 0xFFFF)))
             (byte_of_Z (Z.shiftr (Z.lxor r 0xFFFF) 8)) = 0xF0B8.
Proof.
  intros Hr.
  assert (H : all_bits 16
     (fun r => crc_update (crc_update r (byte_of_Z (Z.lxor r 0xFFFF)))
                 (byte_of_Z (Z.shiftr (Z.lxor r 0xFFFF) 8)) =? 0xF0B8) 0
     = true) by (vm_compute; reflexivity).
  pose proof (all_u16 _ H r Hr) as Hp. cbv beta in Hp.
  apply Z.eqb_eq in Hp. exact Hp.
Qed.

Lemma pack_H_u16 v :
  0 <= v < 65536 -> pack_H v = Return [byte_of_Z v; byte_of_Z (Z.shiftr v 8)].
Proof.
  intros Hv. unfold pack_H.
  replace ((0 <=? v) && (v <=? 65535)) with true; [reflexivity|].
  symmetry. apply andb_true_iff. lia.
Qed.

Lemma crc16_x25_residue msg crc_bytes :
  pack_H (crc16_x25 msg) = Return crc_bytes ->
  crc16_x25 (msg ++ crc_bytes) = 0x0F47.
Proof.
  intros Hp. rewrite pack_H_u16 in Hp by apply crc16_x25_u16.
  injection Hp as <-.
  unfold crc16_x25.
  rewrite fold_left_app, !fold_left_cons.
  rewrite feed_own_crc_const by (apply fold_crc_update_u16; lia).
  reflexivity.
Qed.

(** *** Validation *)

Lemma bytes_eqb_refl a : bytes_eqb a a = true.
Proof. apply bytes_eqb_eq. reflexivity. Qed.

Lemma validate_packet_footer body :
  validate_packet (body ++ [x0d; x0a])
  = (8 <=? len body) && (crc16_x25 body =? 0x0F47).
Proof.
  unfold validate_packet.
  rewrite slice_last2, slice_but_last2, len_app, bytes_eqb_refl.
  change (len [x0d; x0a]) with 2. cbn [negb].
  destruct (len body + 2 <? 10) eqn:E, (8 <=? len body) eqn:E'; try lia;
    reflexivity.
Qed.

(** C2: [validate_packet] accepts a byte string exactly when it is at
    least 10 bytes long, ends with the footer [0D 0A], and the CRC of
    everything before the footer is the residue [0x0F47]. *)
Theorem validate_packet_iff (data : bytes) :
  validate_packet data = true <->
  10 <= len data /\
  exists body, data = body ++ [x0d; x0a] /\ crc16_x25 body = 0x0F47.
Proof.
  split.
  - unfold validate_packet.
    destruct (len data <? 10) eqn:Hlen; [discriminate|].
    destruct (bytes_eqb (slice (Some (-2)) None data) [x0d; x0a]) eqn:Hfoot;
      [|discriminate].
    cbn [negb]. intros Hres.
    apply bytes_eqb_eq in Hfoot. apply Z.eqb_eq in Hres.
    split; [lia|].
    exists (slice None (Some (-2)) data). split; [|exact Hres].
    rewrite <- Hfoot. apply split_last2. lia.
  - intros [Hlen [body [-> Hres]]].
    rewrite validate_packet_footer.
    rewrite len_app in Hlen. change (len [x0d; x0a]) with 2 in Hlen.
    apply andb_true_iff. split; [lia|]. apply Z.eqb_eq. exact Hres.
Qed.

(** *** Building *)

Lemma build_packet_eq command data :
  10 + len data <= 65535 ->
  let payload :=
    [x40; x40] ++ [byte_of_Z (10 + len data);
                   byte_of_Z (Z.shiftr (10 + len data) 8)]
    ++ command ++ data in
  build_packet command data
  = Return (payload
            ++ [byte_of_Z (crc16_x25 payload);
                byte_of_Z (Z.shiftr (crc16_x25 payload) 8)]
            ++ [x0d; x0a]).
Proof.
  intros Hlen payload. unfold build_packet.
  pose proof (len_nonneg data).
  rewrite pack_H_u16 by lia. cbn [py_bind]. fold payload.
  rewrite pack_H_u16 by apply crc16_x25_u16. reflexivity.
Qed.

(** C1: a packet built by [build_packet] from a 2-byte command and a
    payload short enough for the length field passes [validate_packet];
    the reason is that the CRC of any message followed by its own
    little-endian CRC is [0x0F47]. *)
Theorem build_packet_validates (command data : bytes) :
  length command = 2%nat ->
  10 + len data <= 65535 ->
  (forall msg,
      crc16_x25 (msg ++ [byte_of_Z (crc16_x25 msg);
                         byte_of_Z (Z.shiftr (crc16_x25 msg) 8)]) = 0x0F47) /\
  exists packet,
    build_packet command data = Return packet /\
    validate_packet packet = true.
Proof.
  intros Hcmd Hlen.
  assert (Hres : forall msg,
             crc16_x25 (msg ++ [byte_of_Z (crc16_x25 msg);
                                byte_of_Z (Z.shiftr (crc16_x25 msg) 8)])
             = 0x0F47).
  { intros msg. apply crc16_x25_residue, pack_H_u16, crc16_x25_u16. }
  split; [exact Hres|].
  pose proof (build_packet_eq command data Hlen) as Hbuild.
  set (payload := [x40; x40] ++ _ ++ command ++ data) in Hbuild.
  cbv zeta in Hbuild.
  eexists. split; [exact Hbuild|].
  rewrite (app_assoc payload), validate_packet_footer, Hres.
  apply andb_true_iff. split; [|reflexivity].
  subst payload. rewrite !len_app.
  assert (len command = 2) by (unfold len; lia).
  pose proof (len_nonneg data). apply Z.leb_le.
  change (len [x40; x40]) with 2.
  repeat match goal with |- context [len [?a; ?b]] =>
    change (len [a; b]) with 2 end.
  lia.
Qed.

Lemma build_packet_validates_witness :
  (forall msg,
      crc16_x25 (msg ++ [byte_of_Z (crc16_x25 msg);
                         byte_of_Z (Z.shiftr (crc16_x25 msg) 8)]) = 0x0F47) /\
  exists packet,
    build_packet [x0b; x0b] [] = Return packet /\
    validate_packet packet = true.
Proof.
  apply (build_packet_validates [x0b; x0b] []).
  - reflexivity.
  - vm_compute. discriminate.
Defined.

(** *** Parsing *)

Lemma byte_to_Z_inj a b : byte_to_Z a = byte_to_Z b -> a = b.
Proof.
  intros H. rewrite <- (byte_of_to_Z a), <- (byte_of_to_Z b), H. reflexivity.
Qed.

Lemma byte_to_Z_eqb b c :
  (byte_to_Z b =? byte_to_Z c) = true <-> b = c.
Proof.
  rewrite Z.eqb_eq. split; [apply byte_to_Z_inj | intros ->; reflexivity].
Qed.

(** A slice with bounds inside the sequence. *)
Lemma slice_inside i j (data : bytes) :
  0 <= i <= j -> j <= len data ->
  slice (Some i) (Some j) data
  = firstn (Z.to_nat (j - i)) (skipn (Z.to_nat i) data).
Proof.
  intros Hij Hj. unfold slice, slice_bound.
  destruct (i <? 0) eqn:Ei; [lia|]. destruct (j <? 0) eqn:Ej; [lia|].
  rewrite !Z.min_l by lia. reflexivity.
Qed.

(** A byte string of length at least 10 shows its first ten bytes. *)
Lemma first_ten (data : bytes) :
  10 <= len data ->
  exists b0 b1 b2 b3 b4 b5 b6 b7 b8 b9 rest,
    data = [b0; b1; b2; b3; b4; b5; b6; b7; b8; b9] ++ rest.
Proof.
  unfold len. intros H.
  do 10 (destruct data as [|? data]; [cbn [length] in H; lia|]).
  repeat eexists.
Qed.

(** A 16-bit integer is a 63-bit integer as it stands. *)
Lemma of_Z_u16 z : 0 <= z < 65536 -> Uint63.to_Z (Uint63.of_Z z) = z.
Proof.
  intros Hz. rewrite Uint63.of_Z_spec. apply Z.mod_small.
  assert (E : wB = 9223372036854775808) by reflexivity.
  rewrite E. lia.
Qed.

Lemma pair_eq_iff (a b c d : byte) : [a; b] = [c; d] <-> a = c /\ b = d.
Proof. split; [intros [= -> ->] | intros [-> ->]]; auto. Qed.

(** C3: [parse_status_response] returns [None] exactly when the input
    is shorter than 14 bytes, or does not start with [24 24], or does
    not carry the command code [4B 0B] at offset 4, or fails
    [validate_packet]; otherwise it returns a reading whose voltage is
    the little-endian u16 at offset 6 divided by 100, that is, the
    binary64 quotient by 100 of the float that integer converts to,
    the integer entering the conversion unchanged; whose [battery_ok]
    holds exactly for byte 8 equal to [02], and whose [charging] holds
    exactly for byte 9 equal to [01]. *)
Theorem parse_status_response_spec (data : bytes) :
  (parse_status_response data = Return None <->
     len data < 14 \/
     slice (Some 0) (Some 2) data <> [x24; x24] \/
     slice (Some 4) (Some 6) data <> [x4b; x0b] \/
     validate_packet data = false) /\
  (parse_status_response data <> Return None ->
   exists l0 l1 v_lo v_hi st ch rest reading,
     data = [x24; x24; l0; l1; x4b; x0b; v_lo; v_hi; st; ch] ++ rest /\
     parse_status_response data = Return (Some reading) /\
     voltage reading
     = PrimFloat.div
         (PrimFloat.of_uint63
            (Uint63.of_Z (byte_to_Z v_lo + 256 * byte_to_Z v_hi)))
         100 /\
     Uint63.to_Z (Uint63.of_Z (byte_to_Z v_lo + 256 * byte_to_Z v_hi))
     = byte_to_Z v_lo + 256 * byte_to_Z v_hi /\
     (battery_ok reading = true <-> st = x02) /\
     (battery_ok reading = false <-> st <> x02) /\
     (charging reading = true <-> ch = x01)).
Proof.
  unfold parse_status_response.
  destruct (len data <? 14) eqn:Hlen.
  { split; [|congruence]. split; [intros _; left; lia | reflexivity]. }
  destruct (first_ten data ltac:(lia)) as
    (b0 & b1 & b2 & b3 & b4 & b5 & b6 & b7 & b8 & b9 & rest & Hdata).
  rewrite !slice_inside by lia.
  assert (H02 : firstn (Z.to_nat (2 - 0)) (skipn (Z.to_nat 0) data) = [b0; b1])
    by (rewrite Hdata; reflexivity).
  assert (H46 : firstn (Z.to_nat (6 - 4)) (skipn (Z.to_nat 4) data) = [b4; b5])
    by (rewrite Hdata; reflexivity).
  assert (H68 : firstn (Z.to_nat (8 - 6)) (skipn (Z.to_nat 6) data) = [b6; b7])
    by (rewrite Hdata; reflexivity).
  assert (H8 : index data 8 = Return (byte_to_Z b8))
    by (rewrite Hdata; reflexivity).
  assert (H9 : index data 9 = Return (byte_to_Z b9))
    by (rewrite Hdata; reflexivity).
  rewrite H02, H46, H68, H8, H9. clear H02 H46 H68 H8 H9.
  destruct (bytes_eqb [b0; b1] [x24; x24]) eqn:Hhdr; cbn [negb].
  2:{ split; [|congruence]. split; [intros _|reflexivity].
      right; left. intros E. apply bytes_eqb_eq in E. congruence. }
  destruct (bytes_eqb [b4; b5] [x4b; x0b]) eqn:Hcmd; cbn [negb].
  2:{ split; [|congruence]. split; [intros _|reflexivity].
      right; right; left. intros E. apply bytes_eqb_eq in E. congruence. }
  destruct (validate_packet data) eqn:Hval; cbn [negb].
  2:{ split; [|congruence]. split; [intros _|reflexivity]. auto. }
  apply bytes_eqb_eq, pair_eq_iff in Hhdr, Hcmd.
  destruct Hhdr as [-> ->], Hcmd as [-> ->].
  cbn [unpack_H py_bind]. split.
  - split; [discriminate|].
    intros [H|[H|[H|H]]]; [lia | congruence | congruence | discriminate].
  - intros _. exists b2, b3, b6, b7, b8, b9, rest. eexists.
    split; [exact Hdata|]. split; [reflexivity|]. cbn [voltage battery_ok charging].
    split; [reflexivity|].
    split; [apply of_Z_u16; pose proof (byte_to_Z_range b6);
            pose proof (byte_to_Z_range b7); lia|].
    change 2 with (byte_to_Z x02). change 1 with (byte_to_Z x01).
    split; [apply byte_to_Z_eqb|]. split; [|apply byte_to_Z_eqb].
    rewrite <- byte_to_Z_eqb. destruct (byte_to_Z b8 =? byte_to_Z x02);
      split; congruence.
Qed.

(** *** Trimming and decoding *)

Lemma in_nul x : existsb (Byte.eqb x) [x00] = true <-> x = x00.
Proof.
  cbn [existsb]. rewrite orb_false_r. split.
  - apply Byte.byte_dec_bl.
  - apply Byte.byte_dec_lb.
Qed.

Lemma rstrip_padding b : exists n, b = rstrip [x00] b ++ repeat x00 n.
Proof.
  induction b as [|x rest [n IH]]; [exists 0%nat; reflexivity|].
  cbn [rstrip]. destruct (rstrip [x00] rest) as [|k kept] eqn:E.
  - cbn [app] in IH. destruct (existsb (Byte.eqb x) [x00]) eqn:Ex.
    + apply in_nul in Ex. subst x. exists (S n). rewrite IH at 1. reflexivity.
    + exists n. rewrite IH at 1. reflexivity.
  - exists n. rewrite IH at 1. reflexivity.
Qed.

Lemma rstrip_no_trailing_nul b front : rstrip [x00] b <> front ++ [x00].
Proof.
  revert front. induction b as [|x rest IH]; intros front; cbn [rstrip].
  - destruct front; discriminate.
  - destruct (rstrip [x00] rest) as [|k kept] eqn:E.
    + destruct (existsb (Byte.eqb x) [x00]) eqn:Ex.
      * destruct front; discriminate.
      * destruct front as [|f [|g front]]; cbn [app]; try discriminate.
        intros [= ->]. rewrite (proj2 (in_nul x00) eq_refl) in Ex.
        discriminate.
    + destruct front as [|f front]; cbn [app]; [discriminate|].
      intros [= -> Hk]. exact (IH front Hk).
Qed.

Lemma rstrip_all_nul n : rstrip [x00] (repeat x00 n) = [].
Proof.
  induction n as [|n IH]; [reflexivity|].
  cbn [repeat rstrip]. rewrite IH. reflexivity.
Qed.

Lemma decode_field_text field :
  field_text field (decode_ascii_ignore (rstrip [x00] field)).
Proof.
  destruct (rstrip_padding field) as [n Hn].
  exists (rstrip [x00] field), n. split; [exact Hn|].
  split; [apply rstrip_no_trailing_nul|].
  unfold decode_ascii_ignore.
  apply String.list_byte_of_string_of_list_byte.
Qed.

Lemma decode_all_nul n :
  decode_ascii_ignore (rstrip [x00] (repeat x00 n)) = String.EmptyString.
Proof. rewrite rstrip_all_nul. reflexivity. Qed.

(** The three text fields of a byte string of length at least 36. *)
Lemma split_fields (data : bytes) :
  36 <= len data ->
  data = firstn 6 data
         ++ firstn 10 (skipn 6 data)
         ++ firstn 10 (skipn 16 data)
         ++ firstn 10 (skipn 26 data)
         ++ skipn 36 data.
Proof.
  intros _.
  change (skipn 36 data) with (skipn (10 + 26) data).
  rewrite <- (skipn_skipn 10 26), firstn_skipn.
  change (skipn 26 data) with (skipn (10 + 16) data).
  rewrite <- (skipn_skipn 10 16), firstn_skipn.
  change (skipn 16 data) with (skipn (10 + 6) data).
  rewrite <- (skipn_skipn 10 6), firstn_skipn.
  symmetry. apply firstn_skipn.
Qed.

Lemma field_length (data : bytes) (at_ : nat) :
  Z.of_nat at_ + 10 <= len data -> length (firstn 10 (skipn at_ data)) = 10%nat.
Proof.
  unfold len. intros H. rewrite length_firstn, length_skipn. lia.
Qed.

(** C4: on an input of at least 54 bytes with header [24 24], command
    [43 01] and a valid residue, [parse_device_info_response] returns
    the three 10-byte fields at offsets 6, 16 and 26, each without its
    trailing null bytes and with its non-ASCII bytes left out; a field
    of null bytes only gives the empty string; an input failing one of
    the four checks gives [None]. *)
Theorem parse_device_info_response_spec (data : bytes) :
  (parse_device_info_response data = Return None <->
     len data < 54 \/
     slice (Some 0) (Some 2) data <> [x24; x24] \/
     slice (Some 4) (Some 6) data <> [x43; x01] \/
     validate_packet data = false) /\
  (parse_device_info_response data <> Return None ->
   exists l0 l1 f_model f_hw f_fw rest info,
     data = [x24; x24; l0; l1; x43; x01] ++ f_model ++ f_hw ++ f_fw ++ rest /\
     length f_model = 10%nat /\ length f_hw = 10%nat /\
     length f_fw = 10%nat /\
     parse_device_info_response data = Return (Some info) /\
     field_text f_model (model info) /\
     field_text f_hw (hw_version info) /\
     field_text f_fw (fw_version info) /\
     (f_model = repeat x00 10 -> model info = String.EmptyString) /\
     (f_hw = repeat x00 10 -> hw_version info = String.EmptyString) /\
     (f_fw = repeat x00 10 -> fw_version info = String.EmptyString)).
Proof.
  unfold parse_device_info_response.
  destruct (len data <? 54) eqn:Hlen.
  { split; [|congruence]. split; [intros _; left; lia | reflexivity]. }
  destruct (first_ten data ltac:(lia)) as
    (b0 & b1 & b2 & b3 & b4 & b5 & b6 & b7 & b8 & b9 & rest & Hdata).
  rewrite !slice_inside by lia.
  assert (H02 : firstn (Z.to_nat (2 - 0)) (skipn (Z.to_nat 0) data) = [b0; b1])
    by (rewrite Hdata; reflexivity).
  assert (H46 : firstn (Z.to_nat (6 - 4)) (skipn (Z.to_nat 4) data) = [b4; b5])
    by (rewrite Hdata; reflexivity).
  assert (H06 : firstn 6 data = [b0; b1; b2; b3; b4; b5])
    by (rewrite Hdata; reflexivity).
  rewrite H02, H46. clear H02 H46.
  change (Z.to_nat (16 - 6)) with 10%nat. change (Z.to_nat (26 - 16)) with 10%nat.
  change (Z.to_nat (36 - 26)) with 10%nat.
  change (Z.to_nat 6) with 6%nat. change (Z.to_nat 16) with 16%nat.
  change (Z.to_nat 26) with 26%nat.
  destruct (bytes_eqb [b0; b1] [x24; x24]) eqn:Hhdr; cbn [negb].
  2:{ split; [|congruence]. split; [intros _|reflexivity].
      right; left. intros E. apply bytes_eqb_eq in E. congruence. }
  destruct (bytes_eqb [b4; b5] [x43; x01]) eqn:Hcmd; cbn [negb].
  2:{ split; [|congruence]. split; [intros _|reflexivity].
      right; right; left. intros E. apply bytes_eqb_eq in E. congruence. }
  destruct (validate_packet data) eqn:Hval; cbn [negb].
  2:{ split; [|congruence]. split; [intros _|reflexivity]. auto. }
  apply bytes_eqb_eq, pair_eq_iff in Hhdr, Hcmd.
  destruct Hhdr as [-> ->], Hcmd as [-> ->].
  split.
  - split; [discriminate|].
    intros [H|[H|[H|H]]]; [lia | congruence | congruence | discriminate].
  - intros _.
    exists b2, b3, (firstn 10 (skipn 6 data)), (firstn 10 (skipn 16 data)),
      (firstn 10 (skipn 26 data)), (skipn 36 data).
    eexists. rewrite <- H06.
    split; [apply split_fields; lia|].
    do 3 (split; [apply field_length; cbn; lia|]).
    split; [reflexivity|]. cbn [model hw_version fw_version].
    do 3 (split; [apply decode_field_text|]).
    repeat split; intros ->; apply decode_all_nul.
Qed.

(** * Properties of the coordinator *)

Arguments notify_all : simpl never.
Arguments parse_device_info_response : simpl never.
Arguments parse_status_response : simpl never.

Lemma notify_all_cons d l self :
  notify_all (d :: l) self = notify_all l (_notification_handler d self).
Proof. reflexivity. Qed.

Lemma notify_all_device_info l : forall self,
  _device_info (notify_all l self) = _device_info self.
Proof.
  induction l as [|d l IH]; intros self; [reflexivity|].
  rewrite notify_all_cons, IH. unfold _notification_handler.
  destruct self as [di rd [b|]]; reflexivity.
Qed.

(** With an event in place, a series of notifications leaves the last
    one recorded and the event set. *)
Lemma notify_all_armed l : forall self b,
  l <> [] -> _response_event self = Some b ->
  notify_all l self
  = {| _device_info := _device_info self;
       _response_data := Some (last l []);
       _response_event := Some true |}.
Proof.
  induction l as [|d l IH]; intros self b Hl He; [congruence|].
  rewrite notify_all_cons. destruct l as [|d' l].
  - destruct self as [di rd re]. cbn in He. subst re. reflexivity.
  - rewrite (IH _ true); [|discriminate|].
    + destruct self as [di rd re]. cbn in He. subst re. reflexivity.
    + destruct self as [di rd re]. cbn in He. subst re. reflexivity.
Qed.

(** Runs the combinators of a task on a coordinator whose fields are
    known, up to the parser call. *)
Ltac run_task :=
  unfold bind, read, update, write_gatt_char, finish, deliver, emit,
    try_except, wait_for_response, lift, raise, ret;
  cbn -[last]; try change (notify_all [] ?s) with s; cbn -[last].

(** Splits a run on the result of the parser called on [data]. *)
Ltac by_parse_result parser data :=
  let info := fresh "parsed" in
  let err := fresh "err" in
  destruct (parser data) as [[info|]|err]; reflexivity.

Lemma fetch_device_info_cached x self info :
  _device_info self = Some info ->
  _fetch_device_info x self = (Return tt, self, []).
Proof.
  intros H. unfold _fetch_device_info, bind, read. rewrite H. reflexivity.
Qed.

(** The device-info exchange on an empty cache, by what the transport
    does. *)
Lemma fetch_device_info_uncached x self :
  _device_info self = None ->
  _fetch_device_info x self =
  if fails (on_write x)
  then (Raise BleakError, notify_all (arrivals (on_write x)) (armed self),
        [Write CMD_DEVICE_INFO])
  else
    match delivered x with
    | [] => (Raise (UpdateFailed DeviceInfoTimeout), armed self,
             [Write CMD_DEVICE_INFO])
    | _ :: _ =>
        let self1 := notify_all (delivered x) (armed self) in
        match last (delivered x) [] with
        | [] => (Raise (UpdateFailed NoDeviceInfoResponse), self1,
                 [Write CMD_DEVICE_INFO])
        | (_ :: _) as data =>
            match parse_device_info_response data with
            | Return (Some info) =>
                (Return tt, set_device_info (Some info) self1,
                 [Write CMD_DEVICE_INFO; ParseDeviceInfo data])
            | Return None =>
                (Raise (UpdateFailed InvalidDeviceInfo), self1,
                 [Write CMD_DEVICE_INFO; ParseDeviceInfo data])
            | Raise e =>
                (Raise e, self1, [Write CMD_DEVICE_INFO; ParseDeviceInfo data])
            end
        end
    end.
Proof.
  intros Hc. destruct x as [[early wf] late]. destruct self as [di rd re].
  cbn in Hc. subst di.
  unfold delivered. cbn [on_write on_wait arrivals fails].
  destruct wf; [reflexivity|].
  change (armed _) with
    {| _device_info := None; _response_data := None;
       _response_event := Some false |}.
  assert (Hseen : forall l, l <> [] ->
            notify_all l {| _device_info := None; _response_data := None;
                            _response_event := Some false |}
            = {| _device_info := None;
                 _response_data := Some (last l []);
                 _response_event := Some true |}).
  { intros l Hl. rewrite (notify_all_armed l _ false Hl); reflexivity. }
  destruct early as [|e early]; [destruct late as [|l late]; [reflexivity|]|];
    cbv zeta; rewrite Hseen by easy;
    unfold _fetch_device_info; run_task; rewrite Hseen by easy; cbn -[last].
  - destruct (last (l :: late) []) as [|b data]; [reflexivity|].
    by_parse_result parse_device_info_response (b :: data).
  - destruct (last (e :: early) []) as [|b data]; [reflexivity|].
    by_parse_result parse_device_info_response (b :: data).
Qed.

Lemma status_phase_eq c self self1 t1 :
  fails (on_start_notify c) = false ->
  _fetch_device_info (info_exchange c) (connected c self)
  = (Return tt, self1, t1) ->
  poll c self =
  let x := status_exchange c in
  if fails (on_write x)
  then (Raise BleakError, notify_all (arrivals (on_write x)) (armed self1),
        t1 ++ [Write CMD_STATUS_POLL])
  else
    match delivered x with
    | [] => (Raise (UpdateFailed StatusPollTimeout), armed self1,
             t1 ++ [Write CMD_STATUS_POLL])
    | _ :: _ =>
        let self2 := notify_all (delivered x) (armed self1) in
        match last (delivered x) [] with
        | [] => (Raise (UpdateFailed NoStatusResponse), self2,
                 t1 ++ [Write CMD_STATUS_POLL])
        | (_ :: _) as data =>
            match parse_status_response data with
            | Return (Some st) =>
                (Return st, self2,
                 t1 ++ [Write CMD_STATUS_POLL; ParseStatus data])
            | Return None =>
                (Raise (UpdateFailed InvalidStatus), self2,
                 t1 ++ [Write CMD_STATUS_POLL; ParseStatus data])
            | Raise e =>
                (Raise e, self2,
                 t1 ++ [Write CMD_STATUS_POLL; ParseStatus data])
            end
        end
    end.
Proof.
  intros Hstart Hfetch.
  unfold poll. unfold bind at 1. unfold finish at 1. unfold bind at 1.
  unfold deliver, update. rewrite Hstart. unfold ret at 1.
  fold (connected c self). cbn [app]. unfold bind at 1. rewrite Hfetch.
  destruct (status_exchange c) as [[early wf] late].
  destruct self1 as [di rd re].
  unfold delivered. cbn [on_write on_wait arrivals fails]. cbv zeta.
  destruct wf; [reflexivity|].
  change (armed _) with
    {| _device_info := di; _response_data := None;
       _response_event := Some false |}.
  assert (Hseen : forall l, l <> [] ->
            notify_all l {| _device_info := di; _response_data := None;
                            _response_event := Some false |}
            = {| _device_info := di;
                 _response_data := Some (last l []);
                 _response_event := Some true |}).
  { intros l Hl. rewrite (notify_all_armed l _ false Hl); reflexivity. }
  destruct early as [|e early]; [destruct late as [|l late]; [reflexivity|]|];
    rewrite Hseen by easy; run_task; rewrite Hseen by easy; cbn -[last].
  - destruct (last (l :: late) []) as [|b data]; [reflexivity|].
    by_parse_result parse_status_response (b :: data).
  - destruct (last (e :: early) []) as [|b data]; [reflexivity|].
    by_parse_result parse_status_response (b :: data).
Qed.

Lemma poll_start_notify_fails c self :
  fails (on_start_notify c) = true ->
  poll c self = (Raise BleakError, connected c self, []).
Proof.
  intros H. unfold poll. unfold bind at 1. unfold finish at 1.
  unfold bind at 1. unfold deliver, update. rewrite H. reflexivity.
Qed.

Lemma poll_fetch_raises c self e self1 t1 :
  fails (on_start_notify c) = false ->
  _fetch_device_info (info_exchange c) (connected c self)
  = (Raise e, self1, t1) ->
  poll c self = (Raise e, self1, t1).
Proof.
  intros Hstart Hfetch.
  unfold poll. unfold bind at 1. unfold finish at 1. unfold bind at 1.
  unfold deliver, update. rewrite Hstart. unfold ret at 1.
  fold (connected c self). unfold bind at 1. rewrite Hfetch. reflexivity.
Qed.

Lemma cycle_of_poll c self :
  device_found c = true -> connect_fails c = false ->
  _async_update_data c self
  = (cycle_outcome c (outcome (poll c self)),
     set_response_event None
       (notify_all (arrivals (on_disconnect c)) (final (poll c self))),
     trace (poll c self)).
Proof.
  intros Hdev Hconn.
  unfold _async_update_data, try_finally, try_except, with_client,
    cycle_outcome.
  rewrite Hdev, Hconn. cbn [negb].
  destruct (poll c self) as [[r self1] t1].
  unfold outcome, final, trace. cbn [fst snd].
  unfold finish, bind, deliver, update, raise, ret.
  destruct (fails (on_disconnect c)); cbn [is_bleak_error app];
    [rewrite !app_nil_r; reflexivity|].
  destruct r as [st|[]]; cbn [is_bleak_error app]; rewrite !app_nil_r;
    reflexivity.
Qed.

Lemma cycle_without_client c self :
  device_found c = false \/ connect_fails c = true ->
  exists f,
    outcome (_async_update_data c self) = Raise (UpdateFailed f) /\
    trace (_async_update_data c self) = [] /\
    _device_info (final (_async_update_data c self)) = _device_info self.
Proof.
  unfold _async_update_data.
  destruct (device_found c); cbn [negb].
  - intros [H|H]; [discriminate|].
    unfold try_finally, try_except, with_client. rewrite H.
    exists BleError. repeat split.
  - intros _. exists DeviceNotFound. repeat split.
Qed.

Lemma parse_device_info_returns data :
  exists r, parse_device_info_response data = Return r.
Proof.
  unfold parse_device_info_response.
  repeat match goal with
         | |- context [if ?b then _ else _] => destruct b
         end; eexists; reflexivity.
Qed.

Lemma parse_status_returns data :
  exists r, parse_status_response data = Return r.
Proof.
  unfold parse_status_response.
  destruct (len data <? 14) eqn:Hlen; [eauto|].
  destruct (first_ten data ltac:(lia)) as
    (b0 & b1 & b2 & b3 & b4 & b5 & b6 & b7 & b8 & b9 & rest & Hdata).
  rewrite (slice_inside 6 8) by lia.
  assert (H68 : firstn (Z.to_nat (8 - 6)) (skipn (Z.to_nat 6) data) = [b6; b7])
    by (rewrite Hdata; reflexivity).
  assert (H8 : index data 8 = Return (byte_to_Z b8))
    by (rewrite Hdata; reflexivity).
  assert (H9 : index data 9 = Return (byte_to_Z b9))
    by (rewrite Hdata; reflexivity).
  rewrite H68, H8, H9. cbn [unpack_H py_bind].
  repeat match goal with
         | |- context [if ?b then _ else _] => destruct b
         end; eexists; reflexivity.
Qed.

Lemma commands_differ : CMD_DEVICE_INFO <> CMD_STATUS_POLL.
Proof. discriminate. Qed.

(** How [_fetch_device_info] can end, and what it has written then. *)
Lemma fetch_device_info_cases x self :
  let run := _fetch_device_info x self in
  (outcome run = Return tt /\ final run = self /\ trace run = [] /\
   dict_truthy (_device_info self) = true) \/
  (_device_info self = None /\
   _device_info (final run) = None /\
   writes (trace run) = [CMD_DEVICE_INFO] /\
   (outcome run = Raise BleakError \/
    outcome run = Raise (UpdateFailed DeviceInfoTimeout) \/
    outcome run = Raise (UpdateFailed NoDeviceInfoResponse) \/
    outcome run = Raise (UpdateFailed InvalidDeviceInfo))) \/
  (_device_info self = None /\
   outcome run = Return tt /\
   writes (trace run) = [CMD_DEVICE_INFO] /\
   exists data info,
     parse_device_info_response data = Return (Some info) /\
     In (ParseDeviceInfo data) (trace run) /\
     _device_info (final run) = Some info).
Proof.
  cbv zeta. destruct (_device_info self) as [info|] eqn:Hc.
  - left. rewrite (fetch_device_info_cached x self info Hc). auto.
  - right. rewrite (fetch_device_info_uncached x self Hc).
    destruct (fails (on_write x)).
    { left. cbn [outcome final trace fst snd writes].
      rewrite notify_all_device_info. auto 10. }
    destruct (delivered x) as [|d l] eqn:Hd.
    { left. cbn [outcome final trace fst snd writes]. auto 10. }
    cbv zeta. destruct (last (d :: l) []) as [|b data].
    { left. cbn [outcome final trace fst snd writes].
      rewrite notify_all_device_info. auto 10. }
    destruct (parse_device_info_returns (b :: data)) as [[info|] Hp];
      rewrite Hp.
    + right. cbn [outcome final trace fst snd writes].
      repeat split. exists (b :: data), info.
      split; [exact Hp|]. split; [right; left; reflexivity | reflexivity].
    + left. cbn [outcome final trace fst snd writes].
      rewrite notify_all_device_info. auto 10.
Qed.

(** C5: when the device-info exchange of a cycle fails, the cycle
    fails with [UpdateFailed] and the status-poll command is never
    written; the failure of the exchange is the failure of the cycle
    unless leaving the client raises on top of it. *)
Theorem identity_failure_aborts_cycle (c : cycle) (self : coordinator)
  (e : exn) :
  device_found c = true ->
  connect_fails c = false ->
  fails (on_start_notify c) = false ->
  outcome (_fetch_device_info (info_exchange c) (connected c self)) = Raise e ->
  let run := _async_update_data c self in
  ~ In CMD_STATUS_POLL (writes (trace run)) /\
  (exists f, outcome run = Raise (UpdateFailed f)) /\
  (forall f, e = UpdateFailed f -> fails (on_disconnect c) = false ->
             outcome run = Raise (UpdateFailed f)).
Proof.
  intros Hdev Hconn Hstart Hfetch run. subst run.
  rewrite (cycle_of_poll c self Hdev Hconn).
  destruct (_fetch_device_info (info_exchange c) (connected c self))
    as [[r self1] t1] eqn:Hrun.
  cbn [outcome fst] in Hfetch. subst r.
  rewrite (poll_fetch_raises c self e self1 t1 Hstart Hrun).
  cbn [outcome final trace fst snd].
  pose proof (fetch_device_info_cases (info_exchange c) (connected c self))
    as Hcases.
  cbv zeta in Hcases. rewrite Hrun in Hcases.
  cbn [outcome final trace fst snd] in Hcases.
  destruct Hcases as [(H & _)|[(_ & _ & Hw & Hk)|(_ & H & _)]];
    try discriminate.
  split; [|split].
  - rewrite Hw. intros [H|[]]. exact (commands_differ H).
  - unfold cycle_outcome. destruct (fails (on_disconnect c)); [eauto|].
    destruct Hk as [H|[H|[H|H]]]; injection H as ->; eauto.
  - intros f -> Hleave. unfold cycle_outcome. rewrite Hleave. reflexivity.
Qed.

Lemma writes_app t1 t2 : writes (t1 ++ t2) = writes t1 ++ writes t2.
Proof.
  induction t1 as [|[d|d|d] t1 IH]; cbn [app writes]; rewrite ?IH;
    reflexivity.
Qed.

Lemma status_phase_shape c self self1 t1 :
  fails (on_start_notify c) = false ->
  _fetch_device_info (info_exchange c) (connected c self)
  = (Return tt, self1, t1) ->
  writes (trace (poll c self)) = writes t1 ++ [CMD_STATUS_POLL] /\
  _device_info (final (poll c self)) = _device_info self1.
Proof.
  intros Hstart Hfetch.
  pose proof (writes_app t1) as Hw.
  rewrite (status_phase_eq c self self1 t1 Hstart Hfetch). cbv zeta.
  destruct (fails (on_write (status_exchange c))).
  { cbn [trace final fst snd]. rewrite Hw, notify_all_device_info.
    split; reflexivity. }
  destruct (delivered (status_exchange c)) as [|d l].
  { cbn [trace final fst snd]. rewrite Hw. split; reflexivity. }
  destruct (last (d :: l) []) as [|b data].
  { cbn [trace final fst snd]. rewrite Hw, notify_all_device_info.
    split; reflexivity. }
  destruct (parse_status_response (b :: data)) as [[st|]|err];
    cbn [trace final fst snd]; rewrite Hw, notify_all_device_info;
    split; reflexivity.
Qed.

(** A poll cycle on a coordinator that has the identity cached. *)
Lemma cached_cycle (self : coordinator) (info : device_info) (c : cycle) :
  _device_info self = Some info ->
  let run := _async_update_data c self in
  _device_info (final run) = Some info /\
  (writes (trace run) = [] \/ writes (trace run) = [CMD_STATUS_POLL]) /\
  (device_found c = true -> connect_fails c = false ->
   fails (on_start_notify c) = false ->
   writes (trace run) = [CMD_STATUS_POLL]).
Proof.
  intros Hc run. subst run.
  destruct (device_found c) eqn:Hdev.
  2:{ destruct (cycle_without_client c self (or_introl Hdev))
        as (f & _ & Ht & Hs).
      rewrite Ht, Hs. cbn [writes]. split; [exact Hc|].
      split; [auto | discriminate]. }
  destruct (connect_fails c) eqn:Hconn.
  { destruct (cycle_without_client c self (or_intror Hconn))
      as (f & _ & Ht & Hs).
    rewrite Ht, Hs. cbn [writes]. split; [exact Hc|].
    split; [auto | discriminate]. }
  rewrite (cycle_of_poll c self Hdev Hconn). cbn [final trace fst snd].
  cbn [set_response_event _device_info]. rewrite notify_all_device_info.
  destruct (fails (on_start_notify c)) eqn:Hstart.
  { rewrite (poll_start_notify_fails c self Hstart). cbn [final trace fst snd].
    unfold connected. rewrite notify_all_device_info. cbn [writes].
    split; [exact Hc|]. split; [auto | discriminate]. }
  assert (Hcached : _device_info (connected c self) = Some info)
    by (unfold connected; rewrite notify_all_device_info; exact Hc).
  pose proof (fetch_device_info_cached (info_exchange c) _ info Hcached)
    as Hfetch.
  destruct (status_phase_shape c self _ _ Hstart Hfetch) as [Hw Hs].
  rewrite Hw, Hs. cbn [writes app]. auto.
Qed.

(** C6: with the device identity cached, [_fetch_device_info] returns
    at once, writes nothing and leaves the coordinator as it was; a
    poll cycle then keeps the cache, writes nothing but the status-poll
    command, and writes it exactly once when the client is connected
    and notifications are started. *)
Theorem cached_identity_skips_exchange (self : coordinator)
  (info : device_info) :
  _device_info self = Some info ->
  (forall x, _fetch_device_info x self = (Return tt, self, [])) /\
  (forall c,
     let run := _async_update_data c self in
     _device_info (final run) = Some info /\
     (writes (trace run) = [] \/ writes (trace run) = [CMD_STATUS_POLL]) /\
     (device_found c = true -> connect_fails c = false ->
      fails (on_start_notify c) = false ->
      writes (trace run) = [CMD_STATUS_POLL])).
Proof.
  intros Hc. split.
  - intros x. exact (fetch_device_info_cached x self info Hc).
  - intros c. exact (cached_cycle self info c Hc).
Qed.

Lemma successful_poll_fills_cache c self st :
  outcome (_async_update_data c self) = Return st ->
  exists info, _device_info (final (_async_update_data c self)) = Some info.
Proof.
  intros Hret.
  destruct (device_found c) eqn:Hdev.
  2:{ destruct (cycle_without_client c self (or_introl Hdev))
        as (f & Hf & _). congruence. }
  destruct (connect_fails c) eqn:Hconn.
  { destruct (cycle_without_client c self (or_intror Hconn))
      as (f & Hf & _). congruence. }
  rewrite (cycle_of_poll c self Hdev Hconn) in *.
  cbn [outcome final fst snd] in *.
  cbn [set_response_event _device_info]. rewrite notify_all_device_info.
  unfold cycle_outcome in Hret.
  destruct (fails (on_disconnect c)); [discriminate|].
  destruct (fails (on_start_notify c)) eqn:Hstart.
  { rewrite (poll_start_notify_fails c self Hstart) in Hret. discriminate. }
  destruct (_fetch_device_info (info_exchange c) (connected c self))
    as [[r self1] t1] eqn:Hrun.
  destruct r as [[]|e].
  2:{ rewrite (poll_fetch_raises c self e self1 t1 Hstart Hrun) in Hret.
      cbn [outcome fst] in Hret. destruct e; discriminate. }
  destruct (status_phase_shape c self _ _ Hstart Hrun) as [_ Hs].
  rewrite Hs.
  pose proof (fetch_device_info_cases (info_exchange c) (connected c self))
    as Hcases.
  cbv zeta in Hcases. rewrite Hrun in Hcases.
  cbn [outcome final trace fst snd] in Hcases.
  destruct Hcases as [(_ & <- & _ & H)|[(_ & _ & _ & H)|(_ & _ & _ & H)]].
  - destruct (_device_info self1); [eauto | discriminate].
  - destruct H as [H|[H|[H|H]]]; discriminate.
  - destruct H as (data & info & _ & _ & H). eauto.
Qed.

(** After a cycle that returned a reading, the next cycle of the
    session writes no device-info command. *)
Corollary second_poll_writes_status_only c1 c2 self st :
  outcome (_async_update_data c1 self) = Return st ->
  let self1 := final (_async_update_data c1 self) in
  writes (trace (_async_update_data c2 self1)) = [] \/
  writes (trace (_async_update_data c2 self1)) = [CMD_STATUS_POLL].
Proof.
  intros Hret self1.
  destruct (successful_poll_fills_cache c1 self st Hret) as [info Hinfo].
  exact (proj1 (proj2 (cached_cycle self1 info c2 Hinfo))).
Qed.

(** C7: a device-info exchange that fails leaves the cached identity
    as it was, so with an empty cache the next call writes the
    device-info command again; and whenever a call changes the cache,
    it returned and the new value is what the parser made of a
    response. *)
Theorem failed_identity_keeps_cache (x : exchange) (self : coordinator)
  (e : exn) :
  outcome (_fetch_device_info x self) = Raise e ->
  let self1 := final (_fetch_device_info x self) in
  _device_info self1 = _device_info self /\
  _device_info self = None /\
  (forall x', exists rest,
      trace (_fetch_device_info x' self1) = Write CMD_DEVICE_INFO :: rest) /\
  (forall x0 self0,
      let run := _fetch_device_info x0 self0 in
      _device_info (final run) = _device_info self0 \/
      outcome run = Return tt /\
      exists data info,
        parse_device_info_response data = Return (Some info) /\
        In (ParseDeviceInfo data) (trace run) /\
        _device_info (final run) = Some info).
Proof.
  intros Hfail self1. subst self1.
  assert (Hkeep : _device_info (final (_fetch_device_info x self)) = None /\
                  _device_info self = None).
  { pose proof (fetch_device_info_cases x self) as Hcases. cbv zeta in Hcases.
    destruct Hcases as [(H & _)|[(Hc & Hs & _)|(_ & H & _)]];
      try congruence. auto. }
  destruct Hkeep as [Hs Hc].
  split; [congruence|]. split; [exact Hc|]. split.
  - intros x'. rewrite (fetch_device_info_uncached x' _ Hs).
    destruct (fails (on_write x')); [eexists; reflexivity|].
    destruct (delivered x') as [|d l]; [eexists; reflexivity|].
    cbv zeta. destruct (last (d :: l) []) as [|b data];
      [eexists; reflexivity|].
    destruct (parse_device_info_response (b :: data)) as [[info|]|err];
      eexists; reflexivity.
  - intros x0 self0 run. subst run.
    pose proof (fetch_device_info_cases x0 self0) as Hcases.
    cbv zeta in Hcases.
    destruct Hcases as [(_ & H & _)|[(Hc0 & Hs0 & _)|(_ & Hr & _ & H)]].
    + left. rewrite H. reflexivity.
    + left. congruence.
    + right. split; [exact Hr | exact H].
Qed.

Lemma last_snoc {A} (l : list A) (a d : A) : last (l ++ [a]) d = a.
Proof.
  induction l as [|b l IH]; [reflexivity|].
  cbn [app]. destruct (l ++ [a]) eqn:E; [destruct l; discriminate|].
  cbn [last]. exact IH.
Qed.

Lemma fetch_never_parses_status x self d :
  ~ In (ParseStatus d) (trace (_fetch_device_info x self)).
Proof.
  destruct (_device_info self) as [info|] eqn:Hc.
  - rewrite (fetch_device_info_cached x self info Hc). intros [].
  - rewrite (fetch_device_info_uncached x self Hc).
    destruct (fails (on_write x)); [intros [H|[]]; discriminate|].
    destruct (delivered x) as [|a l]; [intros [H|[]]; discriminate|].
    cbv zeta. destruct (last (a :: l) []) as [|b data];
      [intros [H|[]]; discriminate|].
    destruct (parse_device_info_response (b :: data)) as [[info|]|err];
      intros [H|[H|[]]]; discriminate.
Qed.

(** C10: when the last notification seen during an exchange is empty,
    the event is set, yet the exchange ends with the no-response
    failure and the parser is not called: for the device-info exchange
    with [NoDeviceInfoResponse], for the status exchange with
    [NoStatusResponse]. *)
Theorem empty_notification_is_no_response :
  (forall x self earlier,
     _device_info self = None ->
     fails (on_write x) = false ->
     delivered x = earlier ++ [[]] ->
     let run := _fetch_device_info x self in
     outcome run = Raise (UpdateFailed NoDeviceInfoResponse) /\
     _response_event (final run) = Some true /\
     _response_data (final run) = Some [] /\
     (forall d, ~ In (ParseDeviceInfo d) (trace run))) /\
  (forall c self earlier,
     device_found c = true ->
     connect_fails c = false ->
     fails (on_start_notify c) = false ->
     outcome (_fetch_device_info (info_exchange c) (connected c self))
     = Return tt ->
     fails (on_write (status_exchange c)) = false ->
     delivered (status_exchange c) = earlier ++ [[]] ->
     outcome (poll c self) = Raise (UpdateFailed NoStatusResponse) /\
     _response_event (final (poll c self)) = Some true /\
     _response_data (final (poll c self)) = Some [] /\
     (forall d, ~ In (ParseStatus d) (trace (poll c self))) /\
     (fails (on_disconnect c) = false ->
      outcome (_async_update_data c self)
      = Raise (UpdateFailed NoStatusResponse)) /\
     trace (_async_update_data c self) = trace (poll c self)).
Proof.
  split.
  - intros x self earlier Hc Hw Hd run. subst run.
    rewrite (fetch_device_info_uncached x self Hc), Hw, Hd.
    rewrite last_snoc.
    destruct (earlier ++ [[]]) as [|d l] eqn:E; [destruct earlier; discriminate|].
    cbv zeta. cbn [outcome final trace fst snd].
    rewrite (notify_all_armed (d :: l) (armed self) false) by easy.
    cbn [_response_event _response_data].
    rewrite <- E, last_snoc. repeat split.
    intros d0 [H|[]]. discriminate.
  - intros c self earlier Hdev Hconn Hstart Hfetch Hw Hd.
    rewrite (cycle_of_poll c self Hdev Hconn).
    destruct (_fetch_device_info (info_exchange c) (connected c self))
      as [[r self1] t1] eqn:Hrun.
    cbn [outcome fst] in Hfetch. subst r.
    rewrite (status_phase_eq c self self1 t1 Hstart Hrun). cbv zeta.
    rewrite Hw, Hd, last_snoc.
    destruct (earlier ++ [[]]) as [|d l] eqn:E; [destruct earlier; discriminate|].
    cbn [outcome final trace fst snd].
    rewrite (notify_all_armed (d :: l) (armed self1) false) by easy.
    cbn [_response_event _response_data].
    rewrite <- E, last_snoc. repeat split.
    + intros d0 Hin. apply in_app_or in Hin. destruct Hin as [Hin|[Hin|[]]];
        [|discriminate].
      apply (fetch_never_parses_status (info_exchange c) (connected c self) d0).
      rewrite Hrun. exact Hin.
    + intros Hleave. unfold cycle_outcome. rewrite Hleave. reflexivity.
Qed.

Lemma fetch_raises_or_returns x self :
  let run := _fetch_device_info x self in
  (exists e, run = (Raise e, final run, trace run) /\
             writes (trace run) = [CMD_DEVICE_INFO]) \/
  (run = (Return tt, final run, trace run) /\
   (writes (trace run) = [] \/ writes (trace run) = [CMD_DEVICE_INFO])).
Proof.
  cbv zeta. pose proof (fetch_device_info_cases x self) as Hcases.
  cbv zeta in Hcases.
  destruct (_fetch_device_info x self) as [[r self1] t1].
  cbn [outcome final trace fst snd] in *.
  destruct Hcases as [(Hr & _ & Ht & _)|[(_ & _ & Hw & Hk)|(_ & Hr & Hw & _)]].
  - right. subst r t1. auto.
  - left. destruct Hk as [Hr|[Hr|[Hr|Hr]]]; subst r; eauto.
  - right. subst r. auto.
Qed.

(** What a poll cycle writes: at most the device-info command, then
    at most the status-poll command. *)
Lemma cycle_writes c self :
  let w := writes (trace (_async_update_data c self)) in
  w = [] \/ w = [CMD_DEVICE_INFO] \/ w = [CMD_STATUS_POLL] \/
  w = [CMD_DEVICE_INFO; CMD_STATUS_POLL].
Proof.
  cbv zeta.
  destruct (device_found c) eqn:Hdev.
  2:{ destruct (cycle_without_client c self (or_introl Hdev))
        as (f & _ & -> & _). auto. }
  destruct (connect_fails c) eqn:Hconn.
  { destruct (cycle_without_client c self (or_intror Hconn))
      as (f & _ & -> & _). auto. }
  rewrite (cycle_of_poll c self Hdev Hconn). cbn [trace snd].
  destruct (fails (on_start_notify c)) eqn:Hstart.
  { rewrite (poll_start_notify_fails c self Hstart). auto. }
  destruct (fetch_raises_or_returns (info_exchange c) (connected c self))
    as [(e & Hrun & Hw)|(Hrun & Hw)].
  - rewrite (poll_fetch_raises c self e _ _ Hstart Hrun). cbn [trace snd].
    auto.
  - destruct (status_phase_shape c self _ _ Hstart Hrun) as [-> _].
    destruct Hw as [-> | ->]; cbn [app]; auto.
Qed.

(** C8: the two command constants of [const.py] are what
    [build_packet] produces for the command codes [03 01] and [0B 0B]
    with no payload, the status-poll command being the known vector
    [40 40 0A 00 0B 0B A9 B2 0D 0A]; every byte string a poll cycle
    writes is one of the two. *)
Theorem command_constants_are_built :
  build_packet [x03; x01] [] = Return CMD_DEVICE_INFO /\
  build_packet [x0b; x0b] [] = Return CMD_STATUS_POLL /\
  CMD_STATUS_POLL = [x40; x40; x0a; x00; x0b; x0b; xa9; xb2; x0d; x0a] /\
  (forall c self d,
      In d (writes (trace (_async_update_data c self))) ->
      build_packet [x03; x01] [] = Return d \/
      build_packet [x0b; x0b] [] = Return d).
Proof.
  assert (Hinfo : build_packet [x03; x01] [] = Return CMD_DEVICE_INFO)
    by (vm_compute; reflexivity).
  assert (Hstatus : build_packet [x0b; x0b] [] = Return CMD_STATUS_POLL)
    by (vm_compute; reflexivity).
  split; [exact Hinfo|]. split; [exact Hstatus|]. split; [reflexivity|].
  intros c self d Hin.
  pose proof (cycle_writes c self) as Hw. cbv zeta in Hw.
  destruct Hw as [Hw|[Hw|[Hw|Hw]]]; rewrite Hw in Hin; cbn [In] in Hin;
    repeat (destruct Hin as [<-|Hin]; auto); destruct Hin.
Qed.

Lemma command_constants_are_built_witness :
  build_packet [x03; x01] [] = Return CMD_DEVICE_INFO \/
  build_packet [x0b; x0b] [] = Return CMD_DEVICE_INFO.
Proof.
  destruct command_constants_are_built as (_ & _ & _ & H).
  apply (H (cycle_with [DEVICE_INFO_RESPONSE] [STATUS_RESPONSE]) init).
  vm_compute. left. reflexivity.
Defined.

(** *** The length field *)

Lemma parse_status_ignores_length (front l l' mid tail tail' : bytes) :
  length front = 2%nat -> length l = 2%nat -> length l' = 2%nat ->
  length mid = 6%nat -> length tail = length tail' ->
  validate_packet (front ++ l ++ mid ++ tail)
  = validate_packet (front ++ l' ++ mid ++ tail') ->
  parse_status_response (front ++ l ++ mid ++ tail)
  = parse_status_response (front ++ l' ++ mid ++ tail').
Proof.
  intros Hf Hl Hl' Hm Ht Hv.
  destruct front as [|h0 [|h1 [|]]]; try discriminate.
  destruct l as [|l0 [|l1 [|]]]; try discriminate.
  destruct l' as [|l0' [|l1' [|]]]; try discriminate.
  do 6 (destruct mid as [|? mid]; [discriminate|]).
  destruct mid; [|discriminate].
  cbn [app] in *.
  unfold parse_status_response. rewrite <- Hv.
  match goal with |- context [len ?d <? 14] => set (n := len d) end.
  match goal with |- _ = (if len ?d <? 14 then _ else _) =>
    replace (len d) with n by (unfold n, len; cbn [length]; lia) end.
  destruct (n <? 14) eqn:Hn; [reflexivity|].
  assert (Hn' : 14 <= n) by lia. clear Hn.
  rewrite !slice_inside by (try lia; unfold n, len in *; cbn [length] in *; lia).
  reflexivity.
Qed.

Lemma parse_device_info_ignores_length (front l l' mid tail tail' : bytes) :
  length front = 2%nat -> length l = 2%nat -> length l' = 2%nat ->
  length mid = 32%nat -> length tail = length tail' ->
  validate_packet (front ++ l ++ mid ++ tail)
  = validate_packet (front ++ l' ++ mid ++ tail') ->
  parse_device_info_response (front ++ l ++ mid ++ tail)
  = parse_device_info_response (front ++ l' ++ mid ++ tail').
Proof.
  intros Hf Hl Hl' Hm Ht Hv.
  destruct front as [|h0 [|h1 [|]]]; try discriminate.
  destruct l as [|l0 [|l1 [|]]]; try discriminate.
  destruct l' as [|l0' [|l1' [|]]]; try discriminate.
  do 32 (destruct mid as [|? mid]; [discriminate|]).
  destruct mid; [|discriminate].
  cbn [app] in *.
  unfold parse_device_info_response. rewrite <- Hv.
  match goal with |- context [len ?d <? 54] => set (n := len d) end.
  match goal with |- _ = (if len ?d <? 54 then _ else _) =>
    replace (len d) with n by (unfold n, len; cbn [length]; lia) end.
  destruct (n <? 54) eqn:Hn; [reflexivity|].
  assert (Hn' : 54 <= n) by lia. clear Hn.
  rewrite !slice_inside by (try lia; unfold n, len in *; cbn [length] in *; lia).
  reflexivity.
Qed.

(** C9: neither parser reads the length field at bytes 2 and 3.  Two
    inputs of the same length that agree on the header and on the bytes
    from offset 4 up to the end of the parsed fields, and that
    [validate_packet] judges alike, parse alike, whatever their length
    fields and whatever follows the parsed fields; and each parser
    accepts an input whose length field is not the documented one. *)
Theorem length_field_is_not_inspected :
  (forall front l l' mid tail tail' : bytes,
     length front = 2%nat -> length l = 2%nat -> length l' = 2%nat ->
     length tail = length tail' ->
     validate_packet (front ++ l ++ mid ++ tail)
     = validate_packet (front ++ l' ++ mid ++ tail') ->
     (length mid = 6%nat ->
      parse_status_response (front ++ l ++ mid ++ tail)
      = parse_status_response (front ++ l' ++ mid ++ tail')) /\
     (length mid = 32%nat ->
      parse_device_info_response (front ++ l ++ mid ++ tail)
      = parse_device_info_response (front ++ l' ++ mid ++ tail'))) /\
  (exists data reading,
     slice (Some 2) (Some 4) data <> [x0e; x00] /\
     parse_status_response data = Return (Some reading)) /\
  (exists data info,
     slice (Some 2) (Some 4) data <> [x36; x00] /\
     parse_device_info_response data = Return (Some info)).
Proof.
  split; [|split].
  - intros front l l' mid tail tail' Hf Hl Hl' Ht Hv. split; intros Hm.
    + apply parse_status_ignores_length; assumption.
    + apply parse_device_info_ignores_length; assumption.
  - exists STATUS_RESPONSE_LEN0. eexists. split.
    + vm_compute. discriminate.
    + vm_compute. reflexivity.
  - exists DEVICE_INFO_RESPONSE_LEN0. eexists. split.
    + vm_compute. discriminate.
    + vm_compute. reflexivity.
Qed.

Lemma length_field_is_not_inspected_witness :
  parse_status_response STATUS_RESPONSE
  = parse_status_response STATUS_RESPONSE_LEN0.
Proof.
  destruct length_field_is_not_inspected as [H _].
  refine (proj1 (H [x24; x24] [x0e; x00] [x00; x00]
                   [x4b; x0b; xee; x04; x02; x01]
                   [x08; xb4; x0d; x0a] [x05; x84; x0d; x0a]
                   _ _ _ _ _) _); vm_compute; reflexivity.
Defined.

(** *** Instances on the sample traffic *)

Lemma parse_status_response_spec_witness :
  exists l0 l1 v_lo v_hi st ch rest reading,
    STATUS_RESPONSE
    = [x24; x24; l0; l1; x4b; x0b; v_lo; v_hi; st; ch] ++ rest /\
    parse_status_response STATUS_RESPONSE = Return (Some reading) /\
    voltage reading
    = PrimFloat.div
        (PrimFloat.of_uint63
           (Uint63.of_Z (byte_to_Z v_lo + 256 * byte_to_Z v_hi)))
        100 /\
    Uint63.to_Z (Uint63.of_Z (byte_to_Z v_lo + 256 * byte_to_Z v_hi))
    = byte_to_Z v_lo + 256 * byte_to_Z v_hi /\
    (battery_ok reading = true <-> st = x02) /\
    (battery_ok reading = false <-> st <> x02) /\
    (charging reading = true <-> ch = x01).
Proof.
  apply (proj2 (parse_status_response_spec STATUS_RESPONSE)).
  vm_compute. discriminate.
Defined.

Lemma parse_device_info_response_spec_witness :
  exists l0 l1 f_model f_hw f_fw rest info,
    DEVICE_INFO_RESPONSE
    = [x24; x24; l0; l1; x43; x01] ++ f_model ++ f_hw ++ f_fw ++ rest /\
    length f_model = 10%nat /\ length f_hw = 10%nat /\
    length f_fw = 10%nat /\
    parse_device_info_response DEVICE_INFO_RESPONSE = Return (Some info) /\
    field_text f_model (model info) /\
    field_text f_hw (hw_version info) /\
    field_text f_fw (fw_version info) /\
    (f_model = repeat x00 10 -> model info = String.EmptyString) /\
    (f_hw = repeat x00 10 -> hw_version info = String.EmptyString) /\
    (f_fw = repeat x00 10 -> fw_version info = String.EmptyString).
Proof.
  apply (proj2 (parse_device_info_response_spec DEVICE_INFO_RESPONSE)).
  vm_compute. discriminate.
Defined.

Lemma identity_failure_aborts_cycle_witness :
  ~ In CMD_STATUS_POLL
      (writes (trace (_async_update_data (cycle_with [] [STATUS_RESPONSE]) init))) /\
  (exists f,
      outcome (_async_update_data (cycle_with [] [STATUS_RESPONSE]) init)
      = Raise (UpdateFailed f)) /\
  (forall f,
      UpdateFailed DeviceInfoTimeout = UpdateFailed f ->
      fails (on_disconnect (cycle_with [] [STATUS_RESPONSE])) = false ->
      outcome (_async_update_data (cycle_with [] [STATUS_RESPONSE]) init)
      = Raise (UpdateFailed f)).
Proof.
  apply (identity_failure_aborts_cycle (cycle_with [] [STATUS_RESPONSE]) init
           (UpdateFailed DeviceInfoTimeout)); reflexivity.
Defined.

(** A second cycle in a session whose first cycle succeeded writes the
    status-poll command and nothing else. *)
Lemma cached_identity_skips_exchange_witness :
  writes (trace (_async_update_data
                   (cycle_with [DEVICE_INFO_RESPONSE] [STATUS_RESPONSE])
                   (final (_async_update_data
                             (cycle_with [DEVICE_INFO_RESPONSE] [STATUS_RESPONSE])
                             init))))
  = [CMD_STATUS_POLL].
Proof.
  refine (proj2 (proj2 (proj2
    (cached_identity_skips_exchange
       (final (_async_update_data
                 (cycle_with [DEVICE_INFO_RESPONSE] [STATUS_RESPONSE]) init))
       {| model := decode_ascii_ignore [x42; x4b; x33; x30; x30];
          hw_version := decode_ascii_ignore [x31; x2e; x31];
          fw_version := decode_ascii_ignore [x31; x2e; x30; x2e; x33] |}
       _) (cycle_with [DEVICE_INFO_RESPONSE] [STATUS_RESPONSE]))) _ _ _);
    vm_compute; reflexivity.
Defined.

Lemma failed_identity_keeps_cache_witness :
  _device_info (final (_fetch_device_info (answered []) init))
  = _device_info init /\
  _device_info init = None /\
  (forall x', exists rest,
      trace (_fetch_device_info x'
               (final (_fetch_device_info (answered []) init)))
      = Write CMD_DEVICE_INFO :: rest) /\
  (forall x0 self0,
      _device_info (final (_fetch_device_info x0 self0)) = _device_info self0 \/
      outcome (_fetch_device_info x0 self0) = Return tt /\
      exists data info,
        parse_device_info_response data = Return (Some info) /\
        In (ParseDeviceInfo data) (trace (_fetch_device_info x0 self0)) /\
        _device_info (final (_fetch_device_info x0 self0)) = Some info).
Proof.
  apply (failed_identity_keeps_cache (answered []) init
           (UpdateFailed DeviceInfoTimeout)).
  reflexivity.
Defined.

Lemma empty_notification_is_no_response_witness :
  outcome (_fetch_device_info (answered [[]]) init)
  = Raise (UpdateFailed NoDeviceInfoResponse) /\
  outcome (_async_update_data (cycle_with [DEVICE_INFO_RESPONSE] [[]]) init)
  = Raise (UpdateFailed NoStatusResponse).
Proof.
  destruct empty_notification_is_no_response as [Hinfo Hstatus]. split.
  - refine (proj1 (Hinfo (answered [[]]) init [] _ _ _)); reflexivity.
  - refine (proj1 (proj2 (proj2 (proj2 (proj2
      (Hstatus (cycle_with [DEVICE_INFO_RESPONSE] [[]]) init [] _ _ _ _ _ _)))))
      _); vm_compute; reflexivity.
Defined.

(** *** The text of a field is determined by the field *)

Lemma rstrip_kept kept n :
  (forall front, kept <> front ++ [x00]) ->
  rstrip [x00] (kept ++ repeat x00 n) = kept.
Proof.
  induction kept as [|x kept IH]; intros Hk.
  - apply rstrip_all_nul.
  - cbn [app rstrip]. rewrite IH.
    + destruct kept as [|y kept]; [|reflexivity].
      destruct (existsb (Byte.eqb x) [x00]) eqn:Ex; [|reflexivity].
      apply in_nul in Ex. subst x. exfalso. apply (Hk []). reflexivity.
    + intros front ->. apply (Hk (x :: front)). reflexivity.
Qed.

Lemma field_text_unique field text :
  field_text field text <->
  text = decode_ascii_ignore (rstrip [x00] field).
Proof.
  split.
  - intros (kept & n & -> & Hk & Ht).
    rewrite (rstrip_kept kept n Hk). unfold decode_ascii_ignore.
    rewrite <- Ht. symmetry. apply String.string_of_list_byte_of_string.
  - intros ->. apply decode_field_text.
Qed.

(** * Further properties of the codec *)

(** *** When [build_packet] raises *)

Lemma pack_H_raises v : 65535 < v -> pack_H v = Raise StructError.
Proof.
  intros Hv. unfold pack_H.
  replace ((0 <=? v) && (v <=? 65535)) with false; [reflexivity|].
  symmetry. apply andb_false_iff. right. apply Z.leb_gt. lia.
Qed.

(** X1: [build_packet] raises [struct.error] exactly when the payload
    is too long for the 16-bit length field, whatever the command;
    it raises nothing else, the CRC always fitting its two bytes. *)
Theorem build_packet_raises_iff (command data : bytes) :
  (build_packet command data = Raise StructError <-> 65535 < 10 + len data) /\
  (forall e, build_packet command data = Raise e -> e = StructError) /\
  (10 + len data <= 65535 <->
   exists packet, build_packet command data = Return packet).
Proof.
  destruct (Z_le_gt_dec (10 + len data) 65535) as [Hle|Hgt].
  - rewrite (build_packet_eq command data Hle). cbv zeta.
    repeat split; try discriminate; try lia; eauto.
  - assert (Hr : build_packet command data = Raise StructError).
    { unfold build_packet. rewrite pack_H_raises by lia. reflexivity. }
    rewrite Hr. repeat split; try congruence; try lia.
    intros [packet H]. discriminate.
Qed.

(** *** Reading a built packet back *)

Lemma unpack_pack_H v packed :
  pack_H v = Return packed -> unpack_H packed = Return v.
Proof.
  unfold pack_H. destruct ((0 <=? v) && (v <=? 65535)) eqn:Hv; [|discriminate].
  apply andb_true_iff in Hv. destruct Hv as [H0 H1].
  apply Z.leb_le in H0, H1. intros [= <-]. cbn [unpack_H].
  rewrite !byte_to_of_Z, Z.shiftr_div_pow2 by lia. change (2 ^ 8) with 256.
  rewrite (Z.mod_small (v / 256)) by (split; [apply Z.div_pos | apply Z.div_lt_upper_bound]; lia).
  f_equal. pose proof (Z.div_mod v 256 ltac:(lia)). lia.
Qed.

(** The slice that covers the middle of three pieces. *)
Lemma slice_middle (a b c : bytes) (start stop : option Z) :
  match start with
  | Some i => slice_bound (len (a ++ b ++ c)) i = len a
  | None => a = []
  end ->
  match stop with
  | Some j => slice_bound (len (a ++ b ++ c)) j = len a + len b
  | None => c = []
  end ->
  slice start stop (a ++ b ++ c) = b.
Proof.
  intros Hlo Hhi. unfold slice.
  set (n := len (a ++ b ++ c)) in *.
  assert (Hn : n = len a + len b + len c)
    by (unfold n; rewrite !len_app; lia).
  pose proof (len_nonneg a). pose proof (len_nonneg b).
  pose proof (len_nonneg c).
  set (lo := match start with Some i => slice_bound n i | None => 0 end).
  set (hi := match stop with Some j => slice_bound n j | None => n end).
  assert (Elo : lo = len a).
  { unfold lo. destruct start; [exact Hlo | subst a; reflexivity]. }
  assert (Ehi : hi = len a + len b).
  { unfold hi. destruct stop; [exact Hhi|]. subst c.
    change (len []) with 0 in Hn. lia. }
  rewrite Elo, Ehi.
  replace (Z.to_nat (len a + len b - len a)) with (length b)
    by (unfold len; lia).
  replace (Z.to_nat (len a)) with (length a + 0)%nat by (unfold len; lia).
  rewrite skipn_app, Nat.add_0_r, skipn_all.
  rewrite Nat.sub_diag, skipn_O, app_nil_l.
  rewrite firstn_app, firstn_all, Nat.sub_diag, firstn_O.
  apply app_nil_r.
Qed.

Lemma build_packet_parts command data packet :
  build_packet command data = Return packet ->
  10 + len data <= 65535 /\
  exists size crc,
    pack_H (10 + len data) = Return size /\
    pack_H (crc16_x25 ([x40; x40] ++ size ++ command ++ data)) = Return crc /\
    length size = 2%nat /\ length crc = 2%nat /\
    packet = [x40; x40] ++ size ++ command ++ data ++ crc ++ [x0d; x0a].
Proof.
  intros Hb.
  destruct (Z_le_gt_dec (10 + len data) 65535) as [Hle|Hgt].
  2:{ unfold build_packet in Hb. rewrite pack_H_raises in Hb by lia.
      discriminate. }
  split; [exact Hle|].
  pose proof (len_nonneg data).
  rewrite (build_packet_eq command data Hle) in Hb. cbv zeta in Hb.
  injection Hb as <-.
  eexists; eexists.
  split; [apply pack_H_u16; lia|].
  split; [apply pack_H_u16, crc16_x25_u16|].
  split; [reflexivity|]. split; [reflexivity|].
  rewrite <- !app_assoc. reflexivity.
Qed.

Lemma slice_bound_inside n i : 0 <= i <= n -> slice_bound n i = i.
Proof.
  intros H. unfold slice_bound. destruct (i <? 0) eqn:E; lia.
Qed.

Lemma slice_bound_from_end n i :
  i < 0 -> 0 <= i + n -> slice_bound n i = i + n.
Proof.
  intros H H'. unfold slice_bound. destruct (i <? 0) eqn:E; lia.
Qed.

Lemma build_packet_fields (command data packet : bytes) :
  build_packet command data = Return packet ->
  length command = 2%nat ->
  slice (Some 0) (Some 2) packet = [x40; x40] /\
  unpack_H (slice (Some 2) (Some 4) packet) = Return (len packet) /\
  len packet = 10 + len data /\
  slice (Some 4) (Some 6) packet = command /\
  slice (Some 6) (Some (-4)) packet = data /\
  unpack_H (slice (Some (-4)) (Some (-2)) packet)
  = Return (crc16_x25 (slice None (Some (-4)) packet)) /\
  slice (Some (-2)) None packet = [x0d; x0a].
Proof.
  intros Hb Hc.
  destruct (build_packet_parts command data packet Hb)
    as (Hle & size & crc & Hsize & Hcrc & Ls & Lc & ->).
  assert (Hlc : len command = 2) by (unfold len; lia).
  assert (Hls : len size = 2) by (unfold len; lia).
  assert (Hlk : len crc = 2) by (unfold len; lia).
  pose proof (len_nonneg data) as Hd.
  set (header := [x40; x40]). set (footer := [x0d; x0a]).
  assert (Hh : len header = 2) by reflexivity.
  assert (Hf : len footer = 2) by reflexivity.
  assert (Hlen : len (header ++ size ++ command ++ data ++ crc ++ footer)
                 = 10 + len data) by (rewrite !len_app; lia).
  assert (Hsz : slice (Some 2) (Some 4)
                  (header ++ size ++ command ++ data ++ crc ++ footer) = size).
  { apply (slice_middle header size (command ++ data ++ crc ++ footer));
      rewrite Hlen, slice_bound_inside; lia. }
  assert (Hck : slice (Some (-4)) (Some (-2))
                  (header ++ size ++ command ++ data ++ crc ++ footer) = crc).
  { replace (header ++ size ++ command ++ data ++ crc ++ footer)
      with ((header ++ size ++ command ++ data) ++ crc ++ footer)
      by (rewrite <- !app_assoc; reflexivity).
    apply slice_middle; rewrite <- !app_assoc, Hlen, !len_app,
      slice_bound_from_end; lia. }
  assert (Hmsg : slice None (Some (-4))
                   (header ++ size ++ command ++ data ++ crc ++ footer)
                 = header ++ size ++ command ++ data).
  { replace (header ++ size ++ command ++ data ++ crc ++ footer)
      with ([] ++ (header ++ size ++ command ++ data) ++ crc ++ footer)
      by (rewrite app_nil_l, <- !app_assoc; reflexivity).
    apply slice_middle; [reflexivity|].
    rewrite app_nil_l, <- !app_assoc, Hlen, !len_app, slice_bound_from_end;
      change (len []) with 0; lia. }
  rewrite Hsz, Hck, Hmsg, Hlen.
  split.
  { apply (slice_middle [] header (size ++ command ++ data ++ crc ++ footer));
      rewrite app_nil_l, Hlen, slice_bound_inside;
      change (len []) with 0; lia. }
  split; [apply (unpack_pack_H _ _ Hsize)|].
  split; [reflexivity|].
  split.
  { rewrite (app_assoc header size).
    apply (slice_middle (header ++ size) command (data ++ crc ++ footer));
      rewrite <- app_assoc, Hlen, len_app, slice_bound_inside; lia. }
  split.
  { replace (header ++ size ++ command ++ data ++ crc ++ footer)
      with ((header ++ size ++ command) ++ data ++ crc ++ footer)
      by (rewrite <- !app_assoc; reflexivity).
    apply slice_middle.
    - rewrite <- !app_assoc, Hlen, !len_app, slice_bound_inside; lia.
    - rewrite <- !app_assoc, Hlen, !len_app, slice_bound_from_end; lia. }
  split; [apply (unpack_pack_H _ _ Hcrc)|].
  rewrite !app_assoc. apply slice_last2.
Qed.

(** X2: from a packet built for a 2-byte command, the header, the
    command, the payload and the footer are read back at their offsets;
    the length field holds the length of the whole packet, footer
    included, and the CRC field holds the CRC of everything before it. *)
Theorem build_packet_read_back (command data packet : bytes) :
  build_packet command data = Return packet ->
  length command = 2%nat ->
  slice (Some 0) (Some 2) packet = [x40; x40] /\
  unpack_H (slice (Some 2) (Some 4) packet) = Return (len packet) /\
  len packet = 10 + len data /\
  slice (Some 4) (Some 6) packet = command /\
  slice (Some 6) (Some (-4)) packet = data /\
  unpack_H (slice (Some (-4)) (Some (-2)) packet)
  = Return (crc16_x25 (slice None (Some (-4)) packet)) /\
  slice (Some (-2)) None packet = [x0d; x0a].
Proof. exact (build_packet_fields command data packet). Qed.



Lemma build_packet_read_back_witness :
  slice (Some 0) (Some 2) [x40; x40; x0c; x00; x05; x01; x14; x00; x0a; xd6; x0d; x0a]
  = [x40; x40] /\
  unpack_H (slice (Some 2) (Some 4)
              [x40; x40; x0c; x00; x05; x01; x14; x00; x0a; xd6; x0d; x0a])
  = Return (len [x40; x40; x0c; x00; x05; x01; x14; x00; x0a; xd6; x0d; x0a]) /\
  len [x40; x40; x0c; x00; x05; x01; x14; x00; x0a; xd6; x0d; x0a]
  = 10 + len [x14; x00] /\
  slice (Some 4) (Some 6)
    [x40; x40; x0c; x00; x05; x01; x14; x00; x0a; xd6; x0d; x0a]
  = [x05; x01] /\
  slice (Some 6) (Some (-4))
    [x40; x40; x0c; x00; x05; x01; x14; x00; x0a; xd6; x0d; x0a]
  = [x14; x00] /\
  unpack_H (slice (Some (-4)) (Some (-2))
              [x40; x40; x0c; x00; x05; x01; x14; x00; x0a; xd6; x0d; x0a])
  = Return (crc16_x25
              (slice None (Some (-4))
                 [x40; x40; x0c; x00; x05; x01; x14; x00; x0a; xd6; x0d; x0a])) /\
  slice (Some (-2)) None
    [x40; x40; x0c; x00; x05; x01; x14; x00; x0a; xd6; x0d; x0a]
  = [x0d; x0a].
Proof.
  apply (build_packet_read_back [x05; x01] [x14; x00]);
    vm_compute; reflexivity.
Defined.

(** X3: two packets built for 2-byte commands are equal only when the
    commands and the payloads are. *)
Theorem build_packet_injective (command command' data data' packet : bytes) :
  build_packet command data = Return packet ->
  build_packet command' data' = Return packet ->
  length command = 2%nat -> length command' = 2%nat ->
  command = command' /\ data = data'.
Proof.
  intros Hb Hb' Hc Hc'.
  destruct (build_packet_fields command data packet Hb Hc)
    as (_ & _ & _ & H46 & H6 & _).
  destruct (build_packet_fields command' data' packet Hb' Hc')
    as (_ & _ & _ & H46' & H6' & _).
  split; congruence.
Qed.

Lemma build_packet_injective_witness :
  [x0b; x0b] = [x0b; x0b] /\ @nil byte = [].
Proof.
  apply (build_packet_injective [x0b; x0b] [x0b; x0b] [] [] CMD_STATUS_POLL);
    vm_compute; reflexivity.
Defined.

(** *** What the CRC detects *)

Lemma crc_unshift_shift r : 0 <= r < 65536 -> crc_unshift (crc_shift r) = r.
Proof.
  intros Hr.
  assert (H : all_bits 16 (fun r => crc_unshift (crc_shift r) =? r) 0 = true)
    by (vm_compute; reflexivity).
  pose proof (all_u16 _ H r Hr) as Hp. cbv beta in Hp.
  apply Z.eqb_eq in Hp. exact Hp.
Qed.

Lemma crc_shift_inj r r' :
  0 <= r < 65536 -> 0 <= r' < 65536 -> crc_shift r = crc_shift r' -> r = r'.
Proof.
  intros Hr Hr' H.
  rewrite <- (crc_unshift_shift r Hr), <- (crc_unshift_shift r' Hr'), H.
  reflexivity.
Qed.

Lemma iter_crc_shift_inj n r r' :
  0 <= r < 65536 -> 0 <= r' < 65536 ->
  Nat.iter n crc_shift r = Nat.iter n crc_shift r' -> r = r'.
Proof.
  intros Hr Hr'. induction n as [|n IH]; cbn [Nat.iter]; [auto|].
  intros H. apply IH. apply crc_shift_inj; [| |exact H];
    apply iter_crc_shift_u16; assumption.
Qed.

Lemma lxor_cancel_r a a' b : Z.lxor a b = Z.lxor a' b -> a = a'.
Proof.
  intros H.
  rewrite <- (Z.lxor_0_r a), <- (Z.lxor_0_r a'), <- (Z.lxor_nilpotent b).
  rewrite <- !Z.lxor_assoc, H. reflexivity.
Qed.

Lemma lxor_cancel_l a b b' : Z.lxor a b = Z.lxor a b' -> b = b'.
Proof.
  rewrite (Z.lxor_comm a b), (Z.lxor_comm a b'). apply lxor_cancel_r.
Qed.

Lemma crc_update_inj_register r r' b :
  0 <= r < 65536 -> 0 <= r' < 65536 ->
  crc_update r b = crc_update r' b -> r = r'.
Proof.
  intros Hr Hr' H. unfold crc_update in H.
  pose proof (byte_to_Z_range b).
  apply iter_crc_shift_inj in H; [|apply lxor_u16; lia..].
  exact (lxor_cancel_r _ _ _ H).
Qed.

Lemma crc_update_inj_byte r b b' :
  0 <= r < 65536 -> crc_update r b = crc_update r b' -> b = b'.
Proof.
  intros Hr H. unfold crc_update in H.
  pose proof (byte_to_Z_range b). pose proof (byte_to_Z_range b').
  apply iter_crc_shift_inj in H; [|apply lxor_u16; lia..].
  apply byte_to_Z_inj. exact (lxor_cancel_l _ _ _ H).
Qed.

Lemma fold_crc_update_inj data : forall r r',
  0 <= r < 65536 -> 0 <= r' < 65536 ->
  fold_left crc_update data r = fold_left crc_update data r' -> r = r'.
Proof.
  induction data as [|b data IH]; intros r r' Hr Hr'; [auto|].
  rewrite !fold_left_cons. intros H.
  apply IH in H; [|apply crc_update_u16; assumption..].
  exact (crc_update_inj_register r r' b Hr Hr' H).
Qed.

Lemma crc16_x25_byte_change (front back : bytes) (b b' : byte) :
  b <> b' ->
  crc16_x25 (front ++ b :: back) <> crc16_x25 (front ++ b' :: back).
Proof.
  intros Hb H. apply Hb. unfold crc16_x25 in H.
  apply lxor_cancel_r in H.
  rewrite !fold_left_app, !fold_left_cons in H.
  assert (Hr : 0 <= fold_left crc_update front 65535 < 65536)
    by (apply fold_crc_update_u16; lia).
  apply fold_crc_update_inj in H; [|apply crc_update_u16; exact Hr..].
  exact (crc_update_inj_byte _ b b' Hr H).
Qed.

(** X4: changing one byte of a message, anywhere, changes its CRC. *)
Theorem crc16_x25_detects_byte_change (front back : bytes) (b b' : byte) :
  b <> b' ->
  crc16_x25 (front ++ b :: back) <> crc16_x25 (front ++ b' :: back).
Proof. exact (crc16_x25_byte_change front back b b'). Qed.

Lemma crc16_x25_detects_byte_change_witness :
  crc16_x25 ([x40; x40] ++ x0a :: [x00; x0b; x0b])
  <> crc16_x25 ([x40; x40] ++ x0b :: [x00; x0b; x0b]).
Proof.
  apply (crc16_x25_detects_byte_change [x40; x40] [x00; x0b; x0b] x0a x0b).
  discriminate.
Defined.

Lemma validate_packet_last2 body x y :
  validate_packet (body ++ [x; y])
  = bytes_eqb [x; y] [x0d; x0a] && (8 <=? len body)
    && (crc16_x25 body =? 0x0F47).
Proof.
  unfold validate_packet.
  rewrite slice_last2, slice_but_last2, len_app.
  change (len [x; y]) with 2.
  destruct (bytes_eqb [x; y] [x0d; x0a]); cbn [negb andb];
    destruct (len body + 2 <? 10) eqn:E, (8 <=? len body) eqn:E'; try lia;
    reflexivity.
Qed.

Lemma last_two_cases (l : bytes) :
  l = [] \/ (exists y, l = [y]) \/ exists l' x y, l = l' ++ [x; y].
Proof.
  destruct (rev l) as [|y [|x r]] eqn:E.
  - left. apply (f_equal (@rev byte)) in E. rewrite rev_involutive in E.
    exact E.
  - right; left. exists y. apply (f_equal (@rev byte)) in E.
    rewrite rev_involutive in E. exact E.
  - right; right. exists (rev r), x, y.
    apply (f_equal (@rev byte)) in E. rewrite rev_involutive in E.
    rewrite E. cbn [rev]. rewrite <- app_assoc. reflexivity.
Qed.

(** X5: a packet that [validate_packet] accepts is rejected once any
    single byte of it is changed, in the body, the CRC or the footer. *)
Theorem validate_packet_rejects_byte_change (front back : bytes) (b b' : byte) :
  validate_packet (front ++ b :: back) = true ->
  b <> b' ->
  validate_packet (front ++ b' :: back) = false.
Proof.
  intros Hv Hb.
  destruct (last_two_cases back) as [->|[[y ->]|(back' & x & y & ->)]].
  - destruct (last_two_cases front) as [->|[[z ->]|(front' & w & z & ->)]].
    + discriminate Hv.
    + change ([z] ++ [b]) with ([] ++ [z; b]) in Hv.
      change ([z] ++ [b']) with ([] ++ [z; b']).
      rewrite validate_packet_last2 in *.
      apply andb_true_iff in Hv. destruct Hv as [Hv _].
      apply andb_true_iff in Hv. destruct Hv as [_ Hv]. discriminate.
    + rewrite <- app_assoc in *.
      change ([w; z] ++ [b]) with ([w] ++ [z; b]) in Hv.
      change ([w; z] ++ [b']) with ([w] ++ [z; b']).
      rewrite app_assoc in *. rewrite validate_packet_last2 in *.
      apply andb_true_iff in Hv. destruct Hv as [Hv _].
      apply andb_true_iff in Hv. destruct Hv as [Hv _].
      apply bytes_eqb_eq in Hv. injection Hv as -> ->.
      destruct (bytes_eqb [x0d; b'] [x0d; x0a]) eqn:E; [|reflexivity].
      apply bytes_eqb_eq in E. congruence.
  - change (front ++ [b; y]) with (front ++ [b; y]) in Hv.
    rewrite validate_packet_last2 in *.
    apply andb_true_iff in Hv. destruct Hv as [Hv _].
    apply andb_true_iff in Hv. destruct Hv as [Hv _].
    apply bytes_eqb_eq in Hv. injection Hv as -> ->.
    destruct (bytes_eqb [b'; x0a] [x0d; x0a]) eqn:E; [|reflexivity].
    apply bytes_eqb_eq in E. congruence.
  - change (b :: back' ++ [x; y]) with ((b :: back') ++ [x; y]) in Hv.
    change (b' :: back' ++ [x; y]) with ((b' :: back') ++ [x; y]).
    rewrite app_assoc in *. rewrite validate_packet_last2 in *.
    apply andb_true_iff in Hv. destruct Hv as [_ Hcrc].
    apply andb_false_iff. right. apply Z.eqb_eq in Hcrc.
    apply Z.eqb_neq. rewrite <- Hcrc. intros E. symmetry in E.
    exact (crc16_x25_byte_change front back' b b' Hb E).
Qed.

Lemma validate_packet_rejects_byte_change_witness :
  validate_packet
    ([x24; x24; x0e; x00; x4b; x0b] ++ xef :: [x04; x02; x01; x08; xb4; x0d; x0a])
  = false.
Proof.
  apply (validate_packet_rejects_byte_change
           [x24; x24; x0e; x00; x4b; x0b]
           [x04; x02; x01; x08; xb4; x0d; x0a] xee xef).
  - vm_compute. reflexivity.
  - discriminate.
Defined.

(** *** What the parsers accept *)

(** The conditions under which [parse_status_response] returns a
    reading, and the reading. *)
Lemma parse_status_some data reading :
  parse_status_response data = Return (Some reading) ->
  14 <= len data /\
  slice (Some 0) (Some 2) data = [x24; x24] /\
  slice (Some 4) (Some 6) data = [x4b; x0b] /\
  validate_packet data = true /\
  exists raw status_byte charging_byte,
    unpack_H (slice (Some 6) (Some 8) data) = Return raw /\
    index data 8 = Return status_byte /\
    index data 9 = Return charging_byte /\
    reading = {| voltage := div_100 raw;
                 battery_ok := status_byte =? 2;
                 charging := charging_byte =? 1 |}.
Proof.
  unfold parse_status_response.
  destruct (len data <? 14) eqn:Hlen; [discriminate|].
  destruct (bytes_eqb (slice (Some 0) (Some 2) data) [x24; x24]) eqn:Hh;
    [|discriminate].
  destruct (bytes_eqb (slice (Some 4) (Some 6) data) [x4b; x0b]) eqn:Hc;
    [|discriminate].
  destruct (validate_packet data) eqn:Hv; [|discriminate].
  cbn [negb].
  destruct (unpack_H (slice (Some 6) (Some 8) data)) as [raw|] eqn:Hraw;
    [|discriminate].
  destruct (index data 8) as [sb|] eqn:H8; [|discriminate].
  destruct (index data 9) as [cb|] eqn:H9; [|discriminate].
  cbn [py_bind]. intros [= <-].
  apply bytes_eqb_eq in Hh, Hc.
  repeat split; try assumption; try lia.
  exists raw, sb, cb. auto.
Qed.

(** The conditions under which [parse_device_info_response] returns
    an identity, and the identity. *)
Lemma parse_device_info_some data info :
  parse_device_info_response data = Return (Some info) ->
  54 <= len data /\
  slice (Some 0) (Some 2) data = [x24; x24] /\
  slice (Some 4) (Some 6) data = [x43; x01] /\
  validate_packet data = true /\
  info = {| model :=
              decode_ascii_ignore (rstrip [x00] (slice (Some 6) (Some 16) data));
            hw_version :=
              decode_ascii_ignore (rstrip [x00] (slice (Some 16) (Some 26) data));
            fw_version :=
              decode_ascii_ignore (rstrip [x00] (slice (Some 26) (Some 36) data)) |}.
Proof.
  unfold parse_device_info_response.
  destruct (len data <? 54) eqn:Hlen; [discriminate|].
  destruct (bytes_eqb (slice (Some 0) (Some 2) data) [x24; x24]) eqn:Hh;
    [|discriminate].
  destruct (bytes_eqb (slice (Some 4) (Some 6) data) [x43; x01]) eqn:Hc;
    [|discriminate].
  destruct (validate_packet data) eqn:Hv; [|discriminate].
  cbn [negb]. intros [= <-].
  apply bytes_eqb_eq in Hh, Hc.
  repeat split; try assumption; lia.
Qed.

(** X6: a packet built by [build_packet] is never taken for a
    response: both parsers return [None] on it. *)
Theorem built_packet_is_no_response (command data packet : bytes) :
  build_packet command data = Return packet ->
  parse_status_response packet = Return None /\
  parse_device_info_response packet = Return None.
Proof.
  intros Hb.
  destruct (build_packet_parts command data packet Hb)
    as (_ & size & crc & _ & _ & _ & _ & ->).
  cbn [app].
  split.
  - destruct (parse_status_response _) as [[reading|]|e] eqn:E.
    + apply parse_status_some in E. destruct E as (Hlen & Hh & _).
      rewrite slice_inside in Hh by lia. discriminate Hh.
    + reflexivity.
    + destruct (parse_status_returns (x40 :: x40 :: size ++ command ++ data
                                         ++ crc ++ [x0d; x0a])) as [r Hr].
      congruence.
  - destruct (parse_device_info_response _) as [[info|]|e] eqn:E.
    + apply parse_device_info_some in E. destruct E as (Hlen & Hh & _).
      rewrite slice_inside in Hh by lia. discriminate Hh.
    + reflexivity.
    + destruct (parse_device_info_returns
                  (x40 :: x40 :: size ++ command ++ data
                     ++ crc ++ [x0d; x0a])) as [r Hr].
      congruence.
Qed.

Lemma built_packet_is_no_response_witness :
  parse_status_response CMD_STATUS_POLL = Return None /\
  parse_device_info_response CMD_STATUS_POLL = Return None.
Proof.
  apply (built_packet_is_no_response [x0b; x0b] []).
  vm_compute. reflexivity.
Defined.

(** X7: no byte string is accepted by both parsers: on every input at
    least one of them returns [None]. *)
Theorem parsers_exclude_each_other (data : bytes) :
  parse_status_response data = Return None \/
  parse_device_info_response data = Return None.
Proof.
  destruct (parse_status_returns data) as [[reading|] Hs]; [|auto].
  destruct (parse_device_info_returns data) as [[info|] Hd]; [|auto].
  apply parse_status_some in Hs. apply parse_device_info_some in Hd.
  destruct Hs as (_ & _ & Hs & _). destruct Hd as (_ & _ & Hd & _).
  rewrite Hs in Hd. discriminate.
Qed.

(** * Further properties of the coordinator *)

(** The ways a poll cycle can go, by what the transport does. *)
Lemma cycle_cases c self :
  let run := _async_update_data c self in
  (device_found c = false /\ run = (Raise (UpdateFailed DeviceNotFound), self, []))
  \/
  (device_found c = true /\ connect_fails c = true /\
   run = (Raise (UpdateFailed BleError), set_response_event None self, []))
  \/
  (device_found c = true /\ connect_fails c = false /\
   run = (cycle_outcome c (outcome (poll c self)),
          set_response_event None
            (notify_all (arrivals (on_disconnect c)) (final (poll c self))),
          trace (poll c self))).
Proof.
  cbv zeta. destruct (device_found c) eqn:Hdev.
  - destruct (connect_fails c) eqn:Hconn.
    + right; left. repeat split.
      unfold _async_update_data, try_finally, try_except, with_client.
      rewrite Hdev, Hconn. reflexivity.
    + right; right. repeat split. apply cycle_of_poll; assumption.
  - left. split; [reflexivity|].
    unfold _async_update_data. rewrite Hdev. reflexivity.
Qed.

(** The ways the body of a cycle can go once the client is connected. *)
Lemma poll_cases c self :
  (fails (on_start_notify c) = true /\
   poll c self = (Raise BleakError, connected c self, []))
  \/
  (fails (on_start_notify c) = false /\
   exists e self1 t1,
     _fetch_device_info (info_exchange c) (connected c self)
     = (Raise e, self1, t1) /\
     poll c self = (Raise e, self1, t1))
  \/
  (fails (on_start_notify c) = false /\
   exists self1 t1,
     _fetch_device_info (info_exchange c) (connected c self)
     = (Return tt, self1, t1) /\
     poll c self =
     let x := status_exchange c in
     if fails (on_write x)
     then (Raise BleakError, notify_all (arrivals (on_write x)) (armed self1),
           t1 ++ [Write CMD_STATUS_POLL])
     else
       match delivered x with
       | [] => (Raise (UpdateFailed StatusPollTimeout), armed self1,
                t1 ++ [Write CMD_STATUS_POLL])
       | _ :: _ =>
           let self2 := notify_all (delivered x) (armed self1) in
           match last (delivered x) [] with
           | [] => (Raise (UpdateFailed NoStatusResponse), self2,
                    t1 ++ [Write CMD_STATUS_POLL])
           | (_ :: _) as data =>
               match parse_status_response data with
               | Return (Some st) =>
                   (Return st, self2,
                    t1 ++ [Write CMD_STATUS_POLL; ParseStatus data])
               | Return None =>
                   (Raise (UpdateFailed InvalidStatus), self2,
                    t1 ++ [Write CMD_STATUS_POLL; ParseStatus data])
               | Raise e =>
                   (Raise e, self2,
                    t1 ++ [Write CMD_STATUS_POLL; ParseStatus data])
               end
           end
       end).
Proof.
  destruct (fails (on_start_notify c)) eqn:Hstart.
  - left. split; [reflexivity|]. apply poll_start_notify_fails, Hstart.
  - right.
    destruct (_fetch_device_info (info_exchange c) (connected c self))
      as [[[[]|e] self1] t1] eqn:Hrun.
    + right. split; [reflexivity|]. exists self1, t1. split; [reflexivity|].
      apply (status_phase_eq c self self1 t1 Hstart Hrun).
    + left. split; [reflexivity|]. exists e, self1, t1.
      split; [reflexivity|].
      apply (poll_fetch_raises c self e self1 t1 Hstart Hrun).
Qed.

(** What the body of a cycle raises. *)
Lemma poll_raises c self e :
  outcome (poll c self) = Raise e ->
  e = BleakError \/ exists f, e = UpdateFailed f.
Proof.
  destruct (poll_cases c self)
    as [(_ & ->)|[(_ & e' & self1 & t1 & Hf & ->)|(_ & self1 & t1 & Hf & ->)]].
  - cbn. intros [= <-]. auto.
  - cbn [outcome fst]. intros [= ->].
    pose proof (fetch_device_info_cases (info_exchange c) (connected c self))
      as Hcases.
    cbv zeta in Hcases. rewrite Hf in Hcases.
    cbn [outcome final trace fst snd] in Hcases.
    destruct Hcases as [(H & _)|[(_ & _ & _ & Hk)|(_ & H & _)]];
      try discriminate.
    destruct Hk as [H|[H|[H|H]]]; injection H as ->; eauto.
  - cbv zeta.
    destruct (fails (on_write (status_exchange c)));
      [cbn; intros [= <-]; auto|].
    destruct (delivered (status_exchange c)) as [|d l];
      [cbn; intros [= <-]; eauto|].
    destruct (last (d :: l) []) as [|b data]; [cbn; intros [= <-]; eauto|].
    destruct (parse_status_returns (b :: data)) as [[st|] Hp]; rewrite Hp;
      cbn; intros [= <-]; eauto.
Qed.

(** X8: with a client whose calls fail with [BleakError] only, a poll
    cycle ends in one of two ways: it returns a reading or it raises
    [UpdateFailed].  No [BleakError], no timeout of a wait and no
    exception of a parser or of a missing event leaves
    [_async_update_data]. *)
Theorem cycle_returns_or_update_failed (c : cycle) (self : coordinator) :
  (exists reading, outcome (_async_update_data c self) = Return reading) \/
  (exists f, outcome (_async_update_data c self) = Raise (UpdateFailed f)).
Proof.
  pose proof (cycle_cases c self) as Hc. cbv zeta in Hc.
  destruct Hc as [(_ & ->)|[(_ & _ & ->)|(_ & _ & ->)]];
    cbn [outcome fst]; eauto.
  unfold cycle_outcome. destruct (fails (on_disconnect c)); [eauto|].
  destruct (outcome (poll c self)) as [st|e] eqn:E; [eauto|].
  destruct (poll_raises c self e E) as [->|[f ->]]; eauto.
Qed.

Lemma last_in (l : list bytes) : l <> [] -> In (last l []) l.
Proof.
  induction l as [|a l IH]; [congruence|]. intros _.
  destruct l as [|b l]; [left; reflexivity|].
  right. apply IH. discriminate.
Qed.

(** The parser calls of a device-info exchange. *)
Lemma fetch_parses x self d :
  In (ParseDeviceInfo d) (trace (_fetch_device_info x self)) ->
  _device_info self = None /\ d <> [] /\ d = last (delivered x) [] /\
  In d (delivered x).
Proof.
  destruct (_device_info self) as [info|] eqn:Hc.
  - rewrite (fetch_device_info_cached x self info Hc). intros [].
  - rewrite (fetch_device_info_uncached x self Hc).
    destruct (fails (on_write x)); [intros [H|[]]; discriminate|].
    destruct (delivered x) as [|a l] eqn:Hd; [intros [H|[]]; discriminate|].
    cbv zeta. destruct (last (a :: l) []) as [|b data] eqn:Hl;
      [intros [H|[]]; discriminate|].
    assert (Hin : In (b :: data) (a :: l))
      by (rewrite <- Hl; apply last_in; discriminate).
    destruct (parse_device_info_response (b :: data)) as [[info|]|err];
      (intros [H|[H|[]]]; [discriminate|]); injection H as <-;
      repeat split; try discriminate; assumption.
Qed.

(** X9: a parser is only ever called on the last notification seen
    during the exchange of the running cycle, and never on an empty one:
    what an earlier cycle left in [_response_data] is not parsed. *)
Theorem parsers_see_fresh_notifications (c : cycle) (self : coordinator)
  (d : bytes) :
  let run := _async_update_data c self in
  (In (ParseDeviceInfo d) (trace run) ->
   d <> [] /\ d = last (delivered (info_exchange c)) [] /\
   In d (delivered (info_exchange c))) /\
  (In (ParseStatus d) (trace run) ->
   d <> [] /\ d = last (delivered (status_exchange c)) [] /\
   In d (delivered (status_exchange c))).
Proof.
  cbv zeta. pose proof (cycle_cases c self) as Hc. cbv zeta in Hc.
  destruct Hc as [(_ & ->)|[(_ & _ & ->)|(_ & _ & ->)]];
    cbn [trace snd]; [split; intros []..|].
  destruct (poll_cases c self)
    as [(_ & ->)|[(_ & e & self1 & t1 & Hf & ->)|(_ & self1 & t1 & Hf & ->)]];
    cbn [trace snd].
  - split; intros [].
  - split; intros Hin.
    + assert (H := fetch_parses (info_exchange c) (connected c self) d).
      rewrite Hf in H. destruct (H Hin) as (_ & H1 & H2 & H3). auto.
    + exfalso.
      apply (fetch_never_parses_status (info_exchange c) (connected c self) d).
      rewrite Hf. exact Hin.
  - assert (Hinfo : In (ParseDeviceInfo d) t1 ->
                    d <> [] /\ d = last (delivered (info_exchange c)) [] /\
                    In d (delivered (info_exchange c))).
    { intros Hin.
      assert (H := fetch_parses (info_exchange c) (connected c self) d).
      rewrite Hf in H. destruct (H Hin) as (_ & H1 & H2 & H3). auto. }
    assert (Hnos : ~ In (ParseStatus d) t1).
    { intros Hin.
      apply (fetch_never_parses_status (info_exchange c) (connected c self) d).
      rewrite Hf. exact Hin. }
    cbv zeta.
    destruct (fails (on_write (status_exchange c))).
    { cbn [trace snd]. split; intros Hin; apply in_app_or in Hin;
        destruct Hin as [Hin|[Hin|[]]]; try discriminate; tauto. }
    destruct (delivered (status_exchange c)) as [|a l] eqn:Hd.
    { cbn [trace snd]. split; intros Hin; apply in_app_or in Hin;
        destruct Hin as [Hin|[Hin|[]]]; try discriminate; tauto. }
    destruct (last (a :: l) []) as [|b data] eqn:Hl.
    { cbn [trace snd]. split; intros Hin; apply in_app_or in Hin;
        destruct Hin as [Hin|[Hin|[]]]; try discriminate; tauto. }
    assert (Hin' : In (b :: data) (a :: l))
      by (rewrite <- Hl; apply last_in; discriminate).
    destruct (parse_status_response (b :: data)) as [[st|]|err];
      cbn [trace snd]; (split; intros Hin; apply in_app_or in Hin;
        destruct Hin as [Hin|[Hin|[Hin|[]]]]; try discriminate;
        try tauto); injection Hin as <-; repeat split;
        try discriminate; assumption.
Qed.

(** A reading returned by the body of a cycle. *)
Lemma poll_returns c self reading :
  outcome (poll c self) = Return reading ->
  let d := last (delivered (status_exchange c)) [] in
  fails (on_start_notify c) = false /\
  outcome (_fetch_device_info (info_exchange c) (connected c self))
  = Return tt /\
  In d (delivered (status_exchange c)) /\
  parse_status_response d = Return (Some reading) /\
  In CMD_STATUS_POLL (writes (trace (poll c self))).
Proof.
  cbv zeta.
  destruct (poll_cases c self)
    as [(_ & ->)|[(_ & e & self1 & t1 & Hf & ->)|(Hs & self1 & t1 & Hf & ->)]];
    try discriminate.
  rewrite Hf. cbv zeta.
  destruct (fails (on_write (status_exchange c))); [discriminate|].
  destruct (delivered (status_exchange c)) as [|a l] eqn:Hd; [discriminate|].
  destruct (last (a :: l) []) as [|b data] eqn:Hl; [discriminate|].
  assert (Hin : In (b :: data) (a :: l))
    by (rewrite <- Hl; apply last_in; discriminate).
  destruct (parse_status_response (b :: data)) as [[st|]|err] eqn:Hp;
    try discriminate.
  cbn [outcome trace fst snd]. intros [= ->].
  repeat split; try assumption.
  rewrite writes_app. apply in_or_app. right. left. reflexivity.
Qed.

Lemma cycle_returns c self reading :
  outcome (_async_update_data c self) = Return reading ->
  device_found c = true /\ connect_fails c = false /\
  fails (on_disconnect c) = false /\
  outcome (poll c self) = Return reading /\
  trace (_async_update_data c self) = trace (poll c self).
Proof.
  pose proof (cycle_cases c self) as Hc. cbv zeta in Hc.
  destruct Hc as [(_ & ->)|[(_ & _ & ->)|(Hd & Hn & ->)]]; try discriminate.
  cbn [outcome trace fst snd]. unfold cycle_outcome.
  destruct (fails (on_disconnect c)); [discriminate|].
  destruct (outcome (poll c self)) as [st|[]]; try discriminate.
  intros [= ->]. auto.
Qed.

(** X10: a reading that a poll cycle returns is what
    [parse_status_response] makes of the last notification of the status
    exchange; that notification passed [validate_packet], the
    status-poll command was written, and the device identity is cached
    when the cycle ends. *)
Theorem returned_reading_is_validated (c : cycle) (self : coordinator)
  (reading : status) :
  outcome (_async_update_data c self) = Return reading ->
  let d := last (delivered (status_exchange c)) [] in
  In d (delivered (status_exchange c)) /\
  parse_status_response d = Return (Some reading) /\
  validate_packet d = true /\
  In CMD_STATUS_POLL (writes (trace (_async_update_data c self))) /\
  exists info, _device_info (final (_async_update_data c self)) = Some info.
Proof.
  intros Hret d. subst d.
  destruct (cycle_returns c self reading Hret) as (_ & _ & _ & Hp & Ht).
  destruct (poll_returns c self reading Hp) as (_ & _ & Hin & Hparse & Hw).
  cbv zeta in *.
  split; [exact Hin|]. split; [exact Hparse|].
  split; [apply parse_status_some in Hparse; tauto|].
  split; [rewrite Ht; exact Hw|].
  exact (successful_poll_fills_cache c self reading Hret).
Qed.

Lemma returned_reading_is_validated_witness :
  In (last (delivered (status_exchange
        (cycle_with [DEVICE_INFO_RESPONSE] [STATUS_RESPONSE]))) [])
     (delivered (status_exchange
        (cycle_with [DEVICE_INFO_RESPONSE] [STATUS_RESPONSE]))) /\
  parse_status_response
    (last (delivered (status_exchange
        (cycle_with [DEVICE_INFO_RESPONSE] [STATUS_RESPONSE]))) [])
  = Return (Some {| voltage := div_100 1262;
                    battery_ok := true; charging := true |}) /\
  validate_packet
    (last (delivered (status_exchange
        (cycle_with [DEVICE_INFO_RESPONSE] [STATUS_RESPONSE]))) []) = true /\
  In CMD_STATUS_POLL
     (writes (trace (_async_update_data
        (cycle_with [DEVICE_INFO_RESPONSE] [STATUS_RESPONSE]) init))) /\
  exists info,
    _device_info (final (_async_update_data
        (cycle_with [DEVICE_INFO_RESPONSE] [STATUS_RESPONSE]) init))
    = Some info.
Proof.
  apply (returned_reading_is_validated
           (cycle_with [DEVICE_INFO_RESPONSE] [STATUS_RESPONSE]) init).
  vm_compute. reflexivity.
Defined.

(** X11: a cycle that found the device ends with no event in place,
    so a notification that arrives between cycles is recorded in
    [_response_data] and signals nothing; a cycle that did not find the
    device leaves the coordinator untouched. *)
Theorem cycle_leaves_no_event (c : cycle) (self : coordinator) :
  let after := final (_async_update_data c self) in
  (device_found c = true ->
   _response_event after = None /\
   forall late, _notification_handler late after
                = set_response_data (Some late) after) /\
  (device_found c = false -> after = self).
Proof.
  cbv zeta. pose proof (cycle_cases c self) as Hc. cbv zeta in Hc.
  destruct Hc as [(Hd & ->)|[(Hd & _ & ->)|(Hd & _ & ->)]];
    cbn [final fst snd]; split; intros Hdev; try congruence.
  - split; [reflexivity|]. intros late. reflexivity.
  - split; [reflexivity|]. intros late. reflexivity.
Qed.

Lemma cycle_leaves_no_event_witness :
  _response_event
    (final (_async_update_data
              (cycle_with [DEVICE_INFO_RESPONSE] [STATUS_RESPONSE]) init))
  = None.
Proof.
  exact (proj1 (proj1 (cycle_leaves_no_event
    (cycle_with [DEVICE_INFO_RESPONSE] [STATUS_RESPONSE]) init) eq_refl)).
Defined.

(** X12: [_fetch_device_info] is idempotent: once a call has returned,
    every further call returns at once, without a write and without
    touching the coordinator. *)
Theorem fetch_device_info_idempotent (x x' : exchange) (self : coordinator) :
  outcome (_fetch_device_info x self) = Return tt ->
  let self1 := final (_fetch_device_info x self) in
  _fetch_device_info x' self1 = (Return tt, self1, []).
Proof.
  intros Hret self1. subst self1.
  pose proof (fetch_device_info_cases x self) as Hcases. cbv zeta in Hcases.
  destruct Hcases as [(_ & Hf & _ & Ht)|[(_ & _ & _ & Hk)|(_ & _ & _ & H)]].
  - rewrite Hf. destruct (_device_info self) as [info|] eqn:Hc;
      [|discriminate].
    exact (fetch_device_info_cached x' self info Hc).
  - destruct Hk as [H|[H|[H|H]]]; congruence.
  - destruct H as (data & info & _ & _ & H).
    exact (fetch_device_info_cached x' _ info H).
Qed.

Lemma fetch_device_info_idempotent_witness :
  _fetch_device_info (answered [])
    (final (_fetch_device_info (answered [DEVICE_INFO_RESPONSE]) init))
  = (Return tt,
     final (_fetch_device_info (answered [DEVICE_INFO_RESPONSE]) init), []).
Proof.
  apply (fetch_device_info_idempotent
           (answered [DEVICE_INFO_RESPONSE]) (answered []) init).
  vm_compute. reflexivity.
Defined.

(** *** The response slot does not outlive a request *)

Lemma armed_eq self self' :
  _device_info self = _device_info self' -> armed self = armed self'.
Proof.
  destruct self, self'. cbn. intros ->. reflexivity.
Qed.

Lemma fetch_frame x self self' :
  _device_info self = _device_info self' ->
  outcome (_fetch_device_info x self) = outcome (_fetch_device_info x self') /\
  trace (_fetch_device_info x self) = trace (_fetch_device_info x self') /\
  _device_info (final (_fetch_device_info x self))
  = _device_info (final (_fetch_device_info x self')).
Proof.
  intros Heq. destruct (_device_info self) as [info|] eqn:Hc.
  - rewrite (fetch_device_info_cached x self info Hc).
    rewrite (fetch_device_info_cached x self' info (eq_sym Heq)).
    cbn [outcome final trace fst snd]. rewrite Hc, <- Heq. auto.
  - rewrite (fetch_device_info_uncached x self Hc).
    rewrite (fetch_device_info_uncached x self' (eq_sym Heq)).
    rewrite (armed_eq self self') by congruence. auto.
Qed.

Lemma poll_frame c self self' :
  _device_info self = _device_info self' ->
  outcome (poll c self) = outcome (poll c self') /\
  trace (poll c self) = trace (poll c self') /\
  _device_info (final (poll c self)) = _device_info (final (poll c self')).
Proof.
  intros Heq.
  assert (Hconn : _device_info (connected c self)
                  = _device_info (connected c self'))
    by (unfold connected; rewrite !notify_all_device_info; exact Heq).
  destruct (fails (on_start_notify c)) eqn:Hstart.
  { rewrite !(poll_start_notify_fails c _ Hstart).
    cbn [outcome final trace fst snd]. auto. }
  destruct (fetch_frame (info_exchange c) _ _ Hconn) as (Ho & Ht & Hs).
  destruct (_fetch_device_info (info_exchange c) (connected c self))
    as [[r self1] t1] eqn:Hrun.
  destruct (_fetch_device_info (info_exchange c) (connected c self'))
    as [[r' self1'] t1'] eqn:Hrun'.
  cbn [outcome final trace fst snd] in Ho, Ht, Hs. subst r' t1'.
  destruct r as [[]|e].
  - rewrite (status_phase_eq c self self1 t1 Hstart Hrun).
    rewrite (status_phase_eq c self' self1' t1 Hstart Hrun').
    rewrite (armed_eq self1 self1' Hs). auto.
  - rewrite (poll_fetch_raises c self e self1 t1 Hstart Hrun).
    rewrite (poll_fetch_raises c self' e self1' t1 Hstart Hrun').
    cbn [outcome final trace fst snd]. auto.
Qed.

(** X13: what a poll cycle returns or raises, what it writes and
    parses, and the identity it leaves cached depend on the coordinator
    only through the cached identity: the response and the event left
    by earlier cycles play no part. *)
Theorem cycle_ignores_stale_slot (c : cycle) (self self' : coordinator) :
  _device_info self = _device_info self' ->
  outcome (_async_update_data c self) = outcome (_async_update_data c self') /\
  trace (_async_update_data c self) = trace (_async_update_data c self') /\
  _device_info (final (_async_update_data c self))
  = _device_info (final (_async_update_data c self')).
Proof.
  intros Heq.
  pose proof (cycle_cases c self) as Hc. cbv zeta in Hc.
  pose proof (cycle_cases c self') as Hc'. cbv zeta in Hc'.
  destruct Hc as [(Hd & ->)|[(Hd & Hn & ->)|(Hd & Hn & ->)]];
    destruct Hc' as [(Hd' & ->)|[(Hd' & Hn' & ->)|(Hd' & Hn' & ->)]];
    try congruence; cbn [outcome final trace fst snd]; auto.
  destruct (poll_frame c self self' Heq) as (Ho & Ht & Hs).
  rewrite Ho, Ht. cbn [set_response_event _device_info].
  rewrite !notify_all_device_info. auto.
Qed.

Lemma cycle_ignores_stale_slot_witness :
  outcome (_async_update_data
             (cycle_with [DEVICE_INFO_RESPONSE] [STATUS_RESPONSE]) init)
  = outcome (_async_update_data
               (cycle_with [DEVICE_INFO_RESPONSE] [STATUS_RESPONSE])
               (set_response_data (Some STATUS_RESPONSE)
                  (set_response_event (Some true) init))).
Proof.
  refine (proj1 (cycle_ignores_stale_slot
    (cycle_with [DEVICE_INFO_RESPONSE] [STATUS_RESPONSE]) init
    (set_response_data (Some STATUS_RESPONSE)
       (set_response_event (Some true) init)) _)).
  reflexivity.
Defined.

(** X14: the order of the writes of a poll cycle.  A cycle writes at
    most the device-info command and then at most the status-poll
    command; the device-info command is written exactly when the cycle
    reaches the exchange with an empty cache, and the status-poll
    command exactly when the device-info step has returned. *)
Theorem cycle_write_order (c : cycle) (self : coordinator) :
  let w := writes (trace (_async_update_data c self)) in
  let ready :=
    device_found c = true /\ connect_fails c = false /\
    fails (on_start_notify c) = false in
  (w = [] \/ w = [CMD_DEVICE_INFO] \/ w = [CMD_STATUS_POLL] \/
   w = [CMD_DEVICE_INFO; CMD_STATUS_POLL]) /\
  (In CMD_DEVICE_INFO w <-> ready /\ _device_info self = None) /\
  (In CMD_STATUS_POLL w <->
   ready /\
   outcome (_fetch_device_info (info_exchange c) (connected c self))
   = Return tt).
Proof.
  cbv zeta. split; [exact (cycle_writes c self)|].
  pose proof (cycle_cases c self) as Hc. cbv zeta in Hc.
  destruct Hc as [(Hd & ->)|[(Hd & Hn & ->)|(Hd & Hn & ->)]];
    cbn [trace snd writes].
  - split; split; (intros []; fail) || (intros [(H & _) _]; congruence).
  - split; split; (intros []; fail) || (intros [(_ & H & _) _]; congruence).
  - assert (Hdi : _device_info (connected c self) = _device_info self)
      by (unfold connected; apply notify_all_device_info).
    pose proof (fetch_device_info_cases (info_exchange c) (connected c self))
      as Hcases. cbv zeta in Hcases. rewrite Hdi in Hcases.
    destruct (poll_cases c self)
      as [(Hs & ->)|[(Hs & e & self1 & t1 & Hf & ->)
                    |(Hs & self1 & t1 & Hf & Hp)]].
    + cbn [trace snd writes].
      split; split;
        (intros []; fail) || (intros [(_ & _ & H) _]; congruence).
    + rewrite Hf in *. cbn [outcome final trace fst snd] in *.
      destruct Hcases as [(H & _)|[(Hc & _ & Hw & _)|(_ & H & _)]];
        try discriminate.
      rewrite Hw. split; split.
      * intros _. auto.
      * intros _. left. reflexivity.
      * intros [H|[]]. elim (commands_differ H).
      * intros [_ H]. discriminate.
    + destruct (status_phase_shape c self self1 t1 Hs Hf) as [Hw _].
      rewrite Hw. rewrite Hf in *. cbn [outcome final trace fst snd] in *.
      destruct Hcases as [(_ & _ & Ht & Hc)|[(_ & _ & _ & Hk)|(Hc & _ & Ht & _)]].
      * rewrite Ht. cbn [writes app].
        destruct (_device_info self); [|discriminate].
        split; split.
        -- intros [H|[]]. symmetry in H. elim (commands_differ H).
        -- intros [_ H]. discriminate.
        -- auto.
        -- intros _. left. reflexivity.
      * destruct Hk as [H|[H|[H|H]]]; discriminate.
      * rewrite Ht. cbn [writes app]. split; split.
        -- auto.
        -- intros _. left. reflexivity.
        -- auto.
        -- intros _. right. left. reflexivity.
Qed.

(** * Properties of the readings and of the sensors *)

Lemma unpack_H_range b raw : unpack_H b = Return raw -> 0 <= raw < 65536.
Proof.
  destruct b as [|lo [|hi [|]]]; try discriminate. cbn [unpack_H].
  intros E.
  assert (E' : byte_to_Z lo + 256 * byte_to_Z hi = raw) by congruence.
  pose proof (byte_to_Z_range lo). pose proof (byte_to_Z_range hi). lia.
Qed.

Lemma unpack_H_inj b b' raw :
  unpack_H b = Return raw -> unpack_H b' = Return raw -> b = b'.
Proof.
  destruct b as [|lo [|hi [|]]]; try discriminate.
  destruct b' as [|lo' [|hi' [|]]]; try discriminate. cbn [unpack_H].
  intros E E'.
  assert (H : byte_to_Z lo + 256 * byte_to_Z hi
              = byte_to_Z lo' + 256 * byte_to_Z hi') by congruence.
  pose proof (byte_to_Z_range lo). pose proof (byte_to_Z_range hi).
  pose proof (byte_to_Z_range lo'). pose proof (byte_to_Z_range hi').
  assert (byte_to_Z lo = byte_to_Z lo') by lia.
  assert (byte_to_Z hi = byte_to_Z hi') by lia.
  f_equal; [|f_equal]; apply byte_to_Z_inj; assumption.
Qed.

(** [0x1.47acccccccccdp+9] is the binary64 number nearest to 655.35,
    the quotient of the largest raw value. *)
Lemma div_100_range raw :
  0 <= raw < 65536 ->
  PrimFloat.leb 0 (div_100 raw) = true /\
  PrimFloat.leb (div_100 raw) 0x1.47acccccccccdp+9 = true /\
  PrimFloat.is_nan (div_100 raw) = false /\
  PrimFloat.is_infinity (div_100 raw) = false.
Proof.
  intros Hr.
  assert (H : all_bits 16
     (fun raw => PrimFloat.leb 0 (div_100 raw)
                 && PrimFloat.leb (div_100 raw) 0x1.47acccccccccdp+9
                 && negb (PrimFloat.is_nan (div_100 raw))
                 && negb (PrimFloat.is_infinity (div_100 raw))) 0 = true)
    by (vm_compute; reflexivity).
  pose proof (all_u16 _ H raw Hr) as Hp. cbv beta in Hp.
  repeat (apply andb_true_iff in Hp; destruct Hp as [Hp ?]).
  repeat split; try assumption; apply negb_true_iff; assumption.
Qed.

(** The raw value is read back from the float by scaling and
    rounding, so no two raw values give the same float. *)
Lemma div_100_recover raw :
  0 <= raw < 65536 ->
  int_of_float (PrimFloat.add (PrimFloat.mul (div_100 raw) 100) 0.5)
  = Value raw.
Proof.
  intros Hr.
  assert (H : all_bits 16
     (fun raw =>
        match int_of_float
                (PrimFloat.add (PrimFloat.mul (div_100 raw) 100) 0.5) with
        | Value z => z =? raw
        | Fault _ => false
        end) 0 = true)
    by (vm_compute; reflexivity).
  pose proof (all_u16 _ H raw Hr) as Hp. cbv beta in Hp.
  destruct (int_of_float _) as [z|]; [|discriminate].
  apply Z.eqb_eq in Hp. subst z. reflexivity.
Qed.

Lemma div_100_inj raw raw' :
  0 <= raw < 65536 -> 0 <= raw' < 65536 ->
  div_100 raw = div_100 raw' -> raw = raw'.
Proof.
  intros Hr Hr' H.
  pose proof (div_100_recover raw Hr) as E.
  rewrite H, (div_100_recover raw' Hr') in E. congruence.
Qed.

(** X15: the voltage of a reading the parser returns lies between 0
    and 655.35 (the binary64 number [0x1.47acccccccccdp+9], the quotient
    of the largest raw value); it is never negative, infinite or a
    NaN. *)
Theorem parsed_voltage_in_range (data : bytes) (reading : status) :
  parse_status_response data = Return (Some reading) ->
  PrimFloat.leb 0 (voltage reading) = true /\
  PrimFloat.leb (voltage reading) 0x1.47acccccccccdp+9 = true /\
  PrimFloat.is_nan (voltage reading) = false /\
  PrimFloat.is_infinity (voltage reading) = false.
Proof.
  intros Hp. apply parse_status_some in Hp.
  destruct Hp as (_ & _ & _ & _ & raw & sb & cb & Hraw & _ & _ & ->).
  cbn [voltage]. apply div_100_range. exact (unpack_H_range _ _ Hraw).
Qed.

Lemma parsed_voltage_in_range_witness :
  PrimFloat.leb 0 (voltage (reading_known)) = true /\
  PrimFloat.leb (voltage (reading_known)) 0x1.47acccccccccdp+9 = true /\
  PrimFloat.is_nan (voltage (reading_known)) = false /\
  PrimFloat.is_infinity (voltage (reading_known)) = false.
Proof.
  apply (parsed_voltage_in_range STATUS_RESPONSE).
  vm_compute. reflexivity.
Defined.

(** X16: dividing by 100 loses nothing: two accepted status responses
    whose readings show the same voltage carry the same two voltage
    bytes. *)
Theorem parsed_voltage_determines_bytes (data data' : bytes)
  (reading reading' : status) :
  parse_status_response data = Return (Some reading) ->
  parse_status_response data' = Return (Some reading') ->
  voltage reading = voltage reading' ->
  slice (Some 6) (Some 8) data = slice (Some 6) (Some 8) data'.
Proof.
  intros Hp Hp' Hv.
  apply parse_status_some in Hp, Hp'.
  destruct Hp as (_ & _ & _ & _ & raw & sb & cb & Hraw & _ & _ & ->).
  destruct Hp' as (_ & _ & _ & _ & raw' & sb' & cb' & Hraw' & _ & _ & ->).
  cbn [voltage] in Hv.
  apply div_100_inj in Hv;
    [|exact (unpack_H_range _ _ Hraw) | exact (unpack_H_range _ _ Hraw')].
  subst raw'. exact (unpack_H_inj _ _ _ Hraw Hraw').
Qed.

Lemma parsed_voltage_determines_bytes_witness :
  slice (Some 6) (Some 8) STATUS_RESPONSE
  = slice (Some 6) (Some 8) STATUS_RESPONSE_LEN0.
Proof.
  apply (parsed_voltage_determines_bytes STATUS_RESPONSE STATUS_RESPONSE_LEN0
           reading_known reading_known); vm_compute; reflexivity.
Defined.

(** *** The state of charge under the presets *)

Lemma preset_range_listed key p lo hi :
  In (key, p) BATTERY_PRESETS ->
  preset_min p = Some lo -> preset_max p = Some hi ->
  In (lo, hi) preset_ranges.
Proof.
  intros Hin Hlo Hhi. unfold preset_ranges. apply in_flat_map.
  exists (key, p). split; [exact Hin|]. cbn [snd]. rewrite Hlo, Hhi.
  left. reflexivity.
Qed.

Lemma rising_bits_spec k f ok : forall acc a d,
  rising_bits k f ok acc = Some (a, d) ->
  (forall z, acc * 2 ^ Z.of_nat k <= z < (acc + 1) * 2 ^ Z.of_nat k ->
             ok z (f z) = true /\ a <= f z <= d) /\
  (forall z z', acc * 2 ^ Z.of_nat k <= z -> z <= z' ->
                z' < (acc + 1) * 2 ^ Z.of_nat k -> f z <= f z').
Proof.
  induction k as [|k IH]; intros acc a d H.
  - cbn in H. destruct (ok acc (f acc)) eqn:Hok; [|discriminate].
    injection H as <- <-.
    split.
    + intros z Hz. replace z with acc by (cbn in Hz; lia).
      split; [exact Hok | lia].
    + intros z z' Hz Hle Hz'.
      replace z with acc by (cbn in Hz, Hz'; lia).
      replace z' with acc by (cbn in Hz, Hz'; lia). lia.
  - cbn [rising_bits] in H.
    destruct (rising_bits k f ok (2 * acc)) as [[a0 b0]|] eqn:H0;
      [|discriminate].
    destruct (rising_bits k f ok (2 * acc + 1)) as [[c1 d1]|] eqn:H1;
      [|discriminate].
    destruct (b0 <=? c1) eqn:Hbc; [|discriminate].
    injection H as <- <-. apply Z.leb_le in Hbc.
    destruct (IH _ _ _ H0) as [P0 M0]. destruct (IH _ _ _ H1) as [P1 M1].
    rewrite Nat2Z.inj_succ, Z.pow_succ_r by lia.
    assert (Hp : 0 < 2 ^ Z.of_nat k) by (apply Z.pow_pos_nonneg; lia).
    set (half := (2 * acc + 1) * 2 ^ Z.of_nat k).
    assert (Hlow : forall z, acc * (2 * 2 ^ Z.of_nat k) <= z -> z < half ->
                             2 * acc * 2 ^ Z.of_nat k <= z
                             < (2 * acc + 1) * 2 ^ Z.of_nat k)
      by (intros; subst half; nia).
    assert (Hhigh : forall z, half <= z ->
                              z < (acc + 1) * (2 * 2 ^ Z.of_nat k) ->
                              (2 * acc + 1) * 2 ^ Z.of_nat k <= z
                              < (2 * acc + 1 + 1) * 2 ^ Z.of_nat k)
      by (intros; subst half; nia).
    assert (Hfirst : a0 <= b0).
    { destruct (P0 (2 * acc * 2 ^ Z.of_nat k)) as [_ ?]; [nia | lia]. }
    assert (Hlast : c1 <= d1).
    { destruct (P1 ((2 * acc + 1) * 2 ^ Z.of_nat k)) as [_ ?]; [nia | lia]. }
    split.
    + intros z [Hz Hz'].
      destruct (Z_lt_le_dec z half) as [Hh|Hh].
      * destruct (P0 z (Hlow z Hz Hh)) as [? ?]. split; [assumption | lia].
      * destruct (P1 z (Hhigh z Hh Hz')) as [? ?]. split; [assumption | lia].
    + intros z z' Hz Hle Hz'.
      destruct (Z_lt_le_dec z' half) as [Hh'|Hh'].
      * apply M0; [apply Hlow; lia | exact Hle | exact Hh'].
      * destruct (Z_lt_le_dec z half) as [Hh|Hh].
        -- destruct (P0 z (Hlow z Hz Hh)) as [_ ?].
           destruct (P1 z' (Hhigh z' Hh' Hz')) as [_ ?]. lia.
        -- apply M1; [exact Hh | exact Hle | apply Hhigh; lia].
Qed.

Lemma rising_u16_spec f ok :
  rising_u16 f ok = true ->
  (forall z, 0 <= z < 65536 -> ok z (f z) = true) /\
  (forall z z', 0 <= z -> z <= z' -> z' < 65536 -> f z <= f z').
Proof.
  unfold rising_u16. intros H.
  destruct (rising_bits 16 f ok 0) as [[a d]|] eqn:E; [|discriminate].
  destruct (rising_bits_spec 16 f ok 0 a d E) as [P M].
  change (2 ^ Z.of_nat 16) with 65536 in P, M.
  split.
  - intros z Hz. apply P. lia.
  - intros z z' Hz Hle Hz'. apply M; lia.
Qed.

Lemma preset_ranges_rising lo hi :
  In (lo, hi) preset_ranges ->
  rising_u16 (soc_of_raw lo hi) (soc_ok lo hi) = true.
Proof.
  intros Hin.
  assert (H : forallb (fun r => rising_u16 (soc_of_raw (fst r) (snd r))
                                  (soc_ok (fst r) (snd r)))
                preset_ranges = true) by (vm_compute; reflexivity).
  rewrite forallb_forall in H. exact (H _ Hin).
Qed.

Lemma preset_ranges_checked lo hi raw :
  In (lo, hi) preset_ranges -> 0 <= raw < 65536 ->
  soc_check lo hi raw = true.
Proof.
  intros Hin Hr.
  exact (proj1 (rising_u16_spec _ _ (preset_ranges_rising lo hi Hin)) raw Hr).
Qed.

(** The sensor looks at the voltage of the reading only. *)
Lemma soc_of_reading reading raw lo hi :
  voltage reading = div_100 raw ->
  BatterySoCSensor.native_value (Some reading) (Some lo) (Some hi)
  = BatterySoCSensor.native_value
      (Some {| voltage := div_100 raw; battery_ok := true; charging := false |})
      (Some lo) (Some hi).
Proof.
  destruct reading as [v ok chg]. cbn [voltage]. intros ->. reflexivity.
Qed.

Lemma soc_of_raw_number lo hi raw :
  0 <= soc_of_raw lo hi raw ->
  BatterySoCSensor.native_value
    (Some {| voltage := div_100 raw; battery_ok := true; charging := false |})
    (Some lo) (Some hi)
  = Value (Some (soc_of_raw lo hi raw)).
Proof.
  unfold soc_of_raw.
  destruct (BatterySoCSensor.native_value _ _ _) as [[n|]|e];
    [reflexivity | lia | lia].
Qed.

Lemma soc_of_raw_monotone lo hi :
  In (lo, hi) preset_ranges ->
  forall raw raw', 0 <= raw <= raw' -> raw' < 65536 ->
  soc_of_raw lo hi raw <= soc_of_raw lo hi raw'.
Proof.
  intros Hin raw raw' Hr Hr'.
  apply (proj2 (rising_u16_spec _ _ (preset_ranges_rising lo hi Hin))); lia.
Qed.

(** What the parser's reading gives the sensor under a preset. *)
Lemma soc_on_preset key p lo hi data reading :
  In (key, p) BATTERY_PRESETS ->
  preset_min p = Some lo -> preset_max p = Some hi ->
  parse_status_response data = Return (Some reading) ->
  exists raw,
    unpack_H (slice (Some 6) (Some 8) data) = Return raw /\
    0 <= raw < 65536 /\
    voltage reading = div_100 raw /\
    In (lo, hi) preset_ranges /\
    soc_check lo hi raw = true /\
    BatterySoCSensor.native_value (Some reading) (Some lo) (Some hi)
    = Value (Some (soc_of_raw lo hi raw)).
Proof.
  intros Hin Hlo Hhi Hp. apply parse_status_some in Hp.
  destruct Hp as (_ & _ & _ & _ & raw & sb & cb & Hraw & _ & _ & ->).
  pose proof (unpack_H_range _ _ Hraw) as Hr.
  pose proof (preset_range_listed key p lo hi Hin Hlo Hhi) as Hrange.
  pose proof (preset_ranges_checked lo hi raw Hrange Hr) as Hc.
  exists raw. repeat split; try assumption; try lia.
  rewrite (soc_of_reading _ raw) by reflexivity.
  apply soc_of_raw_number.
  unfold soc_check, soc_ok in Hc.
  repeat (apply andb_true_iff in Hc; destruct Hc as [Hc ?]). lia.
Qed.

(** X17: under every preset of [BATTERY_PRESETS] that has a range, and
    for every reading the parser can return, the state-of-charge sensor
    raises nothing and shows a number from 0 to 100: 0 when the voltage
    is at most the preset's minimum, 100 when it is at least the
    maximum. *)
Theorem soc_within_bounds_on_presets (key : String.string) (p : preset)
  (lo hi : float) (data : bytes) (reading : status) :
  In (key, p) BATTERY_PRESETS ->
  preset_min p = Some lo -> preset_max p = Some hi ->
  parse_status_response data = Return (Some reading) ->
  exists n,
    BatterySoCSensor.native_value (Some reading) (Some lo) (Some hi)
    = Value (Some n) /\
    0 <= n <= 100 /\
    (PrimFloat.leb (voltage reading) lo = true -> n = 0) /\
    (PrimFloat.leb hi (voltage reading) = true -> n = 100).
Proof.
  intros Hin Hlo Hhi Hp.
  destruct (soc_on_preset key p lo hi data reading Hin Hlo Hhi Hp)
    as (raw & _ & Hr & Hv & _ & Hc & Hn).
  exists (soc_of_raw lo hi raw). split; [exact Hn|].
  unfold soc_check, soc_ok in Hc.
  repeat (apply andb_true_iff in Hc; destruct Hc as [Hc ?]).
  rewrite Hv. repeat split; try lia.
  - intros E. rewrite E in *. lia.
  - intros E. rewrite E in *. lia.
Qed.

(** X18: under every preset that has a range, the state of charge
    never decreases when the raw voltage of the response grows. *)
Theorem soc_monotone_on_presets (key : String.string) (p : preset)
  (lo hi : float) (data data' : bytes) (reading reading' : status)
  (raw raw' n n' : Z) :
  In (key, p) BATTERY_PRESETS ->
  preset_min p = Some lo -> preset_max p = Some hi ->
  parse_status_response data = Return (Some reading) ->
  parse_status_response data' = Return (Some reading') ->
  unpack_H (slice (Some 6) (Some 8) data) = Return raw ->
  unpack_H (slice (Some 6) (Some 8) data') = Return raw' ->
  raw <= raw' ->
  BatterySoCSensor.native_value (Some reading) (Some lo) (Some hi)
  = Value (Some n) ->
  BatterySoCSensor.native_value (Some reading') (Some lo) (Some hi)
  = Value (Some n') ->
  n <= n'.
Proof.
  intros Hin Hlo Hhi Hp Hp' Hraw Hraw' Hle Hn Hn'.
  destruct (soc_on_preset key p lo hi data reading Hin Hlo Hhi Hp)
    as (r & Hr1 & Hr & _ & Hrange & _ & Hs).
  destruct (soc_on_preset key p lo hi data' reading' Hin Hlo Hhi Hp')
    as (r' & Hr1' & Hr' & _ & _ & _ & Hs').
  assert (r = raw) by congruence. assert (r' = raw') by congruence.
  subst r r'.
  assert (n = soc_of_raw lo hi raw) by congruence.
  assert (n' = soc_of_raw lo hi raw') by congruence.
  subst n n'. apply soc_of_raw_monotone; [exact Hrange | lia | lia].
Qed.

(** *** The binary sensors *)

Lemma index_byte data i z :
  index data i = Return z ->
  exists b, nth_error data i = Some b /\ z = byte_to_Z b.
Proof.
  unfold index. destruct (nth_error data i) as [b|]; [|discriminate].
  intros [= <-]. eauto.
Qed.

(** X19: [BatteryStatusSensor.is_on] shows nothing without data; on a
    parsed status response it is on exactly when byte 8 is not [02],
    whatever else the byte is. *)
Theorem battery_status_sensor_follows_byte (data : bytes) (reading : status) :
  BatteryStatusSensor.is_on None = None /\
  (parse_status_response data = Return (Some reading) ->
   exists b, nth_error data 8 = Some b /\
     (BatteryStatusSensor.is_on (Some reading) = Some true <-> b <> x02) /\
     (BatteryStatusSensor.is_on (Some reading) = Some false <-> b = x02)).
Proof.
  split; [reflexivity|]. intros Hp. apply parse_status_some in Hp.
  destruct Hp as (_ & _ & _ & _ & raw & sb & cb & _ & H8 & _ & ->).
  destruct (index_byte _ _ _ H8) as (b & Hb & ->). exists b.
  split; [exact Hb|]. cbn [BatteryStatusSensor.is_on battery_ok].
  change 2 with (byte_to_Z x02).
  pose proof (byte_to_Z_eqb b x02) as E.
  destruct (byte_to_Z b =? byte_to_Z x02); cbn [negb]; split; split;
    intros H; try congruence; try tauto.
  - intros ->. destruct E as [_ E]. specialize (E eq_refl). discriminate.
  - destruct E as [_ E]. specialize (E H). discriminate.
Qed.

Lemma battery_status_sensor_follows_byte_witness :
  exists b, nth_error STATUS_RESPONSE 8 = Some b /\
    (BatteryStatusSensor.is_on (Some reading_known) = Some true <-> b <> x02) /\
    (BatteryStatusSensor.is_on (Some reading_known) = Some false <-> b = x02).
Proof.
  apply (proj2 (battery_status_sensor_follows_byte STATUS_RESPONSE
                  reading_known)).
  vm_compute. reflexivity.
Defined.

(** X20: [ChargingSensor.is_on] returns the negation of the charging
    flag: on a parsed status response it is on exactly when byte 9 is
    not [01], that is, when the device does not report charging. *)
Theorem charging_sensor_is_inverted (data : bytes) (reading : status) :
  ChargingSensor.is_on None = None /\
  (parse_status_response data = Return (Some reading) ->
   exists b, nth_error data 9 = Some b /\
     ChargingSensor.is_on (Some reading) = Some (negb (charging reading)) /\
     (ChargingSensor.is_on (Some reading) = Some true <-> b <> x01) /\
     (ChargingSensor.is_on (Some reading) = Some false <-> b = x01)).
Proof.
  split; [reflexivity|]. intros Hp. apply parse_status_some in Hp.
  destruct Hp as (_ & _ & _ & _ & raw & sb & cb & _ & _ & H9 & ->).
  destruct (index_byte _ _ _ H9) as (b & Hb & ->). exists b.
  split; [exact Hb|]. cbn [ChargingSensor.is_on charging].
  split; [reflexivity|].
  change 1 with (byte_to_Z x01).
  pose proof (byte_to_Z_eqb b x01) as E.
  destruct (byte_to_Z b =? byte_to_Z x01); cbn [negb]; split; split;
    intros H; try congruence; try tauto.
  - intros ->. destruct E as [_ E]. specialize (E eq_refl). discriminate.
  - destruct E as [_ E]. specialize (E H). discriminate.
Qed.

Lemma charging_sensor_is_inverted_witness :
  exists b, nth_error STATUS_RESPONSE 9 = Some b /\
    ChargingSensor.is_on (Some reading_known)
    = Some (negb (charging reading_known)) /\
    (ChargingSensor.is_on (Some reading_known) = Some true <-> b <> x01) /\
    (ChargingSensor.is_on (Some reading_known) = Some false <-> b = x01).
Proof.
  apply (proj2 (charging_sensor_is_inverted STATUS_RESPONSE reading_known)).
  vm_compute. reflexivity.
Defined.

(** *** The identity sensors *)

Lemma model_of_cache self :
  ModelSensor.native_value self = option_map model (_device_info self).
Proof.
  unfold ModelSensor.native_value, KonnweiCoordinator.device_info.
  destruct (_device_info self); reflexivity.
Qed.

Lemma firmware_of_cache self :
  FirmwareSensor.native_value self
  = option_map fw_version (_device_info self).
Proof.
  unfold FirmwareSensor.native_value, KonnweiCoordinator.device_info.
  destruct (_device_info self); reflexivity.
Qed.

(** The cache after a cycle: kept when it was set, and otherwise set
    only from a parsed response. *)
Lemma cycle_cache c self :
  let after := final (_async_update_data c self) in
  _device_info after = _device_info self \/
  _device_info self = None /\
  exists d info,
    d = last (delivered (info_exchange c)) [] /\
    parse_device_info_response d = Return (Some info) /\
    _device_info after = Some info.
Proof.
  cbv zeta. pose proof (cycle_cases c self) as Hc. cbv zeta in Hc.
  destruct Hc as [(_ & ->)|[(_ & _ & ->)|(_ & _ & ->)]];
    cbn [final fst snd]; [left; reflexivity..|].
  cbn [set_response_event _device_info]. rewrite notify_all_device_info.
  assert (Hdi : _device_info (connected c self) = _device_info self)
    by (unfold connected; apply notify_all_device_info).
  pose proof (fetch_device_info_cases (info_exchange c) (connected c self))
    as Hcases. cbv zeta in Hcases. rewrite Hdi in Hcases.
  destruct (poll_cases c self)
    as [(Hs & ->)|[(Hs & e & self1 & t1 & Hf & ->)
                  |(Hs & self1 & t1 & Hf & Hp)]]; cbn [final fst snd].
  - left. exact Hdi.
  - rewrite Hf in Hcases. cbn [outcome final trace fst snd] in Hcases.
    destruct Hcases as [(H & _)|[(Hc & Hn & _)|(_ & H & _)]];
      try discriminate.
    left. congruence.
  - destruct (status_phase_shape c self self1 t1 Hs Hf) as [_ Hk].
    rewrite Hk.
    assert (Hparse := fetch_parses (info_exchange c) (connected c self)).
    rewrite Hf in Hcases, Hparse.
    cbn [outcome final trace fst snd] in Hcases, Hparse.
    destruct Hcases as [(_ & Hsame & _)|[(_ & _ & _ & Hk')
                                        |(Hc & _ & _ & d & info & Hd & Hin & Hi)]].
    + left. rewrite Hsame. exact Hdi.
    + destruct Hk' as [H|[H|[H|H]]]; discriminate.
    + right. split; [exact Hc|]. exists d, info.
      destruct (Hparse d Hin) as (_ & _ & Hlast & _). auto.
Qed.

(** X21: the model and firmware sensors show nothing before a
    device-info response has been parsed, and once they show a value no
    poll cycle changes it. *)
Theorem identity_sensors_are_stable (c : cycle) (self : coordinator) :
  ModelSensor.native_value init = None /\
  FirmwareSensor.native_value init = None /\
  (_device_info self <> None ->
   let after := final (_async_update_data c self) in
   ModelSensor.native_value after = ModelSensor.native_value self /\
   FirmwareSensor.native_value after = FirmwareSensor.native_value self).
Proof.
  split; [reflexivity|]. split; [reflexivity|].
  intros Hset after. subst after.
  rewrite !model_of_cache, !firmware_of_cache.
  pose proof (cycle_cache c self) as Hc. cbv zeta in Hc.
  destruct Hc as [->|[H _]]; [auto | contradiction].
Qed.

Lemma identity_sensors_are_stable_witness :
  ModelSensor.native_value
    (final (_async_update_data (cycle_with [] [])
              (final (_async_update_data
                        (cycle_with [DEVICE_INFO_RESPONSE] [STATUS_RESPONSE])
                        init))))
  = ModelSensor.native_value
      (final (_async_update_data
                (cycle_with [DEVICE_INFO_RESPONSE] [STATUS_RESPONSE]) init)).
Proof.
  refine (proj1 (proj2 (proj2 (identity_sensors_are_stable (cycle_with [] [])
    (final (_async_update_data
              (cycle_with [DEVICE_INFO_RESPONSE] [STATUS_RESPONSE]) init))))
    _)).
  vm_compute. discriminate.
Defined.

(** X22: after a cycle that started with an empty cache and returned a
    reading, the model and firmware sensors show the texts of the
    fields at offsets 6 and 26 of the last device-info notification,
    which passed [validate_packet]. *)
Theorem identity_sensors_show_parsed_fields (c : cycle) (self : coordinator)
  (reading : status) :
  _device_info self = None ->
  outcome (_async_update_data c self) = Return reading ->
  let after := final (_async_update_data c self) in
  let d := last (delivered (info_exchange c)) [] in
  validate_packet d = true /\
  ModelSensor.native_value after
  = Some (decode_ascii_ignore (rstrip [x00] (slice (Some 6) (Some 16) d))) /\
  FirmwareSensor.native_value after
  = Some (decode_ascii_ignore (rstrip [x00] (slice (Some 26) (Some 36) d))).
Proof.
  intros Hempty Hret after d. subst after d.
  rewrite model_of_cache, firmware_of_cache.
  destruct (successful_poll_fills_cache c self reading Hret) as [info Hinfo].
  pose proof (cycle_cache c self) as Hc. cbv zeta in Hc.
  destruct Hc as [H|(_ & d & info' & -> & Hp & Hi)]; [congruence|].
  rewrite Hi. apply parse_device_info_some in Hp.
  destruct Hp as (_ & _ & _ & Hv & ->). auto.
Qed.

(** * Properties of the configuration steps *)

Lemma preset_of_found battery_type p :
  preset_of battery_type = Found p -> In (battery_type, p) BATTERY_PRESETS.
Proof.
  unfold preset_of.
  destruct (find _ BATTERY_PRESETS) as [[key q]|] eqn:E; [|discriminate].
  intros [= <-]. apply find_some in E. destruct E as [Hin Hk].
  cbn [fst] in Hk. apply String.eqb_eq in Hk. subst key. exact Hin.
Qed.

(** Every preset but [custom] has a range, inside the limits the flows
    put on a custom range. *)
Lemma presets_are_usable key p :
  In (key, p) BATTERY_PRESETS -> key <> CUSTOM ->
  exists lo hi,
    preset_min p = Some lo /\ preset_max p = Some hi /\ usable_range lo hi.
Proof.
  intros Hin Hk. unfold BATTERY_PRESETS in Hin. cbn [In] in Hin.
  repeat (destruct Hin as [Hin|Hin];
          [injection Hin as <- <-; eexists; eexists;
           (split; [reflexivity|]); (split; [reflexivity|]);
           repeat split; vm_compute; reflexivity|]).
  destruct Hin as [Hin|[]]. injection Hin as <- _. elim Hk. reflexivity.
Qed.

(** What [check_range] has established when it reports no error. *)
Lemma check_range_passes input battery_type voltage_min voltage_max :
  check_range input = Found (battery_type, None, voltage_min, voltage_max) ->
  ui_battery_type input = Some battery_type /\
  exists lo hi,
    voltage_min = Some lo /\ voltage_max = Some hi /\ usable_range lo hi /\
    ((battery_type = CUSTOM /\
      ui_voltage_min input = Some lo /\ ui_voltage_max input = Some hi) \/
     (battery_type <> CUSTOM /\
      exists p, In (battery_type, p) BATTERY_PRESETS /\
                preset_min p = Some lo /\ preset_max p = Some hi)).
Proof.
  unfold check_range.
  destruct (ui_battery_type input) as [bt|]; [|discriminate].
  fold CUSTOM.
  destruct (String.eqb bt CUSTOM) eqn:Ebt.
  - apply String.eqb_eq in Ebt. subst bt.
    destruct (ui_voltage_min input) as [lo|]; [|discriminate].
    destruct (ui_voltage_max input) as [hi|]; [|discriminate].
    destruct (PrimFloat.leb hi lo) eqn:E1; [discriminate|].
    destruct (PrimFloat.ltb MAX_VOLTAGE_LIMIT hi) eqn:E2; [discriminate|].
    destruct (PrimFloat.ltb lo MIN_VOLTAGE_LIMIT) eqn:E3; [discriminate|].
    cbn [orb]. intros [= <- <- <-]. split; [reflexivity|].
    exists lo, hi. unfold usable_range. auto 10.
  - apply String.eqb_neq in Ebt.
    destruct (preset_of bt) as [p|] eqn:Ep; [|discriminate].
    intros [= <- <- <-]. split; [reflexivity|].
    apply preset_of_found in Ep.
    destruct (presets_are_usable bt p Ep Ebt) as (lo & hi & Hlo & Hhi & Hu).
    exists lo, hi. repeat split; try assumption; try apply Hu.
    right. split; [exact Ebt|]. eauto.
Qed.

(** The options of an entry a step has created. *)
Lemma created_by_check title data options :
  (exists unique_id discovery_name input,
      KonnweiConfigFlow.async_step_confirm unique_id discovery_name input
      = Found (CreateEntry title data options)) \/
  (exists input,
      KonnweiOptionsFlow.async_step_init input
      = Found (CreateEntry title data options)) ->
  exists input,
    check_range input
    = Found (opt_battery_type options, None,
             opt_voltage_min options, opt_voltage_max options).
Proof.
  intros [(uid & dn & [ui|] & H)|([ui|] & H)]; try discriminate.
  - unfold KonnweiConfigFlow.async_step_confirm in H.
    destruct (check_range ui) as [[[[bt [e|]] lo] hi]|] eqn:E;
      try discriminate.
    injection H as _ _ <-. exists ui. exact E.
  - unfold KonnweiOptionsFlow.async_step_init in H.
    destruct (check_range ui) as [[[[bt [e|]] lo] hi]|] eqn:E;
      try discriminate.
    destruct (ui_poll_interval ui); [|discriminate].
    injection H as _ _ <-. exists ui. exact E.
Qed.

(** *** Comparisons of floats that are not NaN *)

Lemma SFcompare_antisym x y :
  SFcompare y x = option_map CompOpp (SFcompare x y).
Proof.
  destruct x as [sx|sx| |sx mx ex], y as [sy|sy| |sy my ey]; cbn;
    try reflexivity;
    try (destruct sx; reflexivity); try (destruct sy; reflexivity);
    try (destruct sx, sy; reflexivity).
  change (PosDef.Pos.compare_cont Eq my mx) with (Pos.compare my mx).
  change (PosDef.Pos.compare_cont Eq mx my) with (Pos.compare mx my).
  rewrite (Z.compare_antisym ex ey), (Pos.compare_antisym mx my).
  destruct sx, sy; try reflexivity;
    destruct (ex ?= ey); cbn; try reflexivity;
    destruct (mx ?= my)%positive; reflexivity.
Qed.

Lemma SFcompare_none x y :
  SFcompare x y = None -> x = S754_nan \/ y = S754_nan.
Proof.
  destruct x as [sx|sx| |sx mx ex], y as [sy|sy| |sy my ey]; cbn; auto;
    discriminate.
Qed.

Lemma is_nan_false x : PrimFloat.is_nan x = false -> Prim2SF x <> S754_nan.
Proof.
  unfold PrimFloat.is_nan. rewrite eqb_spec. intros H E. rewrite E in H.
  discriminate.
Qed.

(** Among floats that are not NaN, [not (y <= x)] is [x < y]. *)
Lemma not_leb_ltb x y :
  PrimFloat.is_nan x = false -> PrimFloat.is_nan y = false ->
  PrimFloat.leb y x = false -> PrimFloat.ltb x y = true.
Proof.
  intros Hx Hy. apply is_nan_false in Hx, Hy.
  rewrite leb_spec, ltb_spec. unfold SFleb, SFltb.
  rewrite (SFcompare_antisym (Prim2SF x) (Prim2SF y)).
  destruct (SFcompare (Prim2SF x) (Prim2SF y)) as [[]|] eqn:E; cbn;
    try discriminate; try reflexivity.
  destruct (SFcompare_none _ _ E); contradiction.
Qed.

(** Among floats that are not NaN, [not (x < y)] is [y <= x]. *)
Lemma not_ltb_leb x y :
  PrimFloat.is_nan x = false -> PrimFloat.is_nan y = false ->
  PrimFloat.ltb x y = false -> PrimFloat.leb y x = true.
Proof.
  intros Hx Hy. apply is_nan_false in Hx, Hy.
  rewrite leb_spec, ltb_spec. unfold SFleb, SFltb.
  rewrite (SFcompare_antisym (Prim2SF x) (Prim2SF y)).
  destruct (SFcompare (Prim2SF x) (Prim2SF y)) as [[]|] eqn:E; cbn;
    try discriminate; try reflexivity.
  destruct (SFcompare_none _ _ E); contradiction.
Qed.

(** X23: an entry created by the confirm step or by the options step
    stores a minimum and a maximum that the state-of-charge sensor
    accepts, and, unless one of them is a NaN, with
    [MIN_VOLTAGE_LIMIT <= min < max <= MAX_VOLTAGE_LIMIT]: for a custom
    range by the checks of the step, for a preset by the table. *)
Theorem created_entry_has_usable_range (title : String.string)
  (data : list (String.string * String.string)) (options : entry_options) :
  (exists unique_id discovery_name input,
      KonnweiConfigFlow.async_step_confirm unique_id discovery_name input
      = Found (CreateEntry title data options)) \/
  (exists input,
      KonnweiOptionsFlow.async_step_init input
      = Found (CreateEntry title data options)) ->
  exists lo hi,
    opt_voltage_min options = Some lo /\
    opt_voltage_max options = Some hi /\
    PrimFloat.leb hi lo = false /\
    (forall reading,
        BatterySoCSensor.native_value (Some reading) (Some lo) (Some hi)
        <> Value None) /\
    (PrimFloat.is_nan lo = false -> PrimFloat.is_nan hi = false ->
     PrimFloat.leb MIN_VOLTAGE_LIMIT lo = true /\
     PrimFloat.ltb lo hi = true /\
     PrimFloat.leb hi MAX_VOLTAGE_LIMIT = true).
Proof.
  intros Hc. destruct (created_by_check title data options Hc) as [ui Hu].
  destruct (check_range_passes _ _ _ _ Hu)
    as (_ & lo & hi & Hlo & Hhi & (H1 & H2 & H3) & _).
  exists lo, hi. repeat split; try assumption.
  - intros reading. unfold BatterySoCSensor.native_value. rewrite H1.
    destruct (float_truediv _ _) as [ratio|e]; [|discriminate].
    destruct (int_of_float _); discriminate.
  - apply not_ltb_leb; [assumption | reflexivity | assumption].
  - apply not_leb_ltb; assumption.
  - apply not_ltb_leb; [reflexivity | assumption | assumption].
Qed.

(** X24: an entry created by either step for a battery type other than
    [custom] stores the range of that preset, whatever voltages the
    form carried, and with it the state-of-charge sensor shows a number
    from 0 to 100 for every reading the parser can return. *)
Theorem preset_entry_gives_state_of_charge (title : String.string)
  (data : list (String.string * String.string)) (options : entry_options)
  (response : bytes) (reading : status) :
  (exists unique_id discovery_name input,
      KonnweiConfigFlow.async_step_confirm unique_id discovery_name input
      = Found (CreateEntry title data options)) \/
  (exists input,
      KonnweiOptionsFlow.async_step_init input
      = Found (CreateEntry title data options)) ->
  opt_battery_type options <> CUSTOM ->
  parse_status_response response = Return (Some reading) ->
  (exists p, In (opt_battery_type options, p) BATTERY_PRESETS /\
             opt_voltage_min options = preset_min p /\
             opt_voltage_max options = preset_max p) /\
  exists n,
    BatterySoCSensor.native_value (Some reading)
      (opt_voltage_min options) (opt_voltage_max options)
    = Value (Some n) /\
    0 <= n <= 100.
Proof.
  intros Hc Hk Hp. destruct (created_by_check title data options Hc) as [ui Hu].
  destruct (check_range_passes _ _ _ _ Hu)
    as (_ & lo & hi & Hlo & Hhi & _ & [(H & _)|(_ & p & Hin & Hpl & Hph)]);
    [contradiction|].
  split; [exists p; split; [exact Hin|]; split; congruence|].
  rewrite Hlo, Hhi.
  destruct (soc_on_preset _ p lo hi response reading Hin Hpl Hph Hp)
    as (raw & _ & _ & _ & _ & Hchk & Hn).
  exists (soc_of_raw lo hi raw). split; [exact Hn|].
  unfold soc_check, soc_ok in Hchk.
  repeat (apply andb_true_iff in Hchk; destruct Hchk as [Hchk ?]). lia.
Qed.

(** *** A NaN in a custom range *)

Lemma leb_nan_r x : PrimFloat.leb x PrimFloat.nan = false.
Proof.
  rewrite leb_spec. change (Prim2SF PrimFloat.nan) with S754_nan.
  unfold SFleb. destruct (Prim2SF x); reflexivity.
Qed.

Lemma ltb_nan_l y : PrimFloat.ltb PrimFloat.nan y = false.
Proof.
  rewrite ltb_spec. change (Prim2SF PrimFloat.nan) with S754_nan.
  reflexivity.
Qed.

Lemma sub_nan_r x : Prim2SF (PrimFloat.sub x PrimFloat.nan) = S754_nan.
Proof.
  rewrite sub_spec. change (Prim2SF PrimFloat.nan) with S754_nan.
  unfold SF64sub, SFsub. destruct (Prim2SF x); reflexivity.
Qed.

Lemma soc_of_nan b : Prim2SF b = S754_nan ->
  forall a, Prim2SF a = S754_nan ->
  match float_truediv a b with
  | Fault e => Fault e
  | Value ratio =>
      match int_of_float (PrimFloat.mul ratio 100) with
      | Fault e => Fault e
      | Value whole => Value (Some (Z.max 0 (Z.min 100 whole)))
      end
  end = Fault ValueError.
Proof.
  intros Hb a Ha. unfold float_truediv.
  rewrite eqb_spec, Hb. cbn [SFeqb SFcompare].
  unfold int_of_float. rewrite mul_spec, div_spec, Ha, Hb. reflexivity.
Qed.

(** X25: the checks on a custom range let a NaN minimum through: with
    a maximum not above [MAX_VOLTAGE_LIMIT] the options step creates the
    entry, and with the stored range the state-of-charge sensor raises
    [ValueError] on every reading. *)
Theorem nan_minimum_is_accepted_and_breaks_soc (hi : float) (poll : Z) :
  PrimFloat.ltb MAX_VOLTAGE_LIMIT hi = false ->
  KonnweiOptionsFlow.async_step_init
    (Some {| ui_battery_type := Some CUSTOM;
             ui_voltage_min := Some PrimFloat.nan;
             ui_voltage_max := Some hi;
             ui_poll_interval := Some poll |})
  = Found (CreateEntry String.EmptyString []
             {| opt_battery_type := CUSTOM;
                opt_voltage_min := Some PrimFloat.nan;
                opt_voltage_max := Some hi;
                opt_poll_interval := poll |}) /\
  forall reading,
    BatterySoCSensor.native_value (Some reading) (Some PrimFloat.nan) (Some hi)
    = Fault ValueError.
Proof.
  intros Hhi. split.
  - unfold KonnweiOptionsFlow.async_step_init, check_range.
    cbn [ui_battery_type ui_voltage_min ui_voltage_max ui_poll_interval].
    change (String.eqb CUSTOM _) with true. cbv iota.
    rewrite leb_nan_r, Hhi, ltb_nan_l. reflexivity.
  - intros reading. unfold BatterySoCSensor.native_value.
    rewrite leb_nan_r. apply soc_of_nan; apply sub_nan_r.
Qed.

(** *** Missing keys *)

Lemma preset_of_key_error battery_type :
  preset_of battery_type = KeyError <->
  forall p, ~ In (battery_type, p) BATTERY_PRESETS.
Proof.
  unfold preset_of.
  destruct (find _ BATTERY_PRESETS) as [[key q]|] eqn:E; split.
  - discriminate.
  - intros H. apply find_some in E. destruct E as [Hin Hk].
    cbn [fst] in Hk. apply String.eqb_eq in Hk. subst key.
    elim (H q Hin).
  - intros _ p Hin. apply (find_none _ _ E) in Hin. cbn [fst] in Hin.
    rewrite String.eqb_refl in Hin. discriminate.
  - reflexivity.
Qed.

Lemma check_range_key_error input :
  check_range input = KeyError <->
  ui_battery_type input = None \/
  exists battery_type,
    ui_battery_type input = Some battery_type /\
    battery_type <> CUSTOM /\
    forall p, ~ In (battery_type, p) BATTERY_PRESETS.
Proof.
  unfold check_range. fold CUSTOM.
  destruct (ui_battery_type input) as [bt|]; [|split; auto].
  destruct (String.eqb bt CUSTOM) eqn:Ebt.
  - apply String.eqb_eq in Ebt. subst bt.
    split.
    + destruct (ui_voltage_min input), (ui_voltage_max input);
        try discriminate.
      destruct (PrimFloat.leb _ _); [discriminate|].
      destruct (_ || _); discriminate.
    + intros [H|(bt & [= <-] & H & _)]; [discriminate | contradiction].
  - apply String.eqb_neq in Ebt.
    destruct (preset_of bt) as [p|] eqn:Ep; split.
    + discriminate.
    + intros [H|(bt' & [= <-] & _ & H)]; [discriminate|].
      apply preset_of_key_error in H. congruence.
    + intros _. right. exists bt. repeat split; [exact Ebt|].
      apply preset_of_key_error, Ep.
    + reflexivity.
Qed.

(** X26: when the two steps raise [KeyError].  Both do for a form
    without a battery type and for a battery type that is neither
    [custom] nor a key of [BATTERY_PRESETS]; the options step also does
    for a form that passes the checks but has no poll interval, where
    the confirm step takes [DEFAULT_POLL_INTERVAL]; with no form
    submitted neither raises. *)
Theorem steps_raise_key_error (unique_id : String.string)
  (discovery_name : option String.string) (input : user_input) :
  let unknown :=
    ui_battery_type input = None \/
    exists battery_type,
      ui_battery_type input = Some battery_type /\
      battery_type <> CUSTOM /\
      forall p, ~ In (battery_type, p) BATTERY_PRESETS in
  (KonnweiConfigFlow.async_step_confirm unique_id discovery_name (Some input)
   = KeyError <-> unknown) /\
  (KonnweiOptionsFlow.async_step_init (Some input) = KeyError <->
   unknown \/
   ui_poll_interval input = None /\
   exists battery_type lo hi,
     check_range input = Found (battery_type, None, lo, hi)) /\
  (ui_poll_interval input = None ->
   forall title data options,
     KonnweiConfigFlow.async_step_confirm unique_id discovery_name (Some input)
     = Found (CreateEntry title data options) ->
     opt_poll_interval options = DEFAULT_POLL_INTERVAL) /\
  KonnweiConfigFlow.async_step_confirm unique_id discovery_name None
  <> KeyError /\
  KonnweiOptionsFlow.async_step_init None <> KeyError.
Proof.
  cbv zeta. pose proof (check_range_key_error input) as Hk.
  unfold KonnweiConfigFlow.async_step_confirm,
    KonnweiOptionsFlow.async_step_init.
  destruct (check_range input) as [[[[bt [e|]] lo] hi]|] eqn:E.
  - repeat split; try discriminate; try (intros H; apply Hk in H; discriminate).
    intros [H|(_ & bt' & lo' & hi' & H)]; [apply Hk in H|]; discriminate.
  - destruct (ui_poll_interval input) as [poll|] eqn:Epoll.
    + repeat split; try discriminate;
        try (intros H; apply Hk in H; discriminate).
      intros [H|(H & _)]; [apply Hk in H|]; discriminate.
    + repeat split; try discriminate;
        try (intros H; apply Hk in H; discriminate).
      * intros _. right. split; [reflexivity|]. eauto.
      * intros _ title data options [= _ _ <-]. reflexivity.
  - repeat split; try discriminate; try (intros _; apply Hk; reflexivity);
      tauto.
Qed.

(** *** The texts of a device identity *)

Lemma string_length_of_bytes l :
  String.length (String.string_of_list_byte l) = length l.
Proof.
  induction l as [|b l IH]; [reflexivity|].
  cbn [length]. rewrite <- IH. reflexivity.
Qed.

Lemma rstrip_length chars b : (length (rstrip chars b) <= length b)%nat.
Proof.
  induction b as [|x rest IH]; [cbn; lia|].
  cbn [rstrip length]. destruct (rstrip chars rest) as [|k kept].
  - destruct (existsb (Byte.eqb x) chars); cbn [length]; lia.
  - cbn [length] in *. lia.
Qed.

Lemma slice_length start stop (data : bytes) i j :
  start = Some i -> stop = Some j -> 0 <= i <= j ->
  (length (slice start stop data) <= Z.to_nat (j - i))%nat.
Proof.
  intros -> -> Hij. unfold slice, slice_bound.
  destruct (i <? 0) eqn:Ei; [lia|]. destruct (j <? 0) eqn:Ej; [lia|].
  rewrite length_firstn. lia.
Qed.

Lemma decoded_field data i :
  let text :=
    decode_ascii_ignore
      (rstrip [x00] (slice (Some i) (Some (i + 10)) data)) in
  0 <= i ->
  (String.length text <= 10)%nat /\
  Forall (fun b => byte_to_Z b < 128) (String.list_byte_of_string text).
Proof.
  cbv zeta. intros Hi. unfold decode_ascii_ignore.
  rewrite string_length_of_bytes, String.list_byte_of_string_of_list_byte.
  set (field := slice (Some i) (Some (i + 10)) data).
  assert (Hf : (length field <= 10)%nat).
  { pose proof (slice_length (Some i) (Some (i + 10)) data i (i + 10)
                  eq_refl eq_refl ltac:(lia)) as H.
    replace (Z.to_nat (i + 10 - i)) with 10%nat in H by lia. exact H. }
  pose proof (rstrip_length [x00] field) as Hr.
  split.
  - pose proof (filter_length_le (fun x => byte_to_Z x <? 128)
                  (rstrip [x00] field)). lia.
  - apply Forall_forall. intros b Hin. apply filter_In in Hin.
    destruct Hin as [_ H]. apply Z.ltb_lt in H. exact H.
Qed.

(** X27: the three texts of a parsed device identity are at most 10
    characters long and hold ASCII characters only. *)
Theorem device_identity_texts_are_short_ascii (data : bytes)
  (info : device_info) :
  parse_device_info_response data = Return (Some info) ->
  let short_ascii text :=
    (String.length text <= 10)%nat /\
    Forall (fun b => byte_to_Z b < 128) (String.list_byte_of_string text) in
  short_ascii (model info) /\
  short_ascii (hw_version info) /\
  short_ascii (fw_version info).
Proof.
  intros Hp. apply parse_device_info_some in Hp.
  destruct Hp as (_ & _ & _ & _ & ->). cbv zeta.
  cbn [model hw_version fw_version].
  split; [|split].
  - exact (decoded_field data 6 ltac:(lia)).
  - exact (decoded_field data 16 ltac:(lia)).
  - exact (decoded_field data 26 ltac:(lia)).
Qed.

(** *** The notification callback *)

(** X28: the callback records every notification, so after a series
    of them [_response_data] holds the last one; it never touches the
    cached identity, sets the event when there is one and creates none
    when there is not. *)
Theorem notifications_keep_the_last (earlier : list bytes) (d : bytes)
  (self : coordinator) :
  let after := notify_all (earlier ++ [d]) self in
  _response_data after = Some d /\
  _device_info after = _device_info self /\
  (_response_event self = None -> _response_event after = None) /\
  (_response_event self <> None -> _response_event after = Some true).
Proof.
  cbv zeta. revert self.
  induction earlier as [|e earlier IH]; intros self.
  - cbn [app]. rewrite notify_all_cons.
    change (notify_all [] ?s) with s.
    destruct self as [di rd [b|]]; cbn; repeat split; congruence.
  - cbn [app]. rewrite notify_all_cons.
    destruct (IH (_notification_handler e self)) as (H1 & H2 & H3 & H4).
    split; [exact H1|]. split.
    + rewrite H2. destruct self as [di rd [b|]]; reflexivity.
    + split; intros H.
      * apply H3. destruct self as [di rd [b|]]; [discriminate|reflexivity].
      * apply H4. destruct self as [di rd [b|]];
          [cbn; discriminate | elim H; reflexivity].
Qed.

(** * Instances of the further properties *)

Lemma parsers_see_fresh_notifications_witness :
  STATUS_RESPONSE <> [] /\
  STATUS_RESPONSE
  = last (delivered (status_exchange
            (cycle_with [DEVICE_INFO_RESPONSE] [STATUS_RESPONSE]))) [] /\
  In STATUS_RESPONSE
     (delivered (status_exchange
        (cycle_with [DEVICE_INFO_RESPONSE] [STATUS_RESPONSE]))).
Proof.
  apply (proj2 (parsers_see_fresh_notifications
                  (cycle_with [DEVICE_INFO_RESPONSE] [STATUS_RESPONSE])
                  (set_response_data (Some STATUS_RESPONSE_LOW) init)
                  STATUS_RESPONSE)).
  vm_compute. auto 10.
Defined.

Lemma soc_within_bounds_on_presets_witness :
  exists n,
    BatterySoCSensor.native_value (Some reading_known)
      (Some LEAD_ACID_MIN) (Some LEAD_ACID_MAX)
    = Value (Some n) /\
    0 <= n <= 100 /\
    (PrimFloat.leb (voltage reading_known) LEAD_ACID_MIN = true -> n = 0) /\
    (PrimFloat.leb LEAD_ACID_MAX (voltage reading_known) = true -> n = 100).
Proof.
  apply (soc_within_bounds_on_presets LEAD_ACID LEAD_ACID_PRESET
           LEAD_ACID_MIN LEAD_ACID_MAX STATUS_RESPONSE reading_known).
  - left. reflexivity.
  - reflexivity.
  - reflexivity.
  - vm_compute. reflexivity.
Defined.

Lemma soc_monotone_on_presets_witness : 65 <= 92.
Proof.
  apply (soc_monotone_on_presets LEAD_ACID LEAD_ACID_PRESET
           LEAD_ACID_MIN LEAD_ACID_MAX STATUS_RESPONSE_LOW STATUS_RESPONSE
           reading_low reading_known 1200 1262 65 92).
  - left. reflexivity.
  - reflexivity.
  - reflexivity.
  - vm_compute. reflexivity.
  - vm_compute. reflexivity.
  - vm_compute. reflexivity.
  - vm_compute. reflexivity.
  - vm_compute. discriminate.
  - vm_compute. reflexivity.
  - vm_compute. reflexivity.
Defined.

Lemma identity_sensors_show_parsed_fields_witness :
  validate_packet
    (last (delivered (info_exchange
             (cycle_with [DEVICE_INFO_RESPONSE] [STATUS_RESPONSE]))) [])
  = true /\
  ModelSensor.native_value
    (final (_async_update_data
              (cycle_with [DEVICE_INFO_RESPONSE] [STATUS_RESPONSE]) init))
  = Some (decode_ascii_ignore
            (rstrip [x00]
               (slice (Some 6) (Some 16)
                  (last (delivered (info_exchange
                           (cycle_with [DEVICE_INFO_RESPONSE]
                              [STATUS_RESPONSE]))) [])))) /\
  FirmwareSensor.native_value
    (final (_async_update_data
              (cycle_with [DEVICE_INFO_RESPONSE] [STATUS_RESPONSE]) init))
  = Some (decode_ascii_ignore
            (rstrip [x00]
               (slice (Some 26) (Some 36)
                  (last (delivered (info_exchange
                           (cycle_with [DEVICE_INFO_RESPONSE]
                              [STATUS_RESPONSE]))) [])))).
Proof.
  apply (identity_sensors_show_parsed_fields
           (cycle_with [DEVICE_INFO_RESPONSE] [STATUS_RESPONSE]) init
           reading_known).
  - reflexivity.
  - vm_compute. reflexivity.
Defined.

Lemma created_entry_has_usable_range_witness :
  exists lo hi,
    ui_voltage_min FORM_CUSTOM = Some lo /\
    ui_voltage_max FORM_CUSTOM = Some hi /\
    PrimFloat.leb hi lo = false /\
    (forall reading,
        BatterySoCSensor.native_value (Some reading) (Some lo) (Some hi)
        <> Value None) /\
    (PrimFloat.is_nan lo = false -> PrimFloat.is_nan hi = false ->
     PrimFloat.leb MIN_VOLTAGE_LIMIT lo = true /\
     PrimFloat.ltb lo hi = true /\
     PrimFloat.leb hi MAX_VOLTAGE_LIMIT = true).
Proof.
  apply (created_entry_has_usable_range String.EmptyString []
           {| opt_battery_type := CUSTOM;
              opt_voltage_min := ui_voltage_min FORM_CUSTOM;
              opt_voltage_max := ui_voltage_max FORM_CUSTOM;
              opt_poll_interval := 60 |}).
  right. exists (Some FORM_CUSTOM). vm_compute. reflexivity.
Defined.

Lemma preset_entry_gives_state_of_charge_witness :
  (exists p, In (LEAD_ACID, p) BATTERY_PRESETS /\
             Some LEAD_ACID_MIN = preset_min p /\
             Some LEAD_ACID_MAX = preset_max p) /\
  exists n,
    BatterySoCSensor.native_value (Some reading_known)
      (Some LEAD_ACID_MIN) (Some LEAD_ACID_MAX)
    = Value (Some n) /\
    0 <= n <= 100.
Proof.
  apply (preset_entry_gives_state_of_charge String.EmptyString []
           {| opt_battery_type := LEAD_ACID;
              opt_voltage_min := Some LEAD_ACID_MIN;
              opt_voltage_max := Some LEAD_ACID_MAX;
              opt_poll_interval := 600 |}
           STATUS_RESPONSE reading_known).
  - right. exists (Some FORM_LEAD_ACID). vm_compute. reflexivity.
  - vm_compute. discriminate.
  - vm_compute. reflexivity.
Defined.

Lemma nan_minimum_is_accepted_and_breaks_soc_witness :
  PrimFloat.ltb MAX_VOLTAGE_LIMIT LEAD_ACID_MAX = false /\
  BatterySoCSensor.native_value (Some reading_known)
    (Some PrimFloat.nan) (Some LEAD_ACID_MAX)
  = Fault ValueError.
Proof.
  split; [reflexivity|].
  refine (proj2 (nan_minimum_is_accepted_and_breaks_soc LEAD_ACID_MAX 600 _)
            reading_known).
  reflexivity.
Defined.

Lemma device_identity_texts_are_short_ascii_witness :
  (String.length (decode_ascii_ignore [x42; x4b; x33; x30]) <= 10)%nat.
Proof.
  refine (proj1 (proj1 (device_identity_texts_are_short_ascii
    DEVICE_INFO_RESPONSE_LATIN1
    {| model := decode_ascii_ignore [x42; x4b; x33; x30];
       hw_version := String.EmptyString;
       fw_version := decode_ascii_ignore [x31; x2e; x30; x2e; x33] |} _))).
  vm_compute. reflexivity.
Defined.

(** * The repository's test vectors *)

Section Samples.
Import String.
Local Open Scope string_scope.

Example crc_empty : crc16_x25 [] = 0.
Proof. reflexivity. Qed.

Example crc_status_poll :
  crc16_x25 [x40; x40; x0a; x00; x0b; x0b] = 0xB2A9.
Proof. vm_compute. reflexivity. Qed.

Example crc_device_info :
  crc16_x25 [x40; x40; x0a; x00; x03; x01] = 0xD333.
Proof. vm_compute. reflexivity. Qed.

Example validate_status_response : validate_packet STATUS_RESPONSE = true.
Proof. vm_compute. reflexivity. Qed.

Example validate_device_info_response :
  validate_packet DEVICE_INFO_RESPONSE = true.
Proof. vm_compute. reflexivity. Qed.

Example validate_too_short : validate_packet [x24; x24] = false.
Proof. vm_compute. reflexivity. Qed.

Example validate_bad_footer :
  validate_packet
    [x24; x24; x0e; x00; x4b; x0b; xee; x04; x02; x01; x08; xb4; x00; x00]
  = false.
Proof. vm_compute. reflexivity. Qed.

Example validate_bad_crc :
  validate_packet
    [x24; x24; x0e; x00; x4b; x0b; xee; x04; x02; x01; x00; x00; x0d; x0a]
  = false.
Proof. vm_compute. reflexivity. Qed.

Example build_with_payload :
  build_packet [x05; x01] [x14; x00]
  = Return [x40; x40; x0c; x00; x05; x01; x14; x00; x0a; xd6; x0d; x0a].
Proof. vm_compute. reflexivity. Qed.

Example build_too_long :
  build_packet [x05; x01] (repeat x00 (Z.to_nat 65526)) = Raise StructError.
Proof. vm_compute. reflexivity. Qed.

Example parse_status_known :
  parse_status_response STATUS_RESPONSE
  = Return (Some {| voltage := 0x1.93d70a3d70a3dp+3;
                    battery_ok := true;
                    charging := true |}).
Proof. vm_compute. reflexivity. Qed.

Example parse_status_low_battery :
  parse_status_response
    [x24; x24; x0e; x00; x4b; x0b; xb0; x04; x00; x00; x65; xed; x0d; x0a]
  = Return (Some {| voltage := div_100 1200;
                    battery_ok := false;
                    charging := false |}).
Proof. vm_compute. reflexivity. Qed.

Example parse_status_wrong_command :
  parse_status_response
    [x24; x24; x0e; x00; x43; x01; xee; x04; x02; x01; x08; xb4; x0d; x0a]
  = Return None.
Proof. vm_compute. reflexivity. Qed.

Example parse_device_info_known :
  parse_device_info_response DEVICE_INFO_RESPONSE
  = Return (Some {| model := "BK300";
                    hw_version := "1.1";
                    fw_version := "1.0.3" |}).
Proof. vm_compute. reflexivity. Qed.

Example parse_device_info_latin1 :
  parse_device_info_response DEVICE_INFO_RESPONSE_LATIN1
  = Return (Some {| model := "BK30";
                    hw_version := "";
                    fw_version := "1.0.3" |}).
Proof. vm_compute. reflexivity. Qed.

Example parse_device_info_too_short :
  parse_device_info_response [x24; x24; x36; x00] = Return None.
Proof. vm_compute. reflexivity. Qed.

(** A first cycle on a fresh coordinator performs both exchanges. *)
Example first_cycle_writes :
  writes (trace (_async_update_data
                   (cycle_with [DEVICE_INFO_RESPONSE] [STATUS_RESPONSE]) init))
  = [CMD_DEVICE_INFO; CMD_STATUS_POLL].
Proof. vm_compute. reflexivity. Qed.

(** A cycle whose device-info request is not answered times out. *)
Example silent_device_times_out :
  outcome (_async_update_data (cycle_with [] [STATUS_RESPONSE]) init)
  = Raise (UpdateFailed DeviceInfoTimeout).
Proof. vm_compute. reflexivity. Qed.

(** A status response where device info is expected is invalid. *)
Example stray_response_is_invalid :
  outcome (_async_update_data
             (cycle_with [STATUS_RESPONSE] [STATUS_RESPONSE]) init)
  = Raise (UpdateFailed InvalidDeviceInfo).
Proof. vm_compute. reflexivity. Qed.

End Samples.
